(** * RoadTrip backend: credentials, request authorization and
      ownership-scoped trip access

    A shallow embedding of the Express/Mongoose backend:
    - [models/User], [models/Trip]: the schemas (required fields, trimming,
      lower-casing, unique indexes, the password [pre('save')] hook and
      [matchPassword]);
    - [controllers/authController]: [generateToken], [signupUser],
      [loginUser];
    - [middleware/authMiddleware]: [protect];
    - [middleware/errorMiddleware]: [errorHandler];
    - [controllers/tripController]: [getTrips], [createTrip], [deleteTrip].

    A handler is a computation over the process state (the two collections,
    the response under construction, the clock and the environment) that may
    throw; what [res.status] wrote before a [throw] stays written, which is
    what [errorHandler] relies on.  Strings are held as their UTF-8 bytes.
    What the code calls and does not define ([jsonwebtoken], [bcryptjs],
    the case mapping of the engine, the wording of the errors of Mongoose,
    the V8 stack trace) is a parameter, see [Platform]. *)

From Stdlib Require Import String Ascii List Bool ZArith NArith QArith Lia.
From Stdlib Require Import HexadecimalString HexadecimalN.
From Stdlib Require HexadecimalFacts DecimalString.
Import ListNotations.
Local Open Scope string_scope.
Local Close Scope Q_scope.
Local Open Scope list_scope.

Set Implicit Arguments.

(* ------------------------------------------------------------------ *)
(** ** JavaScript strings *)

Module JsString.

(** [s.startsWith(p)] *)
Definition startsWith (s p : string) : bool := String.prefix p s.

(** [s.split(sep)] for a one-character separator: never empty, and an
    empty field between two adjacent separators. *)
Fixpoint split (sep : ascii) (s : string) : list string :=
  match s with
  | EmptyString => [""]
  | String c r =>
      if Ascii.eqb c sep then "" :: split sep r
      else match split sep r with
           | h :: t => String c h :: t
           | [] => [String c ""]
           end
  end.

(** A string is held as its UTF-8 bytes, the way a literal is.
    [String.prototype.trim] strips the white space and the line
    terminators of ECMAScript; by the length of their encoding:
    U+0009 to U+000D and U+0020; *)
Definition isSpace1 (a : ascii) : bool :=
  let n := nat_of_ascii a in
  Nat.eqb n 32 || (Nat.leb 9 n && Nat.leb n 13).

(** U+00A0; *)
Definition isSpace2 (a b : ascii) : bool :=
  Nat.eqb (nat_of_ascii a) 194 && Nat.eqb (nat_of_ascii b) 160.

(** U+1680; U+2000 to U+200A, U+2028, U+2029 and U+202F; U+205F; U+3000;
    U+FEFF. *)
Definition isSpace3 (a b c : ascii) : bool :=
  let x := nat_of_ascii a in
  let y := nat_of_ascii b in
  let z := nat_of_ascii c in
  (Nat.eqb x 225 && Nat.eqb y 154 && Nat.eqb z 128)
  || (Nat.eqb x 226 && Nat.eqb y 128
      && ((Nat.leb 128 z && Nat.leb z 138)
          || Nat.eqb z 168 || Nat.eqb z 169 || Nat.eqb z 175))
  || (Nat.eqb x 226 && Nat.eqb y 129 && Nat.eqb z 159)
  || (Nat.eqb x 227 && Nat.eqb y 128 && Nat.eqb z 128)
  || (Nat.eqb x 239 && Nat.eqb y 187 && Nat.eqb z 191).

Fixpoint trimStart (s : string) : string :=
  match s with
  | EmptyString => EmptyString
  | String a r =>
      if isSpace1 a then trimStart r
      else
        match r with
        | EmptyString => s
        | String b r2 =>
            if isSpace2 a b then trimStart r2
            else
              match r2 with
              | EmptyString => s
              | String c r3 => if isSpace3 a b c then trimStart r3 else s
              end
        end
  end.

(** Nothing but white space. *)
Definition isBlank (s : string) : bool := String.eqb (trimStart s) "".

(** Drops trailing white space: the string is cut where nothing but
    white space follows. *)
Fixpoint trimEnd (s : string) : string :=
  match s with
  | EmptyString => EmptyString
  | String c r => if isBlank s then EmptyString else String c (trimEnd r)
  end.

Definition trim (s : string) : string := trimEnd (trimStart s).

(** Truthiness of a string value, and of a possibly [undefined] one. *)
Definition truthy (s : string) : bool := negb (String.eqb s "").

Definition truthy_opt (o : option string) : bool :=
  match o with
  | Some s => truthy s
  | None => false
  end.

(** The string behind a value known to be one (a truthy value is). *)
Definition value (o : option string) : string :=
  match o with
  | Some s => s
  | None => ""
  end.

(** No occurrence of the character [c]. *)
Fixpoint lacks (c : ascii) (s : string) : bool :=
  match s with
  | EmptyString => true
  | String d r => negb (Ascii.eqb d c) && lacks c r
  end.

End JsString.

(* ------------------------------------------------------------------ *)
(** ** Identifiers, JSON values, thrown errors *)

(** A MongoDB [ObjectId], by its value: twelve bytes, so a number below
    [2 ^ 96]. *)
Definition ObjectId := N.

Bind Scope N_scope with ObjectId.

(** [id.toString()]: the 24 hexadecimal digits, in lower case. *)
Definition toString (i : ObjectId) : string :=
  let d := N.to_hex_uint i in
  NilEmpty.string_of_uint
    (Nat.iter (24 - Hexadecimal.nb_digits d) Hexadecimal.D0 d).

Definition hexLower (c : ascii) : ascii :=
  let n := nat_of_ascii c in
  if Nat.leb 65 n && Nat.leb n 70 then ascii_of_nat (n + 32) else c.

Fixpoint hexLowerCase (s : string) : string :=
  match s with
  | EmptyString => EmptyString
  | String c r => String (hexLower c) (hexLowerCase r)
  end.

(** The cast of a string to an [ObjectId], as Mongoose applies it to the
    [_id] of a query filter: a string of 24 hexadecimal digits, in either
    case, is the identifier it writes; nothing else is one. *)
Definition castObjectId (s : string) : option ObjectId :=
  if Nat.eqb (String.length s) 24
  then option_map N.of_hex_uint (NilEmpty.uint_of_string (hexLowerCase s))
  else None.

(** A JSON number that is carried and never computed with. *)
Definition Number := Q.

Bind Scope Q_scope with Number.

(** Seconds since the epoch. *)
Definition Time := Z.

Bind Scope Z_scope with Time.

Inductive Exn : Type :=
| Error (message : string)
    (* [throw new Error(message)] *)
| TypeError (property : string)
    (* reading [property] of [null] *)
| ValidationError (model : string) (paths : list string)
    (* Mongoose: the [required] paths of a document of [model] that are empty *)
| MongoServerError (index : string) (key : string)
    (* E11000: [key] is already in the unique index *)
| CastError (value : string) (path : string) (model : string).
    (* Mongoose: [value] is no [ObjectId], in a filter on [path] *)

(** [err.message], given the wording of the errors that Mongoose and the
    database driver raise.  For [new Error(m)] it is [m]; for the
    [TypeError] it is the text of V8. *)
Definition messageWith (wording : Exn -> string) (e : Exn) : string :=
  match e with
  | Error m => m
  | TypeError p => "Cannot read properties of null (reading '" ++ p ++ "')"
  | _ => wording e
  end.

(* ------------------------------------------------------------------ *)
(** ** Documents *)

(** [models/User]: [userSchema], with [timestamps: true]. *)
Record User : Type := mkUser {
  user_id : ObjectId;
  username : string;
  email : string;
  password : string;
  user_createdAt : Time;
  user_updatedAt : Time
}.

(** A user document as a query with [.select('-password')] returns it. *)
Record UserView : Type := mkUserView {
  view_id : ObjectId;
  view_username : string;
  view_email : string;
  view_createdAt : Time;
  view_updatedAt : Time
}.

(** [models/Trip]: [locationSchema]. *)
Record Location : Type := mkLocation {
  name : string;
  latitude : Number;
  longitude : Number
}.

(** [models/Trip]: [tripSchema], with [timestamps: true]. *)
Record Trip : Type := mkTrip {
  trip_id : ObjectId;
  title : string;
  description : option string;
  locations : list Location;
  createdBy : ObjectId;
  trip_createdAt : Time;
  trip_updatedAt : Time
}.

(** What [.populate('createdBy', 'username')] puts in place of the
    reference: the selected field and the identifier. *)
Record OwnerRef : Type := mkOwnerRef {
  owner_id : ObjectId;
  owner_username : string
}.

(** A trip with [createdBy] populated ([null] when the referenced user
    does not exist). *)
Record PopulatedTrip : Type := mkPopulatedTrip {
  populated_trip : Trip;
  populated_createdBy : option OwnerRef
}.

(** A field value of an object literal handed to [res.json]. *)
Inductive Value : Type :=
| VNull
| VString (s : string)
| VId (i : ObjectId).

(** Values handed to [res.json].  Object literals keep their fields in
    source order; documents are embedded as they are. *)
Inductive Json : Type :=
| JObject (fields : list (string * Value))
| JTrip (t : Trip)
| JTrips (ts : list PopulatedTrip).

(* ------------------------------------------------------------------ *)
(** ** Requests, responses, process state *)

(** A stop as it arrives in a request body: any field may be missing. *)
Record LocationInput : Type := mkLocationInput {
  in_name : option string;
  in_latitude : option Number;
  in_longitude : option Number
}.

(** [req.body]: the fields the controllers destructure, each possibly
    [undefined]. *)
Record Body : Type := mkBody {
  body_username : option string;
  body_email : option string;
  body_password : option string;
  body_title : option string;
  body_description : option string;
  body_locations : option (list LocationInput)
}.

Definition emptyBody : Body := mkBody None None None None None None.

Record Request : Type := mkRequest {
  authorization : option string;     (* [req.headers.authorization] *)
  params_id : string;                (* [req.params.id]: the path segment, [""] on a route without one *)
  body : Body;
  user : option UserView             (* [req.user]; [None] is [null] *)
}.

(** [res]: the current status code and what has been written so far, each
    write with the status code it went out with. *)
Record Response : Type := mkResponse {
  statusCode : nat;
  sent : list (nat * Json)
}.

Definition freshResponse : Response := mkResponse 200 [].

(** [process.env] *)
Record Env : Type := mkEnv {
  JWT_SECRET : option string;
  NODE_ENV : option string
}.

Record World : Type := mkWorld {
  users : list User;          (* the [User] collection, in insertion order *)
  trips : list Trip;          (* the [Trip] collection, in insertion order *)
  res : Response;
  env : Env;
  now : Time;                 (* the clock during the current request *)
  nextObjectId : ObjectId;    (* the next identifier [new ObjectId()] gives *)
  entropy : nat               (* draws taken from the random source so far *)
}.

Definition set_users (us : list User) (w : World) : World :=
  mkWorld us (trips w) (res w) (env w) (now w) (nextObjectId w) (entropy w).

Definition set_trips (ts : list Trip) (w : World) : World :=
  mkWorld (users w) ts (res w) (env w) (now w) (nextObjectId w) (entropy w).

Definition set_res (r : Response) (w : World) : World :=
  mkWorld (users w) (trips w) r (env w) (now w) (nextObjectId w) (entropy w).

Definition set_nextObjectId (i : ObjectId) (w : World) : World :=
  mkWorld (users w) (trips w) (res w) (env w) (now w) i (entropy w).

Definition set_entropy (n : nat) (w : World) : World :=
  mkWorld (users w) (trips w) (res w) (env w) (now w) (nextObjectId w) n.

(** The next request arrives at time [t] with a response of its own. *)
Definition nextRequest (t : Time) (w : World) : World :=
  mkWorld (users w) (trips w) freshResponse (env w) t (nextObjectId w) (entropy w).

(* ------------------------------------------------------------------ *)
(** ** Computations that read and write the process state and may throw *)

Definition M (A : Type) : Type := World -> (Exn + A) * World.

Definition ret {A} (a : A) : M A := fun w => (inr a, w).

Definition throw {A} (e : Exn) : M A := fun w => (inl e, w).

Definition bind {A B} (m : M A) (k : A -> M B) : M B :=
  fun w =>
    match m w with
    | (inl e, w') => (inl e, w')
    | (inr a, w') => k a w'
    end.

Declare Scope js_scope.
Delimit Scope js_scope with js.
Notation "x <- m ;; k" := (bind m (fun x => k))
  (at level 61, m at next level, right associativity) : js_scope.
Notation "m ;; k" := (bind m (fun _ => k))
  (at level 61, right associativity) : js_scope.
Local Open Scope js_scope.

Definition gets {A} (f : World -> A) : M A := fun w => (inr (f w), w).

Definition modify (f : World -> World) : M unit := fun w => (inr tt, f w).

(** [try { body } catch (error) { handler }] *)
Definition try_catch {A} (body : M A) (handler : Exn -> M A) : M A :=
  fun w =>
    match body w with
    | (inl e, w') => handler e w'
    | (inr a, w') => (inr a, w')
    end.

(** [res.status(code)] *)
Definition res_status (code : nat) : M unit :=
  modify (fun w => set_res (mkResponse code (sent (res w))) w).

(** [res.json(body)]: written with the status code current at the call. *)
Definition res_json (j : Json) : M unit :=
  modify (fun w =>
    set_res (mkResponse (statusCode (res w))
                        (sent (res w) ++ [(statusCode (res w), j)])) w).

(* ------------------------------------------------------------------ *)
(** ** The libraries the backend calls *)

(** [jsonwebtoken], [bcryptjs], the case mapping of the JavaScript engine,
    the wording of the errors that Mongoose and the database driver raise,
    and the stack trace the runtime attaches to an error.  The functions
    are parameters; what the proofs need from the first two is stated
    separately ([jwt_contract], [bcrypt_contract]). *)
Class Platform : Type := mkPlatform {
  (** [jwt.sign({ id }, secret, { expiresIn })] at clock time [iat], with
      [expiresIn] in seconds *)
  jwt_sign : ObjectId -> string -> Z -> Time -> string;
  (** [jwt.verify(token, secret)] at a clock time: [decoded.id], or
      [None] where the library throws *)
  jwt_verify : string -> string -> Time -> option ObjectId;
  (** [bcrypt.genSalt(rounds)] on a given draw from the random source *)
  bcrypt_genSalt : nat -> nat -> string;
  (** [bcrypt.hash(data, salt)] *)
  bcrypt_hash : string -> string -> string;
  (** [bcrypt.compare(data, hash)] *)
  bcrypt_compare : string -> string -> bool;
  (** [err.stack] *)
  stack : Exn -> string;
  (** [String.prototype.toLowerCase]: the lower-case mapping of Unicode *)
  toLowerCase : string -> string;
  (** [err.message] of a [ValidationError], [MongoServerError] or
      [CastError] *)
  wording : Exn -> string
}.

(** A token verifies under the secret it was signed with, to the identifier
    it was signed for, as long as the clock has not reached its expiry
    ([exp = iat + expiresIn]; the library rejects from [exp] on); and a
    token is one word. *)
Definition jwt_contract (P : Platform) : Prop :=
  (forall (id : ObjectId) (secret : string) (expiresIn : Z) (iat t : Time),
      (t < iat + expiresIn)%Z ->
      jwt_verify (jwt_sign id secret expiresIn iat) secret t = Some id)
  /\ (forall (id : ObjectId) (secret : string) (expiresIn : Z) (iat : Time),
        JsString.lacks " " (jwt_sign id secret expiresIn iat) = true).

(** A password matches the hash computed from it, whatever salt
    [genSalt] produced. *)
Definition bcrypt_contract (P : Platform) : Prop :=
  forall (data : string) (rounds draw : nat),
    bcrypt_compare data (bcrypt_hash data (bcrypt_genSalt rounds draw)) = true.

Section Backend.

Context {P : Platform}.

(* ------------------------------------------------------------------ *)
(** ** models/User *)

(** [err.message] *)
Definition message (e : Exn) : string := messageWith wording e.

(** The setter of [lowercase: true], [if (v) return v.toLowerCase();
    return v]: a falsy value, here the empty string, is left as it is.
    The setter of [trim: true] is alike; trimming the empty string gives
    it back, so its test is not written out. *)
Definition lowercase (v : string) : string :=
  if JsString.truthy v then toLowerCase v else v.

(** Schema setters: [username] is trimmed, [email] lower-cased and
    trimmed (of the setters of a path, the one declared last runs first).
    Mongoose applies them to documents and to query filters alike. *)
Definition castUsername (s : string) : string := JsString.trim s.

Definition castEmail (s : string) : string := JsString.trim (lowercase s).

(** A Mongoose document of the [User] model: the field values and the
    change tracking behind [isNew] and [isModified]. *)
Record UserDocument : Type := mkUserDocument {
  fields : User;
  isNew : bool;
  modifiedPaths : list string
}.

Definition isModified (d : UserDocument) (path : string) : bool :=
  existsb (String.eqb path) (modifiedPaths d).

Definition set_password (pw : string) (u : User) : User :=
  mkUser (user_id u) (username u) (email u) pw
         (user_createdAt u) (user_updatedAt u).

(** [bcrypt.genSalt(rounds)]: one draw from the random source. *)
Definition genSalt (rounds : nat) : M string :=
  fun w => (inr (bcrypt_genSalt rounds (entropy w)),
            set_entropy (S (entropy w)) w).

(** [userSchema.pre('save', ...)].  On strings [genSalt] and [hash] do
    not reject, so the [catch] arm that forwards their error is not
    taken. *)
Definition pre_save (d : UserDocument) : M UserDocument :=
  if negb (isModified d "password") then ret d
  else
    salt <- genSalt 10 ;;
    ret (mkUserDocument
           (set_password (bcrypt_hash (password (fields d)) salt) (fields d))
           (isNew d) (modifiedPaths d)).

(** [userSchema.methods.matchPassword]; [bcrypt.compare] rejects an
    [undefined] argument. *)
Definition matchPassword (u : User) (enteredPassword : option string) : M bool :=
  match enteredPassword with
  | Some p => ret (bcrypt_compare p (password u))
  | None => throw (Error "Illegal arguments: undefined, string")
  end.

(** The paths, among [(path, value)], whose value is the empty string,
    which [required: true] does not let pass. *)
Definition emptyPaths (l : list (string * string)) : list string :=
  map fst (filter (fun kv => String.eqb (snd kv) "") l).

(** [required: true] on the three paths. *)
Definition validateUser (u : User) : M unit :=
  match emptyPaths [("username", username u); ("email", email u);
                    ("password", password u)] with
  | [] => ret tt
  | paths => throw (ValidationError "User" paths)
  end.

Definition find_user (f : User -> bool) (us : list User) : option User :=
  List.find f us.

(** The unique indexes of the collection ([unique: true] on [username] and
    on [email]), checked against every other document. *)
Definition checkUnique (u : User) (others : list User) : M unit :=
  if existsb (fun v => String.eqb (username v) (username u)) others
  then throw (MongoServerError "username_1" (username u))
  else if existsb (fun v => String.eqb (email v) (email u)) others
  then throw (MongoServerError "email_1" (email u))
  else ret tt.

(** What an update writes: the modified paths, and [updatedAt]. *)
Definition applyUpdate (d : UserDocument) (t : Time) (stored : User) : User :=
  mkUser (user_id stored)
         (if isModified d "username" then username (fields d) else username stored)
         (if isModified d "email" then email (fields d) else email stored)
         (if isModified d "password" then password (fields d) else password stored)
         (user_createdAt stored)
         t.

Definition replaceUser (d : UserDocument) (t : Time) (us : list User) : list User :=
  map (fun v => if N.eqb (user_id v) (user_id (fields d))
                then applyUpdate d t v else v) us.

(** [doc.save()]: validation, then the [pre('save')] hook, then the
    write.  A new document is inserted; an existing one with modified paths
    is updated in place; an existing one without is left alone. *)
Definition User_save (d : UserDocument) : M User :=
  validateUser (fields d) ;;
  d' <- pre_save d ;;
  t <- gets now ;;
  us <- gets users ;;
  if isNew d' then
    let u := mkUser (user_id (fields d')) (username (fields d'))
                    (email (fields d')) (password (fields d')) t t in
    checkUnique u us ;;
    modify (set_users (us ++ [u])) ;;
    ret u
  else
    match modifiedPaths d' with
    | [] => ret (fields d')
    | _ :: _ =>
        checkUnique (fields d')
          (filter (fun v => negb (N.eqb (user_id v) (user_id (fields d')))) us) ;;
        modify (set_users (replaceUser d' t us)) ;;
        ret (fields d')
    end.

(** [new ObjectId()] *)
Definition newObjectId : M ObjectId :=
  fun w => (inr (nextObjectId w), set_nextObjectId (N.succ (nextObjectId w)) w).

(** [new User({ username, email, password })]: a fresh identifier, the
    setters applied, every given path marked modified. *)
Definition User_new (username email password : string) : M UserDocument :=
  i <- newObjectId ;;
  ret (mkUserDocument
         (mkUser i (castUsername username) (castEmail email) password 0%Z 0%Z)
         true ["username"; "email"; "password"]).

(** [User.create({ username, email, password })] *)
Definition User_create (username email password : string) : M User :=
  d <- User_new username email password ;;
  User_save d.

(** [User.findOne({ email })]; no document lacks an email, so an
    [undefined] filter value matches none. *)
Definition User_findOne (email_filter : option string) : M (option User) :=
  match email_filter with
  | Some e =>
      us <- gets users ;;
      ret (find_user (fun u => String.eqb (email u) (castEmail e)) us)
  | None => ret None
  end.

Definition User_findById (i : ObjectId) : M (option User) :=
  us <- gets users ;;
  ret (find_user (fun u => N.eqb (user_id u) i) us).

(** [.select('-password')] *)
Definition select_minus_password (u : User) : UserView :=
  mkUserView (user_id u) (username u) (email u)
             (user_createdAt u) (user_updatedAt u).

(** A document loaded by a query: not new, nothing modified. *)
Definition hydrate (u : User) : UserDocument := mkUserDocument u false [].

(** [doc.path = value] on a loaded document. *)
Definition set_path_username (v : string) (d : UserDocument) : UserDocument :=
  mkUserDocument
    (mkUser (user_id (fields d)) (castUsername v) (email (fields d))
            (password (fields d)) (user_createdAt (fields d))
            (user_updatedAt (fields d)))
    (isNew d) ("username" :: modifiedPaths d).

Definition set_path_password (v : string) (d : UserDocument) : UserDocument :=
  mkUserDocument (set_password v (fields d)) (isNew d)
                 ("password" :: modifiedPaths d).

(* ------------------------------------------------------------------ *)
(** ** models/Trip *)

(** A [Trip] document before it is saved: the setters applied ([title]
    and each stop's [name] trimmed), nothing validated yet. *)
Record TripDocument : Type := mkTripDocument {
  doc_id : ObjectId;
  doc_title : string;
  doc_description : option string;
  doc_locations : list LocationInput;
  doc_createdBy : ObjectId
}.

Definition castLocation (l : LocationInput) : LocationInput :=
  mkLocationInput (option_map JsString.trim (in_name l))
                  (in_latitude l) (in_longitude l).

(** [new Trip({ title, description, locations, createdBy })] *)
Definition Trip_new (title : string) (description : option string)
    (locations : list LocationInput) (createdBy : ObjectId) : M TripDocument :=
  i <- newObjectId ;;
  ret (mkTripDocument i (JsString.trim title) description
                      (map castLocation locations) createdBy).

(** [locationSchema]: the three paths are [required]. *)
Definition validateLocation (l : LocationInput) : option Location :=
  match in_name l, in_latitude l, in_longitude l with
  | Some n, Some la, Some lo =>
      if String.eqb n "" then None else Some (mkLocation n la lo)
  | _, _, _ => None
  end.

Fixpoint validateLocations (ls : list LocationInput) : option (list Location) :=
  match ls with
  | [] => Some []
  | l :: rest =>
      match validateLocation l, validateLocations rest with
      | Some v, Some vs => Some (v :: vs)
      | _, _ => None
      end
  end.

(** The path of a field of the stop at [index]. *)
Definition stopPath (index : nat) (field : string) : string :=
  "locations." ++ DecimalString.NilEmpty.string_of_uint (Nat.to_uint index)
  ++ "." ++ field.

(** The [required] paths of a stop, and of the stops from [index] on,
    that are empty. *)
Definition locationErrors (index : nat) (l : LocationInput) : list string :=
  (match in_name l with
   | Some n => if String.eqb n "" then [stopPath index "name"] else []
   | None => [stopPath index "name"]
   end)
  ++ (match in_latitude l with
      | Some _ => []
      | None => [stopPath index "latitude"]
      end)
  ++ (match in_longitude l with
      | Some _ => []
      | None => [stopPath index "longitude"]
      end).

Fixpoint locationsErrors (index : nat) (ls : list LocationInput) : list string :=
  match ls with
  | [] => []
  | l :: rest => locationErrors index l ++ locationsErrors (S index) rest
  end.

Definition tripErrors (d : TripDocument) : list string :=
  (if String.eqb (doc_title d) "" then ["title"] else [])
  ++ locationsErrors 0 (doc_locations d).

(** [trip.save()] of a new document: validation, then the insert, with
    [createdAt] and [updatedAt] set to the clock. *)
Definition Trip_save (d : TripDocument) : M Trip :=
  if String.eqb (doc_title d) ""
  then throw (ValidationError "Trip" (tripErrors d))
  else
    match validateLocations (doc_locations d) with
    | None => throw (ValidationError "Trip" (tripErrors d))
    | Some ls =>
        t <- gets now ;;
        let trip := mkTrip (doc_id d) (doc_title d) (doc_description d) ls
                           (doc_createdBy d) t t in
        modify (fun w => set_trips (trips w ++ [trip]) w) ;;
        ret trip
    end.

(** [Trip.find({ createdBy })] *)
Definition Trip_find (owner : ObjectId) : M (list Trip) :=
  ts <- gets trips ;;
  ret (filter (fun t => N.eqb (createdBy t) owner) ts).

(** [.populate('createdBy', 'username')] *)
Definition populate (ts : list Trip) : M (list PopulatedTrip) :=
  us <- gets users ;;
  ret (map (fun t =>
              mkPopulatedTrip t
                (option_map (fun u => mkOwnerRef (user_id u) (username u))
                   (find_user (fun u => N.eqb (user_id u) (createdBy t)) us)))
           ts).

(** [Trip.findById(id)]: a filter on [_id], whose value is cast first. *)
Definition Trip_findById (id : string) : M (option Trip) :=
  match castObjectId id with
  | None => throw (CastError id "_id" "Trip")
  | Some i =>
      ts <- gets trips ;;
      ret (List.find (fun t => N.eqb (trip_id t) i) ts)
  end.

(** Removes the first element satisfying [f]. *)
Fixpoint removeFirst {A} (f : A -> bool) (l : list A) : list A :=
  match l with
  | [] => []
  | x :: r => if f x then r else x :: removeFirst f r
  end.

(** [Trip.deleteOne({ _id })], the filter cast likewise. *)
Definition Trip_deleteOne (id : string) : M unit :=
  match castObjectId id with
  | None => throw (CastError id "_id" "Trip")
  | Some i =>
      modify (fun w =>
        set_trips (removeFirst (fun t => N.eqb (trip_id t) i) (trips w)) w)
  end.

(* ------------------------------------------------------------------ *)
(** ** middleware/errorMiddleware *)

Definition errorHandler (err : Exn) : M unit :=
  sc <- gets (fun w => statusCode (res w)) ;;
  let statusCode := if Nat.eqb sc 200 then 500 else sc in
  res_status statusCode ;;
  node_env <- gets (fun w => NODE_ENV (env w)) ;;
  res_json (JObject
    [ ("error", VString (message err));
      ("stack", match node_env with
                | Some e => if String.eqb e "production" then VNull
                            else VString (stack err)
                | None => VString (stack err)
                end) ]).

(** [express-async-handler] around a handler, in an application whose
    error middleware is [errorHandler]: an error the handler throws is
    passed on to it. *)
Definition asyncHandler (fn : Request -> M unit) (req : Request) : World -> World :=
  fun w =>
    match fn req w with
    | (inl e, w') => snd (errorHandler e w')
    | (inr _, w') => w'
    end.

(* ------------------------------------------------------------------ *)
(** ** controllers/authController *)

Definition expiresIn_30d : Z := 30 * 24 * 60 * 60.

(** [jwt.sign] throws without a secret. *)
Definition generateToken (id : ObjectId) : M string :=
  secret <- gets (fun w => JWT_SECRET (env w)) ;;
  if JsString.truthy_opt secret then
    t <- gets now ;;
    ret (jwt_sign id (JsString.value secret) expiresIn_30d t)
  else throw (Error "secretOrPrivateKey must have a value").

Definition signupUser (req : Request) : M unit :=
  let username_ := body_username (body req) in
  let email_ := body_email (body req) in
  let password_ := body_password (body req) in
  if negb (JsString.truthy_opt username_) || negb (JsString.truthy_opt email_)
     || negb (JsString.truthy_opt password_)
  then res_status 400 ;; throw (Error "Please fill in all fields")
  else
    userExists <- User_findOne email_ ;;
    match userExists with
    | Some _ => res_status 400 ;; throw (Error "User already exists")
    | None =>
        (* a created document is an object, hence truthy: the [else]
           branch of [if (user)] is never taken *)
        user <- User_create (JsString.value username_) (JsString.value email_)
                            (JsString.value password_) ;;
        res_status 201 ;;
        token <- generateToken (user_id user) ;;
        res_json (JObject
          [ ("_id", VId (user_id user));
            ("username", VString (username user));
            ("email", VString (email user));
            ("token", VString token) ])
    end.

Definition loginUser (req : Request) : M unit :=
  let email_ := body_email (body req) in
  let password_ := body_password (body req) in
  user <- User_findOne email_ ;;
  ok <- match user with
        | Some u => matchPassword u password_
        | None => ret false
        end ;;
  match user, ok with
  | Some user, true =>
      token <- generateToken (user_id user) ;;
      res_json (JObject
        [ ("_id", VId (user_id user));
          ("username", VString (username user));
          ("email", VString (email user));
          ("token", VString token) ])
  | _, _ => res_status 401 ;; throw (Error "Invalid email or password")
  end.

(* ------------------------------------------------------------------ *)
(** ** middleware/authMiddleware *)

(** [jwt.verify(token, process.env.JWT_SECRET)]: throws on a missing
    token, a missing secret, and whatever the library rejects. *)
Definition verify (token : option string) : M ObjectId :=
  secret <- gets (fun w => JWT_SECRET (env w)) ;;
  t <- gets now ;;
  match token with
  | None => throw (Error "jwt must be provided")
  | Some tok =>
      if JsString.truthy_opt secret then
        match jwt_verify tok (JsString.value secret) t with
        | Some id => ret id
        | None => throw (Error "invalid token")
        end
      else throw (Error "secret or public key must be provided")
  end.

Definition set_user (u : option UserView) (req : Request) : Request :=
  mkRequest (authorization req) (params_id req) (body req) u.

(** [req.headers.authorization && req.headers.authorization.startsWith('Bearer')] *)
Definition hasBearer (req : Request) : bool :=
  match authorization req with
  | Some h => JsString.truthy h && JsString.startsWith h "Bearer"
  | None => false
  end.

(** [req.headers.authorization.split(' ')[1]] *)
Definition bearerToken (req : Request) : option string :=
  nth_error (JsString.split " " (JsString.value (authorization req))) 1.

(** [protect], with [next] the rest of the route.  Both paths through
    the [try] statement return, so the final [if (!token)] is reached
    exactly when the header test fails, with [token] still [undefined]. *)
Definition protect (next : Request -> World -> World) : Request -> World -> World :=
  asyncHandler (fun req =>
    if hasBearer req then
      try_catch
        (let token := bearerToken req in
         decoded <- verify token ;;
         found <- User_findById decoded ;;
         let req' := set_user (option_map select_minus_password found) req in
         modify (next req'))
        (fun _ =>
           res_status 401 ;;
           res_json (JObject [("error", VString "Not authorized, token failed")]))
    else
      res_status 401 ;;
      res_json (JObject [("error", VString "Not authorized, no token")])).

(* ------------------------------------------------------------------ *)
(** ** controllers/tripController *)

(** [req.user._id]; [req.user] is [null] when [protect] found no
    account. *)
Definition req_user_id (req : Request) : M ObjectId :=
  match user req with
  | Some u => ret (view_id u)
  | None => throw (TypeError "_id")
  end.

Definition getTrips (req : Request) : M unit :=
  owner <- req_user_id req ;;
  found <- Trip_find owner ;;
  trips <- populate found ;;
  res_status 200 ;;
  res_json (JTrips trips).

(** [!locations || locations.length === 0] *)
Definition noLocations (ls : option (list LocationInput)) : bool :=
  match ls with
  | Some l => Nat.eqb (length l) 0
  | None => true
  end.

Definition createTrip (req : Request) : M unit :=
  let title_ := body_title (body req) in
  let description_ := body_description (body req) in
  let locations_ := body_locations (body req) in
  if negb (JsString.truthy_opt title_) || noLocations locations_
  then
    res_status 400 ;;
    throw (Error "Please include a title and at least one location")
  else
    owner <- req_user_id req ;;
    trip <- Trip_new (JsString.value title_) description_
                     (match locations_ with Some l => l | None => [] end)
                     owner ;;
    createdTrip <- Trip_save trip ;;
    res_status 201 ;;
    res_json (JTrip createdTrip).

Definition deleteTrip (req : Request) : M unit :=
  found <- Trip_findById (params_id req) ;;
  match found with
  | None => res_status 404 ;; throw (Error "Trip not found")
  | Some trip =>
      me <- req_user_id req ;;
      if negb (String.eqb (toString (createdBy trip)) (toString me))
      then res_status 403 ;; throw (Error "Not authorized to delete this trip")
      else
        Trip_deleteOne (params_id req) ;;
        res_json (JObject [("message", VString "Trip removed successfully")])
  end.

(* ------------------------------------------------------------------ *)
(** ** routes *)

Definition POST_signup : Request -> World -> World := asyncHandler signupUser.
Definition POST_login : Request -> World -> World := asyncHandler loginUser.
Definition GET_trips : Request -> World -> World := protect (asyncHandler getTrips).
Definition POST_trips : Request -> World -> World := protect (asyncHandler createTrip).
Definition DELETE_trip : Request -> World -> World := protect (asyncHandler deleteTrip).

Definition routes : list (Request -> World -> World) :=
  [POST_signup; POST_login; GET_trips; POST_trips; DELETE_trip].

End Backend.

(* ------------------------------------------------------------------ *)
(** ** What a response looks like *)

(** The request was answered once, with [code] and the body [j]. *)
Definition responds (w : World) (code : nat) (j : Json) : Prop :=
  res w = mkResponse code [(code, j)].

(** The request was answered once, with [code] and an error object of the
    shape [errorHandler] writes, carrying the message [msg]. *)
Definition respondsError (w : World) (code : nat) (msg : string) : Prop :=
  exists trace : Value,
    responds w code (JObject [("error", VString msg); ("stack", trace)]).

(** The [stack] field [errorHandler] writes for [err]. *)
Definition stackField {P : Platform} (node_env : option string) (err : Exn) : Value :=
  match node_env with
  | Some e => if String.eqb e "production" then VNull else VString (stack err)
  | None => VString (stack err)
  end.

(** The state after [res.status(401).json({ error: msg })]. *)
Definition unauthorized (msg : string) (w : World) : World :=
  set_res (mkResponse 401
             (sent (res w) ++ [(401, JObject [("error", VString msg)])])) w.

(** The object [signupUser] and [loginUser] answer with. *)
Definition accountJson (id : ObjectId) (n e token : string) : Json :=
  JObject [("_id", VId id); ("username", VString n); ("email", VString e);
           ("token", VString token)].

(** The account [User.create] stores, when nothing stands in its way,
    and the state it leaves. *)
Definition createdUser `{P : Platform} (n e p : string) (w : World) : User :=
  mkUser (nextObjectId w) (castUsername n) (castEmail e)
         (bcrypt_hash p (bcrypt_genSalt 10 (entropy w))) (now w) (now w).

Definition afterCreate `{P : Platform} (n e p : string) (w : World) : World :=
  set_users (users w ++ [createdUser n e p w])
    (set_entropy (S (entropy w))
       (set_nextObjectId (N.succ (nextObjectId w)) w)).




(** The primary key: no two documents of a collection share an [_id]. *)
Definition uniqueTripIds (w : World) : Prop := NoDup (map trip_id (trips w)).

(* ------------------------------------------------------------------ *)
(** ** A small platform to run the backend on

    Enough of [jsonwebtoken] and [bcryptjs] to evaluate the handlers on
    concrete requests: a token is [id.exp.mac] in hexadecimal, the "mac"
    a checksum of the secret; a hash is the salt, a [$] and the data.
    Neither is secure; both satisfy the contracts above.  The case
    mapping covers ASCII and Latin-1, and the errors of Mongoose are
    worded in brief. *)
Module Sample.

Definition hex (n : N) : string := NilEmpty.string_of_uint (N.to_hex_uint n).

Definition unhex (s : string) : option N :=
  option_map N.of_hex_uint (NilEmpty.uint_of_string s).

Fixpoint checksum (s : string) : N :=
  match s with
  | EmptyString => 7%N
  | String c r => (N_of_ascii c + 31 * checksum r)%N
  end.

Definition sign (id : ObjectId) (secret : string) (expiresIn : Z) (iat : Time) : string :=
  hex id ++ "." ++ hex (Z.to_N (iat + expiresIn)) ++ "." ++ hex (checksum secret).

Definition verify (token secret : string) (t : Time) : option ObjectId :=
  match JsString.split "." token with
  | [a; b; c] =>
      match unhex a, unhex b, unhex c with
      | Some id, Some exp, Some mac =>
          if N.eqb mac (checksum secret) && Z.ltb t (Z.of_N exp)
          then Some id else None
      | _, _, _ => None
      end
  | _ => None
  end.

Definition genSalt (rounds draw : nat) : string :=
  hex (N.of_nat rounds) ++ "." ++ hex (N.of_nat draw).

Definition hash (data salt : string) : string := salt ++ "$" ++ data.

Definition compare (data hashed : string) : bool :=
  String.eqb hashed (hash data (hd "" (JsString.split "$" hashed))).

(** Lower case for the letters of ASCII and of Latin-1. *)
Definition lowerAscii (c : ascii) : ascii :=
  let n := nat_of_ascii c in
  if Nat.leb 65 n && Nat.leb n 90 then ascii_of_nat (n + 32) else c.

Definition isUpperLatin1 (a b : ascii) : bool :=
  let y := nat_of_ascii b in
  Nat.eqb (nat_of_ascii a) 195 && Nat.leb 128 y && Nat.leb y 158
  && negb (Nat.eqb y 151).

Fixpoint toLowerCase (s : string) : string :=
  match s with
  | EmptyString => EmptyString
  | String a r =>
      match r with
      | String b r2 =>
          if isUpperLatin1 a b
          then String a (String (ascii_of_nat (nat_of_ascii b + 32)) (toLowerCase r2))
          else String (lowerAscii a) (toLowerCase r)
      | EmptyString => String (lowerAscii a) EmptyString
      end
  end.

Definition wording (e : Exn) : string :=
  match e with
  | ValidationError m paths =>
      m ++ " validation failed: " ++ String.concat ", " paths
  | MongoServerError i k =>
      "E11000 duplicate key error index: " ++ i ++ " dup key: " ++ k
  | CastError v p m =>
      "Cast to ObjectId failed for value " ++ v ++ " at path " ++ p
      ++ " for model " ++ m
  | _ => ""
  end.

Definition trace (e : Exn) : string :=
  "Error: " ++ messageWith wording e ++ " at <anonymous>".

Definition platform : Platform :=
  mkPlatform sign verify genSalt hash compare trace toLowerCase wording.

Definition env0 : Env := mkEnv (Some "s3cret") (Some "production").

(** U+00A0, the no-break space, and U+00C9 and U+00E9, the letter E with
    acute accent in upper and in lower case. *)
Definition nbsp : string :=
  String (ascii_of_nat 194) (String (ascii_of_nat 160) EmptyString).

Definition E_acute : string :=
  String (ascii_of_nat 195) (String (ascii_of_nat 137) EmptyString).

Definition e_acute : string :=
  String (ascii_of_nat 195) (String (ascii_of_nat 169) EmptyString).

Definition alice : User := mkUser 1 "alice" "alice@x.com" (hash "pw123456" (genSalt 10 0)) 100 100.
Definition bob : User := mkUser 2 "bob" "bob@x.com" (hash "hunter22" (genSalt 10 1)) 110 110.

Definition pier : Location := mkLocation "Pier" (34 # 1)%Q (-237 # 2)%Q.

Definition coastal : Trip := mkTrip 3 "Coastal Run" None [pier] 1 120 120.
Definition desert : Trip := mkTrip 4 "Desert Loop" (Some "dry") [pier; pier] 2 130 130.
Definition harbour : Trip := mkTrip 5 "Harbour" None [pier] 1 140 140.

Definition world0 : World :=
  mkWorld [alice; bob] [coastal; desert; harbour] freshResponse env0 1000 6 2.

(** The same with a third account, whose email begins with U+00E9. *)
Definition eric : User :=
  mkUser 6 "eric" (e_acute ++ "ric@x.com") (hash "s3same" (genSalt 10 2)) 150 150.

Definition world1 : World :=
  mkWorld [alice; bob; eric] [coastal; desert; harbour] freshResponse env0 1000 7 3.

Definition request0 : Request := mkRequest None "" emptyBody None.

(** A request past [protect] for the account [u], naming the trip [id]. *)
Definition as_user (u : User) (id : ObjectId) (b : Body) : Request :=
  mkRequest None (toString id) b
            (Some (mkUserView (user_id u) (username u) (email u)
                              (user_createdAt u) (user_updatedAt u))).

Definition credentials (n e p : string) : Body :=
  mkBody (Some n) (Some e) (Some p) None None None.

Definition tripBody (t : string) (ls : list LocationInput) : Body :=
  mkBody None None None (Some t) None (Some ls).

Definition pierInput : LocationInput :=
  mkLocationInput (Some " Pier") (Some (34 # 1)%Q) (Some (-237 # 2)%Q).

End Sample.

(* ================================================================== *)
(** * Properties *)

Unset Implicit Arguments.

(* ------------------------------------------------------------------ *)
(** ** Strings and identifiers *)

Lemma toString_inj (a b : ObjectId) : toString a = toString b -> a = b.
Proof.
  unfold toString. intros E.
  set (da := N.to_hex_uint a) in *. set (db := N.to_hex_uint b) in *.
  assert (H : Some (Nat.iter (24 - Hexadecimal.nb_digits da) Hexadecimal.D0 da)
              = Some (Nat.iter (24 - Hexadecimal.nb_digits db) Hexadecimal.D0 db)).
  { rewrite <- !NilEmpty.usu. now rewrite E. }
  injection H as H.
  apply (f_equal Hexadecimal.unorm) in H. rewrite !HexadecimalFacts.unorm_iter_D0 in H.
  apply HexadecimalN.Unsigned.of_iff in H. subst da db.
  now rewrite !HexadecimalN.Unsigned.of_to in H.
Qed.

Lemma toString_eqb (a b : ObjectId) :
  String.eqb (toString a) (toString b) = N.eqb a b.
Proof.
  destruct (N.eqb_spec a b) as [-> | D].
  - apply String.eqb_refl.
  - apply String.eqb_neq. intros E. apply D, toString_inj, E.
Qed.

Lemma length_string_of_uint (d : Hexadecimal.uint) :
  String.length (NilEmpty.string_of_uint d) = Hexadecimal.nb_digits d.
Proof.
  induction d; simpl; congruence.
Qed.

Lemma of_hex_uint_acc_ge (l : Hexadecimal.uint) :
  forall acc : positive,
  (N.pos acc * 16 ^ N.of_nat (Hexadecimal.nb_digits l)
   <= N.pos (Pos.of_hex_uint_acc l acc))%N.
Proof.
  induction l; intros acc; simpl Pos.of_hex_uint_acc;
    [simpl; lia | ..];
    (eapply N.le_trans; [|apply IHl]);
    change (Hexadecimal.nb_digits (_ l)) with (S (Hexadecimal.nb_digits l));
    rewrite Nat2N.inj_succ, N.pow_succ_r'; nia.
Qed.

(** A number written with [n] digits, the first of them not [0], is at
    least [16 ^ (n - 1)]. *)
Lemma of_hex_uint_ge (d : Hexadecimal.uint) :
  Hexadecimal.unorm d = d -> 2 <= Hexadecimal.nb_digits d ->
  (16 ^ N.of_nat (Hexadecimal.nb_digits d - 1) <= N.of_hex_uint d)%N.
Proof.
  intros Hn Hd.
  assert (Hk : forall l k,
             (16 ^ N.of_nat (Hexadecimal.nb_digits l)
              <= N.pos (Pos.of_hex_uint_acc l k))%N).
  { intros l k. eapply N.le_trans; [|apply of_hex_uint_acc_ge].
    rewrite <- (N.mul_1_l (16 ^ _)) at 1. apply N.mul_le_mono_r. lia. }
  destruct d; simpl in Hd; try lia;
    try (replace (Hexadecimal.nb_digits _ - 1) with (Hexadecimal.nb_digits d)
           by (simpl; lia);
         apply Hk).
  exfalso. rewrite HexadecimalFacts.unorm_D0 in Hn.
  assert (H : d <> Hexadecimal.Nil)
    by (destruct d; simpl in Hd; [lia|discriminate..]).
  pose proof (HexadecimalFacts.nb_digits_unorm d H) as Hle. rewrite Hn in Hle. simpl in Hle. lia.
Qed.

Lemma nb_digits_bound (i : N) :
  (i < 2 ^ 96)%N -> Hexadecimal.nb_digits (N.to_hex_uint i) <= 24.
Proof.
  intros Hi.
  destruct (Nat.le_gt_cases (Hexadecimal.nb_digits (N.to_hex_uint i)) 24) as [H|H];
    [exact H|exfalso].
  pose proof (of_hex_uint_ge (N.to_hex_uint i)) as Hge.
  rewrite <- (HexadecimalN.Unsigned.of_to i) in Hge at 1.
  rewrite HexadecimalN.Unsigned.to_of in Hge.
  rewrite HexadecimalFacts.unorm_involutive in Hge.
  rewrite <- HexadecimalN.Unsigned.to_of in Hge.
  rewrite !HexadecimalN.Unsigned.of_to in Hge.
  specialize (Hge eq_refl ltac:(lia)).
  assert (16 ^ 24 <= 16 ^ N.of_nat (Hexadecimal.nb_digits (N.to_hex_uint i) - 1))%N.
  { apply N.pow_le_mono_r; lia. }
  change (2 ^ 96)%N with (16 ^ 24)%N in Hi. lia.
Qed.

Lemma hexLowerCase_digits (d : Hexadecimal.uint) :
  hexLowerCase (NilEmpty.string_of_uint d) = NilEmpty.string_of_uint d.
Proof.
  induction d; simpl; [reflexivity|..]; now rewrite IHd.
Qed.

(** The string form of an [ObjectId] casts back to it. *)
Lemma castObjectId_toString (i : ObjectId) :
  (i < 2 ^ 96)%N -> castObjectId (toString i) = Some i.
Proof.
  intros Hi. pose proof (nb_digits_bound i Hi) as Hd.
  unfold castObjectId, toString.
  rewrite length_string_of_uint, HexadecimalFacts.nb_digits_iter_D0.
  replace (24 - Hexadecimal.nb_digits (N.to_hex_uint i)
           + Hexadecimal.nb_digits (N.to_hex_uint i)) with 24 by lia.
  simpl Nat.eqb. cbv iota. rewrite hexLowerCase_digits, NilEmpty.usu.
  simpl option_map.
  rewrite <- HexadecimalN.Unsigned.of_uint_norm, HexadecimalFacts.unorm_iter_D0,
    HexadecimalN.Unsigned.of_uint_norm.
  now rewrite HexadecimalN.Unsigned.of_to.
Qed.

(** Only a string of 24 characters is cast to an [ObjectId]. *)
Lemma castObjectId_length (s : string) (i : ObjectId) :
  castObjectId s = Some i -> String.length s = 24.
Proof.
  unfold castObjectId.
  destruct (Nat.eqb_spec (String.length s) 24); [trivial|discriminate].
Qed.

Lemma lacks_app (c : ascii) (a b : string) :
  JsString.lacks c (a ++ b) = JsString.lacks c a && JsString.lacks c b.
Proof.
  induction a as [|d a IH]; simpl; [reflexivity|].
  rewrite IH. now rewrite andb_assoc.
Qed.

Lemma split_lacks (sep : ascii) (a : string) :
  JsString.lacks sep a = true -> JsString.split sep a = [a].
Proof.
  induction a as [|d a IH]; simpl; [reflexivity|].
  intros H. apply andb_true_iff in H as [H1 H2].
  apply negb_true_iff in H1. rewrite H1, (IH H2). reflexivity.
Qed.

Lemma split_app_sep (sep : ascii) (a b : string) :
  JsString.lacks sep a = true ->
  JsString.split sep (a ++ String sep b) = a :: JsString.split sep b.
Proof.
  induction a as [|d a IH]; simpl.
  - intros _. now rewrite Ascii.eqb_refl.
  - intros H. apply andb_true_iff in H as [H1 H2].
    apply negb_true_iff in H1. rewrite H1, (IH H2). reflexivity.
Qed.

Lemma truthy_true (s : string) : JsString.truthy s = true <-> s <> "".
Proof.
  unfold JsString.truthy. rewrite negb_true_iff. apply String.eqb_neq.
Qed.

(* ------------------------------------------------------------------ *)
(** ** The sample platform keeps the two contracts *)

Module SampleFacts.
Import Sample.

(** A hexadecimal rendering holds none of the separators in use. *)
Lemma hex_lacks (c : ascii) (n : N) :
  (c = "." \/ c = " " \/ c = "$")%char -> JsString.lacks c (hex n) = true.
Proof.
  intros Hc. unfold hex. generalize (N.to_hex_uint n) as d.
  induction d; simpl; try rewrite IHd; try reflexivity;
    destruct Hc as [-> | [-> | ->]]; reflexivity.
Qed.

Lemma unhex_hex (n : N) : unhex (hex n) = Some n.
Proof.
  unfold unhex, hex. rewrite NilEmpty.usu. simpl.
  now rewrite HexadecimalN.Unsigned.of_to.
Qed.

Lemma split_token (a b c : N) :
  JsString.split "." (hex a ++ "." ++ hex b ++ "." ++ hex c)%string
  = [hex a; hex b; hex c].
Proof.
  change (hex a ++ "." ++ hex b ++ "." ++ hex c)%string
    with (hex a ++ String "." (hex b ++ String "." (hex c)))%string.
  rewrite split_app_sep by (apply hex_lacks; auto).
  rewrite split_app_sep by (apply hex_lacks; auto).
  rewrite split_lacks by (apply hex_lacks; auto).
  reflexivity.
Qed.

Lemma jwt_ok : jwt_contract platform.
Proof.
  split.
  - intros id secret expiresIn iat t Ht. simpl.
    unfold verify, sign. rewrite split_token, !unhex_hex.
    rewrite N.eqb_refl. simpl.
    assert (L : (t <? Z.of_N (Z.to_N (iat + expiresIn)))%Z = true).
    { apply Z.ltb_lt. destruct (iat + expiresIn)%Z; simpl; lia. }
    now rewrite L.
  - intros id secret expiresIn iat. simpl.
    unfold sign. rewrite !lacks_app. simpl.
    rewrite !hex_lacks by auto. reflexivity.
Qed.

Lemma bcrypt_ok : bcrypt_contract platform.
Proof.
  intros data rounds draw. simpl. unfold compare, hash, genSalt.
  change ((hex (N.of_nat rounds) ++ "." ++ hex (N.of_nat draw)) ++ "$" ++ data)%string
    with ((hex (N.of_nat rounds) ++ "." ++ hex (N.of_nat draw)) ++ String "$" data)%string.
  rewrite split_app_sep.
  - simpl. apply String.eqb_refl.
  - rewrite lacks_app. simpl. rewrite !hex_lacks by auto. reflexivity.
Qed.

End SampleFacts.

(* ------------------------------------------------------------------ *)
(** ** The authorization middleware *)

Section Protect.

Context {P : Platform}.
Variable next : Request -> World -> World.

(** [jwt.verify] reads the state and leaves it alone. *)
Lemma verify_state (token : option string) (w : World) :
  snd (verify token w) = w.
Proof.
  unfold verify, bind, gets, throw, ret. simpl.
  destruct token as [tok|]; [|reflexivity].
  destruct (JsString.truthy_opt (JWT_SECRET (env w))); [|reflexivity].
  now destruct (jwt_verify tok (JsString.value (JWT_SECRET (env w))) (now w)).
Qed.

Lemma verify_ok (tok secret : string) (id : ObjectId) (w : World) :
  JWT_SECRET (env w) = Some secret -> secret <> "" ->
  jwt_verify tok secret (now w) = Some id ->
  verify (Some tok) w = (inr id, w).
Proof.
  intros Hs Hne Hv. unfold verify, bind, gets, ret. simpl.
  rewrite Hs. simpl. apply truthy_true in Hne. rewrite Hne, Hv. reflexivity.
Qed.

Lemma protect_no_bearer (req : Request) (w : World) :
  hasBearer req = false ->
  protect next req w = unauthorized "Not authorized, no token" w.
Proof.
  intros H. unfold protect, asyncHandler. rewrite H. reflexivity.
Qed.

Lemma protect_verify_fails (req : Request) (w : World) (e : Exn) :
  hasBearer req = true ->
  fst (verify (bearerToken req) w) = inl e ->
  protect next req w = unauthorized "Not authorized, token failed" w.
Proof.
  intros H Hv. unfold protect, asyncHandler. rewrite H.
  unfold try_catch, bind at 1.
  pose proof (verify_state (bearerToken req) w) as Hs.
  destruct (verify (bearerToken req) w) as [r w1]. simpl in Hv, Hs. subst.
  reflexivity.
Qed.

Lemma protect_verify_succeeds (req : Request) (w : World) (id : ObjectId) :
  hasBearer req = true ->
  verify (bearerToken req) w = (inr id, w) ->
  protect next req w =
  next (set_user (option_map select_minus_password
                    (find_user (fun u => N.eqb (user_id u) id) (users w))) req) w.
Proof.
  intros H Hv. unfold protect, asyncHandler. rewrite H.
  unfold try_catch, bind at 1. rewrite Hv. reflexivity.
Qed.

Lemma bearer_header (tok : string) (req : Request) :
  JsString.lacks " " tok = true ->
  authorization req = Some ("Bearer " ++ tok)%string ->
  hasBearer req = true /\ bearerToken req = Some tok.
Proof.
  intros Hl Ha. unfold hasBearer, bearerToken. rewrite Ha. split.
  - reflexivity.
  - simpl. rewrite (split_lacks " " tok Hl). reflexivity.
Qed.

End Protect.

(* ------------------------------------------------------------------ *)
(** ** The error middleware *)

Ltac run :=
  unfold asyncHandler, errorHandler, res_status, res_json, bind, gets,
    modify, ret, throw; simpl.

Lemma errorHandler_run `{P : Platform} (err : Exn) (w : World) :
  errorHandler err w =
  (inr tt,
   let code := if Nat.eqb (statusCode (res w)) 200 then 500 else statusCode (res w) in
   set_res (mkResponse code
     (sent (res w) ++
      [(code, JObject [("error", VString (message err));
                       ("stack", stackField (NODE_ENV (env w)) err)])])) w).
Proof. reflexivity. Qed.

(** A handler that throws [err] after setting the status [code] on an
    untouched response is answered by [errorHandler] with that status. *)
Lemma asyncHandler_throws `{P : Platform} (fn : Request -> M unit)
    (req : Request) (w w1 : World) (err : Exn) (code : nat) :
  fn req w = (inl err, w1) ->
  res w1 = mkResponse code [] -> code <> 200 ->
  respondsError (asyncHandler fn req w) code (message err).
Proof.
  intros Hf Hr Hc. unfold asyncHandler. rewrite Hf, errorHandler_run. simpl.
  rewrite Hr. simpl. apply Nat.eqb_neq in Hc. rewrite Hc.
  eexists. reflexivity.
Qed.

(** A handler that throws [err] without having set a status is answered
    with 500. *)
Lemma asyncHandler_throws_500 `{P : Platform} (fn : Request -> M unit)
    (req : Request) (w w1 : World) (err : Exn) :
  fn req w = (inl err, w1) ->
  res w1 = freshResponse ->
  respondsError (asyncHandler fn req w) 500 (message err).
Proof.
  intros Hf Hr. unfold asyncHandler. rewrite Hf, errorHandler_run. simpl.
  rewrite Hr. simpl. eexists. reflexivity.
Qed.

Lemma asyncHandler_db `{P : Platform} (fn : Request -> M unit)
    (req : Request) (w : World) :
  users (asyncHandler fn req w) = users (snd (fn req w))
  /\ trips (asyncHandler fn req w) = trips (snd (fn req w)).
Proof.
  unfold asyncHandler. destruct (fn req w) as [[e|[]] w1]; simpl; auto.
Qed.

(* ------------------------------------------------------------------ *)
(** ** Claims on the authorization middleware *)

(** C5.  A request without a bearer token (no authorization header, or one
    that does not start with [Bearer]) is answered 401 "Not authorized, no
    token"; a request whose bearer token does not verify is answered 401
    "Not authorized, token failed".  In both cases the answer is the only
    write to the response, the collections are untouched, and the outcome
    is the same whatever the downstream handler [next] is: it is not run. *)
Theorem protect_rejects `{P : Platform} (next : Request -> World -> World)
    (req : Request) (w : World) :
  res w = freshResponse ->
  (hasBearer req = false ->
     protect next req w = unauthorized "Not authorized, no token" w)
  /\ (hasBearer req = true ->
      (forall id, verify (bearerToken req) w <> (inr id, w)) ->
      protect next req w = unauthorized "Not authorized, token failed" w)
  /\ (forall msg,
        responds (unauthorized msg w) 401 (JObject [("error", VString msg)])
        /\ users (unauthorized msg w) = users w
        /\ trips (unauthorized msg w) = trips w).
Proof.
  intros Hr. repeat split.
  - apply protect_no_bearer.
  - intros Hb Hv.
    pose proof (verify_state (bearerToken req) w) as Hs.
    destruct (verify (bearerToken req) w) as [[e|id] w1] eqn:E; simpl in Hs; subst w1.
    + apply protect_verify_fails with (e := e); [assumption|now rewrite E].
    + now elim (Hv id).
  - unfold responds, unauthorized. simpl. now rewrite Hr.
Qed.

Lemma protect_rejects_witness :
  let next := asyncHandler (P := Sample.platform) getTrips in
  let basic := mkRequest (Some "Basic abc") "" emptyBody None in
  let forged := mkRequest (Some "Bearer 1.3f2.0") "" emptyBody None in
  protect (P := Sample.platform) next basic Sample.world0
    = unauthorized "Not authorized, no token" Sample.world0
  /\ protect (P := Sample.platform) next forged Sample.world0
    = unauthorized "Not authorized, token failed" Sample.world0.
Proof.
  split.
  - apply (protect_rejects (P := Sample.platform)); reflexivity.
  - apply (protect_rejects (P := Sample.platform)); [reflexivity|reflexivity|].
    intros id. vm_compute. discriminate.
Defined.

(** C9.  A request whose bearer token verifies (correctly signed and not
    expired) to an identifier that no stored account has is not answered
    401: [protect] sets [req.user] to [null] and runs the downstream
    handler on it.  [getTrips] then reads [req.user._id] of [null], and the
    request ends as a 500 carrying the TypeError; so do [createTrip] once
    its body check passes and [deleteTrip] once the trip its path names is
    found. *)
Theorem protect_absent_account `{P : Platform} (next : Request -> World -> World)
    (req : Request) (w : World) (tok secret : string) (id : ObjectId) :
  res w = freshResponse ->
  hasBearer req = true -> bearerToken req = Some tok ->
  JWT_SECRET (env w) = Some secret -> secret <> "" ->
  jwt_verify tok secret (now w) = Some id ->
  find_user (fun u => N.eqb (user_id u) id) (users w) = None ->
  protect next req w = next (set_user None req) w
  /\ respondsError (GET_trips req w) 500 (message (TypeError "_id"))
  /\ (JsString.truthy_opt (body_title (body req)) = true ->
      noLocations (body_locations (body req)) = false ->
      respondsError (POST_trips req w) 500 (message (TypeError "_id")))
  /\ (forall i t,
        castObjectId (params_id req) = Some i ->
        List.find (fun t => N.eqb (trip_id t) i) (trips w) = Some t ->
        respondsError (DELETE_trip req w) 500 (message (TypeError "_id"))).
Proof.
  intros Hr Hb Ht Hs Hne Hv Hf.
  assert (Hp : forall nxt, protect nxt req w = nxt (set_user None req) w).
  { intros nxt. rewrite (protect_verify_succeeds nxt req w id); trivial.
    - now rewrite Hf.
    - rewrite Ht. now apply verify_ok with (secret := secret). }
  split; [apply Hp|]. unfold GET_trips, POST_trips, DELETE_trip.
  rewrite !Hp. repeat split.
  - apply asyncHandler_throws_500 with (w1 := w); [reflexivity|assumption].
  - intros Htitle Hloc.
    apply asyncHandler_throws_500 with (w1 := w); [|assumption].
    unfold createTrip. simpl. rewrite Htitle, Hloc. reflexivity.
  - intros i t Hcast Hfind.
    apply asyncHandler_throws_500 with (w1 := w); [|assumption].
    unfold deleteTrip, Trip_findById. simpl. rewrite Hcast.
    unfold bind, gets, ret. simpl. rewrite Hfind. reflexivity.
Qed.

Lemma protect_absent_account_witness :
  let tok := Sample.sign 9 "s3cret" 10 1000 in
  let req := mkRequest (Some ("Bearer " ++ tok)%string) "" emptyBody None in
  respondsError (GET_trips (P := Sample.platform) req Sample.world0) 500
                (message (P := Sample.platform) (TypeError "_id")).
Proof.
  intros tok req.
  apply (protect_absent_account (P := Sample.platform)
           (asyncHandler (P := Sample.platform) getTrips) req Sample.world0
           tok "s3cret" 9%N);
    try reflexivity.
  discriminate.
Defined.

(** C4.  With the signing secret configured, the token [generateToken]
    issues for an account identifier verifies to that identifier at any
    clock time earlier than 30 days (2592000 seconds) after issuance; sent
    as [Bearer <token>], it makes [protect] look up that very identifier
    and hand its account to the downstream handler. *)
Theorem token_round_trip `{P : Platform} (id : ObjectId) (secret : string)
    (w w' : World) :
  jwt_contract P ->
  JWT_SECRET (env w) = Some secret -> secret <> "" ->
  env w' = env w ->
  (now w' < now w + 2592000)%Z ->
  exists tok,
    generateToken id w = (inr tok, w)
    /\ verify (Some tok) w' = (inr id, w')
    /\ forall next req,
         authorization req = Some ("Bearer " ++ tok)%string ->
         protect next req w' =
         next (set_user (option_map select_minus_password
                           (find_user (fun u => N.eqb (user_id u) id) (users w')))
                        req) w'.
Proof.
  intros [HJ HW] Hs Hne He Ht.
  pose proof (HJ id secret expiresIn_30d (now w) (now w') Ht) as Hv.
  pose proof (HW id secret expiresIn_30d (now w)) as Hl.
  exists (jwt_sign id secret expiresIn_30d (now w)).
  assert (Hver : verify (Some (jwt_sign id secret expiresIn_30d (now w))) w' = (inr id, w')).
  { apply verify_ok with (secret := secret); trivial. now rewrite He. }
  repeat split.
  - unfold generateToken, bind, gets, ret. simpl. rewrite Hs. simpl.
    apply truthy_true in Hne. now rewrite Hne.
  - exact Hver.
  - intros next req Ha.
    destruct (bearer_header _ req Hl Ha) as [Hb Htok].
    apply protect_verify_succeeds; trivial. now rewrite Htok.
Qed.

Lemma token_round_trip_witness :
  exists tok,
    generateToken (P := Sample.platform) 1 Sample.world0 = (inr tok, Sample.world0)
    /\ verify (P := Sample.platform) (Some tok) (nextRequest 2592999 Sample.world0)
       = (inr 1%N, nextRequest 2592999 Sample.world0).
Proof.
  destruct (token_round_trip (P := Sample.platform) 1 "s3cret"
              Sample.world0 (nextRequest 2592999 Sample.world0)
              SampleFacts.jwt_ok eq_refl) as [tok [H1 [H2 _]]].
  - discriminate.
  - reflexivity.
  - reflexivity.
  - exists tok. split; assumption.
Defined.

(* ------------------------------------------------------------------ *)
(** ** Collections *)

Lemma find_unique_id (ts : list Trip) (t : Trip) :
  NoDup (map trip_id ts) -> In t ts ->
  List.find (fun x => N.eqb (trip_id x) (trip_id t)) ts = Some t.
Proof.
  induction ts as [|x ts IH]; simpl; [easy|].
  intros Hnd [->|Hin].
  - now rewrite N.eqb_refl.
  - inversion Hnd as [|? ? Hx Hnd']; subst.
    destruct (N.eqb_spec (trip_id x) (trip_id t)) as [E|_].
    + elim Hx. rewrite E. now apply in_map.
    + now apply IH.
Qed.

Lemma find_absent_id (ts : list Trip) (i : ObjectId) :
  (forall t, In t ts -> trip_id t <> i) ->
  List.find (fun x => N.eqb (trip_id x) i) ts = None.
Proof.
  induction ts as [|x ts IH]; simpl; [easy|].
  intros H. destruct (N.eqb_spec (trip_id x) i) as [E|_].
  - elim (H x); auto.
  - apply IH. auto.
Qed.

Lemma removeFirst_unique_id (ts : list Trip) (i : ObjectId) :
  NoDup (map trip_id ts) ->
  forall x, In x (removeFirst (fun t => N.eqb (trip_id t) i) ts)
            <-> In x ts /\ trip_id x <> i.
Proof.
  induction ts as [|y ts IH]; simpl; intros Hnd x; [tauto|].
  inversion Hnd as [|? ? Hy Hnd']; subst.
  destruct (N.eqb_spec (trip_id y) i) as [E|D].
  - split.
    + intros Hin. split; [now right|].
      intros Ex. apply Hy. rewrite E, <- Ex. now apply in_map.
    + intros [[->|Hin] Hx]; [now elim Hx|assumption].
  - simpl. rewrite (IH Hnd' x). split.
    + intros [->|[Hin Hx]]; auto.
    + intros [[->|Hin] Hx]; auto.
Qed.

(* ------------------------------------------------------------------ *)
(** ** Claims on the trip controller *)

(** C1, as amended.  [deleteTrip] for an authenticated account.  When the
    [:id] of the path is not the 24 hexadecimal digits of an identifier,
    [Trip.findById] throws the cast error of Mongoose and the answer is
    500.  When it is, and no trip has that identifier, the answer is 404
    "Trip not found"; when the trip exists and belongs to another account
    the answer is 403 "Not authorized to delete this trip".  In these three
    cases the collection is exactly what it was.  When the trip belongs to
    the account the answer is 200 with the confirmation message and the
    collection is the old one without that trip. *)
Theorem deleteTrip_outcomes `{P : Platform} (req : Request) (me : UserView)
    (w : World) :
  res w = freshResponse ->
  user req = Some me ->
  uniqueTripIds w ->
  let w' := asyncHandler deleteTrip req w in
  (castObjectId (params_id req) = None ->
     respondsError w' 500 (message (CastError (params_id req) "_id" "Trip"))
     /\ trips w' = trips w)
  /\ (forall i, castObjectId (params_id req) = Some i ->
      ((forall t, In t (trips w) -> trip_id t <> i) ->
         respondsError w' 404 "Trip not found" /\ trips w' = trips w)
      /\ (forall t, In t (trips w) -> trip_id t = i ->
          createdBy t <> view_id me ->
          respondsError w' 403 "Not authorized to delete this trip"
          /\ trips w' = trips w)
      /\ (forall t, In t (trips w) -> trip_id t = i ->
          createdBy t = view_id me ->
          responds w' 200 (JObject [("message", VString "Trip removed successfully")])
          /\ forall x, In x (trips w') <-> In x (trips w) /\ trip_id x <> i))
  /\ users w' = users w.
Proof.
  intros Hr Hu Hnd w'. subst w'.
  assert (Hbad : castObjectId (params_id req) = None ->
    deleteTrip req w = (inl (CastError (params_id req) "_id" "Trip"), w)).
  { intros Hc. unfold deleteTrip, Trip_findById. now rewrite Hc. }
  assert (Hrun : forall i found,
    castObjectId (params_id req) = Some i ->
    List.find (fun t => N.eqb (trip_id t) i) (trips w) = found ->
    deleteTrip req w =
    match found with
    | None => (inl (Error "Trip not found"), set_res (mkResponse 404 []) w)
    | Some t =>
        if N.eqb (createdBy t) (view_id me)
        then (inr tt,
              set_res (mkResponse 200
                 [(200, JObject [("message", VString "Trip removed successfully")])])
                (set_trips (removeFirst (fun t => N.eqb (trip_id t) i)
                                        (trips w)) w))
        else (inl (Error "Not authorized to delete this trip"),
              set_res (mkResponse 403 []) w)
    end).
  { intros i found Hc Hf.
    unfold deleteTrip, Trip_findById, req_user_id, Trip_deleteOne.
    rewrite Hc. run. rewrite Hf, Hu. destruct found as [t|]; simpl.
    - rewrite toString_eqb. destruct (N.eqb (createdBy t) (view_id me)); simpl;
        rewrite Hr; reflexivity.
    - rewrite Hr. reflexivity. }
  split; [|split].
  - intros Hc. specialize (Hbad Hc). split.
    + apply asyncHandler_throws_500 with (w1 := w); [exact Hbad|exact Hr].
    + destruct (asyncHandler_db deleteTrip req w) as [_ Ht].
      rewrite Ht, Hbad. reflexivity.
  - intros i Hc. repeat apply conj.
    + intros Habs. specialize (Hrun i None Hc (find_absent_id _ _ Habs)).
      simpl in Hrun. split.
      * apply asyncHandler_throws
          with (w1 := set_res (mkResponse 404 []) w) (err := Error "Trip not found");
          [exact Hrun|reflexivity|discriminate].
      * destruct (asyncHandler_db deleteTrip req w) as [_ Ht].
        rewrite Ht, Hrun. reflexivity.
    + intros t Hin Hid Hown.
      assert (Hf := find_unique_id _ t Hnd Hin). rewrite Hid in Hf.
      specialize (Hrun i _ Hc Hf). cbv iota beta in Hrun.
      apply N.eqb_neq in Hown. rewrite Hown in Hrun.
      split.
      * apply asyncHandler_throws
          with (w1 := set_res (mkResponse 403 []) w)
               (err := Error "Not authorized to delete this trip");
          [exact Hrun|reflexivity|discriminate].
      * destruct (asyncHandler_db deleteTrip req w) as [_ Ht].
        rewrite Ht, Hrun. reflexivity.
    + intros t Hin Hid Hown.
      assert (Hf := find_unique_id _ t Hnd Hin). rewrite Hid in Hf.
      specialize (Hrun i _ Hc Hf). cbv iota beta in Hrun.
      apply N.eqb_eq in Hown. rewrite Hown in Hrun.
      unfold asyncHandler. rewrite Hrun. split; [reflexivity|].
      intros x. simpl. now apply removeFirst_unique_id.
  - destruct (asyncHandler_db deleteTrip req w) as [Hus _]. rewrite Hus.
    destruct (castObjectId (params_id req)) as [i|] eqn:Hc.
    + specialize (Hrun i _ eq_refl eq_refl).
      destruct (List.find _ (trips w)) as [t|]; [destruct (N.eqb _ _)|];
        rewrite Hrun; reflexivity.
    + now rewrite Hbad.
Qed.

Lemma deleteTrip_outcomes_witness :
  let run := fun u i => asyncHandler (P := Sample.platform) deleteTrip
                          (Sample.as_user u i emptyBody) Sample.world0 in
  respondsError (run Sample.alice 9%N) 404 "Trip not found"
  /\ (respondsError (run Sample.bob 3%N) 403 "Not authorized to delete this trip"
      /\ trips (run Sample.bob 3%N) = trips Sample.world0)
  /\ forall x, In x (trips (run Sample.alice 3%N))
               <-> In x (trips Sample.world0) /\ trip_id x <> 3%N.
Proof.
  assert (Hnd : uniqueTripIds Sample.world0).
  { unfold uniqueTripIds. simpl.
    repeat (constructor; [simpl; intuition discriminate|]). constructor. }
  intros run. split; [|split].
  - apply (deleteTrip_outcomes (P := Sample.platform)
             (Sample.as_user Sample.alice 9%N emptyBody) _ Sample.world0
             eq_refl eq_refl Hnd) with (i := 9%N); [reflexivity|].
    simpl. intros t [<-|[<-|[<-|[]]]]; discriminate.
  - apply (deleteTrip_outcomes (P := Sample.platform)
             (Sample.as_user Sample.bob 3%N emptyBody) _ Sample.world0
             eq_refl eq_refl Hnd)
      with (i := 3%N) (t := Sample.coastal);
      [reflexivity|simpl; auto|reflexivity|discriminate].
  - apply (deleteTrip_outcomes (P := Sample.platform)
             (Sample.as_user Sample.alice 3%N emptyBody) _ Sample.world0
             eq_refl eq_refl Hnd)
      with (i := 3%N) (t := Sample.coastal);
      [reflexivity|simpl; auto|reflexivity|reflexivity].
Defined.

(** C1, as stated, fails: no trip has the identifier [abc], which is not
    one, and the answer is not the 404 but a 500 carrying the cast error;
    so it is for 24 characters that are not all hexadecimal digits. *)
Lemma deleteTrip_outcomes_counterexample :
  let run := fun id =>
    asyncHandler (P := Sample.platform) deleteTrip
      (mkRequest None id emptyBody (Some (select_minus_password Sample.alice)))
      Sample.world0 in
  (forall t, In t (trips Sample.world0) -> toString (trip_id t) <> "abc")
  /\ res (run "abc")
     = mkResponse 500
         [(500, JObject [("error",
                          VString (message (P := Sample.platform)
                                     (CastError "abc" "_id" "Trip")));
                         ("stack", VNull)])]
  /\ statusCode (res (run "00000000000000000000000g")) = 500
  /\ trips (run "abc") = trips Sample.world0.
Proof.
  split; [|repeat split].
  simpl. intros t [<-|[<-|[<-|[]]]]; discriminate.
Qed.

(** C2.  [getTrips] for the authenticated account answers 200 with the
    trips of the collection whose [createdBy] is that account, in
    collection order and nothing else: no trip of another account is in
    the answer.  Each carries the account's [username] in place of the
    reference; with no trip of that account the answer is the empty array,
    still a 200.  The collections are not touched. *)
Theorem getTrips_owner_only `{P : Platform} (req : Request) (me : UserView)
    (w : World) :
  res w = freshResponse ->
  user req = Some me ->
  let w' := asyncHandler getTrips req w in
  exists ts : list PopulatedTrip,
    responds w' 200 (JTrips ts)
    /\ map populated_trip ts
       = filter (fun t => N.eqb (createdBy t) (view_id me)) (trips w)
    /\ (forall t, In t (map populated_trip ts)
                  <-> In t (trips w) /\ createdBy t = view_id me)
    /\ (forall u,
          find_user (fun u => N.eqb (user_id u) (view_id me)) (users w) = Some u ->
          forall pt, In pt ts ->
            populated_createdBy pt = Some (mkOwnerRef (view_id me) (username u)))
    /\ ((forall t, In t (trips w) -> createdBy t <> view_id me) -> ts = [])
    /\ users w' = users w /\ trips w' = trips w.
Proof.
  intros Hr Hu w'. subst w'.
  set (mine := filter (fun t => N.eqb (createdBy t) (view_id me)) (trips w)).
  set (pop := fun t : Trip =>
         mkPopulatedTrip t
           (option_map (fun u => mkOwnerRef (user_id u) (username u))
              (find_user (fun u => N.eqb (user_id u) (createdBy t)) (users w)))).
  assert (Hrun : getTrips req w =
                 (inr tt, set_res (mkResponse 200 [(200, JTrips (map pop mine))]) w)).
  { unfold getTrips, req_user_id, Trip_find, populate. run.
    rewrite Hu, Hr. reflexivity. }
  exists (map pop mine).
  assert (Hmap : map populated_trip (map pop mine) = mine).
  { rewrite map_map. simpl. apply map_id. }
  unfold asyncHandler. rewrite Hrun. simpl. repeat apply conj; trivial.
  - reflexivity.
  - intros t. rewrite Hmap. unfold mine. rewrite filter_In, N.eqb_eq. tauto.
  - intros u Hfind pt Hin. apply in_map_iff in Hin as [t [<- Hin]].
    unfold mine in Hin. apply filter_In in Hin as [_ Hown].
    apply N.eqb_eq in Hown. simpl. rewrite Hown, Hfind. simpl.
    apply find_some in Hfind as [_ Hid]. apply N.eqb_eq in Hid.
    now rewrite Hid.
  - intros Hnone. replace mine with (@nil Trip); [reflexivity|].
    symmetry. unfold mine. clear -Hnone.
    induction (trips w) as [|t ts IH]; simpl; [reflexivity|].
    destruct (N.eqb_spec (createdBy t) (view_id me)) as [E|_].
    + elim (Hnone t); simpl; auto.
    + apply IH. intros x Hx. apply Hnone. now right.
Qed.

Lemma getTrips_owner_only_witness :
  exists ts : list PopulatedTrip,
    responds (asyncHandler (P := Sample.platform) getTrips
                (Sample.as_user Sample.alice 0 emptyBody) Sample.world0)
             200 (JTrips ts)
    /\ map populated_trip ts = [Sample.coastal; Sample.harbour]
    /\ forall pt, In pt ts -> populated_createdBy pt = Some (mkOwnerRef 1 "alice").
Proof.
  destruct (getTrips_owner_only (P := Sample.platform)
              (Sample.as_user Sample.alice 0 emptyBody) _ Sample.world0
              eq_refl eq_refl) as [ts [H1 [H2 [_ [H4 _]]]]].
  exists ts. split; [exact H1|]. split; [exact H2|].
  exact (H4 Sample.alice eq_refl).
Defined.

(** C6, as amended.  [createTrip] with a missing or empty title, or with
    missing or zero stops, answers 400 and leaves both collections as they
    were.  Otherwise, for an authenticated account, a title that is not
    blank once trimmed and stops that each have a non-blank name and both
    coordinates, it appends one trip to the collection, owned by the
    account, with the next identifier and the clock as creation time, and
    answers 201 with that trip. *)
Theorem createTrip_outcomes `{P : Platform} (req : Request) (w : World) :
  res w = freshResponse ->
  let w' := asyncHandler createTrip req w in
  (JsString.truthy_opt (body_title (body req)) = false
   \/ noLocations (body_locations (body req)) = true ->
   respondsError w' 400 "Please include a title and at least one location"
   /\ trips w' = trips w /\ users w' = users w)
  /\ (forall (me : UserView) (title_ : string) (stops : list LocationInput)
             (ls : list Location),
        user req = Some me ->
        body_title (body req) = Some title_ ->
        body_locations (body req) = Some stops ->
        stops <> [] ->
        JsString.trim title_ <> "" ->
        validateLocations (map castLocation stops) = Some ls ->
        let trip := mkTrip (nextObjectId w) (JsString.trim title_)
                           (body_description (body req)) ls (view_id me)
                           (now w) (now w) in
        responds w' 201 (JTrip trip)
        /\ trips w' = trips w ++ [trip] /\ users w' = users w).
Proof.
  intros Hr w'. subst w'. split.
  - intros Hbad.
    assert (Hrun : createTrip req w =
                   (inl (Error "Please include a title and at least one location"),
                    set_res (mkResponse 400 []) w)).
    { unfold createTrip.
      assert (G : negb (JsString.truthy_opt (body_title (body req)))
                  || noLocations (body_locations (body req)) = true).
      { destruct Hbad as [-> | ->]; [reflexivity|apply orb_true_r]. }
      rewrite G. run. now rewrite Hr. }
    destruct (asyncHandler_db createTrip req w) as [Hus Hts].
    rewrite Hus, Hts, Hrun. repeat split.
    apply asyncHandler_throws
      with (w1 := set_res (mkResponse 400 []) w)
           (err := Error "Please include a title and at least one location");
      [exact Hrun|reflexivity|discriminate].
  - intros me title_ stops ls Hu Ht Hl Hne Htrim Hval trip.
    assert (Htruthy : JsString.truthy title_ = true).
    { apply truthy_true. intros ->. now apply Htrim. }
    assert (Hno : Nat.eqb (length stops) 0 = false).
    { destruct stops; [now elim Hne|reflexivity]. }
    assert (Hrun : createTrip req w =
                   (inr tt,
                    set_res (mkResponse 201 [(201, JTrip trip)])
                      (set_trips (trips w ++ [trip])
                         (set_nextObjectId (N.succ (nextObjectId w)) w)))).
    { unfold createTrip, req_user_id, Trip_new, Trip_save, newObjectId.
      rewrite Ht, Hl, Hu. simpl. rewrite Htruthy, Hno. run.
      apply String.eqb_neq in Htrim. rewrite Htrim, Hval. simpl.
      now rewrite Hr. }
    unfold asyncHandler. rewrite Hrun. repeat split.
Qed.

Lemma createTrip_outcomes_witness :
  let w' := asyncHandler (P := Sample.platform) createTrip
              (Sample.as_user Sample.alice 0
                 (Sample.tripBody " Coastal Run " [Sample.pierInput]))
              Sample.world0 in
  let trip := mkTrip 6 "Coastal Run" None [Sample.pier] 1 1000 1000 in
  responds w' 201 (JTrip trip) /\ trips w' = trips Sample.world0 ++ [trip].
Proof.
  intros w' trip.
  destruct (createTrip_outcomes (P := Sample.platform)
              (Sample.as_user Sample.alice 0
                 (Sample.tripBody " Coastal Run " [Sample.pierInput]))
              Sample.world0 eq_refl) as [_ H].
  destruct (H _ " Coastal Run " [Sample.pierInput] [Sample.pier]
              eq_refl eq_refl eq_refl) as [H1 [H2 _]];
    [discriminate|discriminate|reflexivity|].
  split; assumption.
Defined.

(** C6, as stated, fails: a title of blanks (of spaces, or a no-break
    space) is neither empty nor missing and there is one well-formed stop,
    yet nothing is persisted and the answer is the 500 of the schema's
    validation; likewise for a stop without a name. *)
Lemma createTrip_outcomes_counterexample :
  let blank := asyncHandler (P := Sample.platform) createTrip
                 (Sample.as_user Sample.alice 0
                    (Sample.tripBody "   " [Sample.pierInput])) Sample.world0 in
  let nbsp := asyncHandler (P := Sample.platform) createTrip
                 (Sample.as_user Sample.alice 0
                    (Sample.tripBody Sample.nbsp [Sample.pierInput])) Sample.world0 in
  let nameless := asyncHandler (P := Sample.platform) createTrip
                 (Sample.as_user Sample.alice 0
                    (Sample.tripBody "Coastal Run"
                       [mkLocationInput None (Some (34 # 1)%Q) (Some (1 # 1)%Q)]))
                 Sample.world0 in
  JsString.truthy "   " = true
  /\ statusCode (res blank) = 500 /\ trips blank = trips Sample.world0
  /\ JsString.truthy Sample.nbsp = true
  /\ statusCode (res nbsp) = 500 /\ trips nbsp = trips Sample.world0
  /\ statusCode (res nameless) = 500 /\ trips nameless = trips Sample.world0.
Proof. repeat split. Qed.

(* ------------------------------------------------------------------ *)
(** ** The user model *)

Lemma find_user_absent (f : User -> bool) (us : list User) :
  (forall u, In u us -> f u = false) -> find_user f us = None.
Proof.
  unfold find_user. induction us as [|x us IH]; simpl; [easy|].
  intros H. rewrite (H x) by auto. apply IH. auto.
Qed.

Lemma find_user_appended (f : User -> bool) (us : list User) (u : User) :
  (forall v, In v us -> f v = false) -> f u = true ->
  find_user f (us ++ [u]) = Some u.
Proof.
  unfold find_user. induction us as [|x us IH]; simpl; intros H Hu.
  - now rewrite Hu.
  - rewrite (H x) by auto. apply IH; auto.
Qed.

Lemma existsb_absent (f : User -> bool) (us : list User) :
  (forall u, In u us -> f u = false) -> existsb f us = false.
Proof.
  induction us as [|x us IH]; simpl; [easy|].
  intros H. rewrite (H x) by auto. apply IH. auto.
Qed.

Lemma existsb_present (f : User -> bool) (us : list User) (u : User) :
  In u us -> f u = true -> existsb f us = true.
Proof.
  intros Hin Hf. apply existsb_exists. now exists u.
Qed.

Lemma cast_nonempty `{P : Platform} (n e : string) :
  (castUsername n <> "" -> n <> "") /\ (castEmail e <> "" -> e <> "").
Proof.
  split; intros H ->; apply H; reflexivity.
Qed.

(** The hook on a document whose password is not modified. *)
Lemma pre_save_unmodified `{P : Platform} (d : UserDocument) (w : World) :
  isModified d "password" = false -> pre_save d w = (inr d, w).
Proof.
  intros H. unfold pre_save. now rewrite H.
Qed.

(** The hook on a document whose password is modified. *)
Lemma pre_save_modified `{P : Platform} (d : UserDocument) (w : World) :
  isModified d "password" = true ->
  pre_save d w =
  (inr (mkUserDocument
          (set_password
             (bcrypt_hash (password (fields d)) (bcrypt_genSalt 10 (entropy w)))
             (fields d))
          (isNew d) (modifiedPaths d)),
   set_entropy (S (entropy w)) w).
Proof.
  intros H. unfold pre_save. now rewrite H.
Qed.

Lemma replaceUser_password (d : UserDocument) (t : Time) (us : list User) :
  isModified d "password" = false ->
  map password (replaceUser d t us) = map password us.
Proof.
  intros H. unfold replaceUser. rewrite map_map. apply map_ext.
  intros v. destruct (N.eqb (user_id v) (user_id (fields d))); [|reflexivity].
  simpl. now rewrite H.
Qed.

Lemma User_create_ok `{P : Platform} (n e p : string) (w : World) :
  castUsername n <> "" -> castEmail e <> "" -> p <> "" ->
  (forall u, In u (users w) -> username u <> castUsername n) ->
  (forall u, In u (users w) -> email u <> castEmail e) ->
  User_create n e p w = (inr (createdUser n e p w), afterCreate n e p w).
Proof.
  intros Hn He Hp Hun Hue.
  unfold User_create, User_new, User_save, validateUser, emptyPaths, pre_save, genSalt,
    checkUnique, newObjectId.
  run.
  apply String.eqb_neq in Hn, He, Hp. rewrite Hn, He, Hp. simpl.
  rewrite !existsb_absent; [reflexivity| |].
  - intros u Hu. apply String.eqb_neq. now apply Hue.
  - intros u Hu. apply String.eqb_neq. now apply Hun.
Qed.

(** What [User.create] does when the user name is taken or a field is
    blank once trimmed: it throws, and only the identifier and salt
    counters have moved. *)
Lemma User_create_rejected `{P : Platform} (n e p : string) (w : World) (v : User) :
  p <> "" -> In v (users w) -> username v = castUsername n ->
  exists (err : Exn) (w1 : World),
    User_create n e p w = (inl err, w1)
    /\ users w1 = users w /\ trips w1 = trips w /\ res w1 = res w
    /\ ((exists paths, paths <> [] /\ err = ValidationError "User" paths)
        \/ err = MongoServerError "username_1" (castUsername n))
    /\ (castUsername n <> "" -> castEmail e <> "" ->
        err = MongoServerError "username_1" (castUsername n)).
Proof.
  intros Hp Hin Hv.
  unfold User_create, User_new, User_save, validateUser, emptyPaths, pre_save,
    genSalt, checkUnique, newObjectId.
  run.
  apply String.eqb_neq in Hp. rewrite Hp.
  destruct (String.eqb_spec (castUsername n) "") as [En|En];
    destruct (String.eqb_spec (castEmail e) "") as [Ee|Ee]; simpl.
  - do 2 eexists. repeat split; auto.
    + left. eexists. split; [|reflexivity]. discriminate.
    + intros H. now elim H.
  - do 2 eexists. repeat split; auto.
    + left. eexists. split; [|reflexivity]. discriminate.
    + intros H. now elim H.
  - do 2 eexists. repeat split; auto.
    + left. eexists. split; [|reflexivity]. discriminate.
    + intros _ H. now elim H.
  - rewrite (existsb_present _ _ v Hin); [|rewrite Hv; apply String.eqb_refl].
    simpl. do 2 eexists. repeat split; auto.
Qed.

(* ------------------------------------------------------------------ *)
(** ** Claims on registration and login *)

(** Past its two checks, [signupUser] is [User.create] and the 201. *)
Lemma signupUser_checks_pass `{P : Platform} (req : Request) (w : World)
    (n e p : string) :
  body_username (body req) = Some n -> body_email (body req) = Some e ->
  body_password (body req) = Some p ->
  n <> "" -> e <> "" -> p <> "" ->
  (forall u, In u (users w) -> email u <> castEmail e) ->
  signupUser req w =
  (user <- User_create n e p ;;
   res_status 201 ;;
   token <- generateToken (user_id user) ;;
   res_json (accountJson (user_id user) (username user) (email user) token)) w.
Proof.
  intros Hbn Hbe Hbp Hn He Hp Hue.
  unfold signupUser. rewrite Hbn, Hbe, Hbp. simpl.
  rewrite (proj2 (truthy_true n) Hn), (proj2 (truthy_true e) He),
    (proj2 (truthy_true p) Hp). simpl.
  unfold bind at 1. unfold User_findOne, bind at 1, gets at 1, ret at 1.
  rewrite find_user_absent
    by (intros u Hu; apply String.eqb_neq; now apply Hue).
  reflexivity.
Qed.

Lemma signupUser_ok `{P : Platform} (req : Request) (w : World)
    (n e p secret : string) :
  res w = freshResponse ->
  JWT_SECRET (env w) = Some secret -> secret <> "" ->
  body_username (body req) = Some n -> body_email (body req) = Some e ->
  body_password (body req) = Some p ->
  castUsername n <> "" -> castEmail e <> "" -> p <> "" ->
  (forall u, In u (users w) -> username u <> castUsername n) ->
  (forall u, In u (users w) -> email u <> castEmail e) ->
  signupUser req w =
  (inr tt,
   set_res (mkResponse 201
     [(201, accountJson (nextObjectId w) (castUsername n) (castEmail e)
              (jwt_sign (nextObjectId w) secret expiresIn_30d (now w)))])
     (afterCreate n e p w)).
Proof.
  intros Hr Hs Hsne Hbn Hbe Hbp Hn He Hp Hun Hue.
  destruct (cast_nonempty n e) as [Hn' He'].
  rewrite (signupUser_checks_pass req w n e p) by auto.
  unfold bind at 1. rewrite User_create_ok by assumption.
  unfold generateToken. run. rewrite Hs, Hr. simpl.
  apply truthy_true in Hsne. rewrite Hsne. reflexivity.
Qed.

(** C3, as amended.  With the signing secret configured, a registration
    whose three fields are present, whose username and email are not blank
    once trimmed, and whose (trimmed, lower-cased) email and (trimmed)
    username no stored account has, is answered 201; a login that follows
    with the same email and password is answered 200; both answers carry
    the same account identifier. *)
Theorem register_then_login `{P : Platform} (signup login : Request) (w : World)
    (n e p secret : string) (t : Time) :
  bcrypt_contract P ->
  res w = freshResponse ->
  JWT_SECRET (env w) = Some secret -> secret <> "" ->
  body_username (body signup) = Some n ->
  body_email (body signup) = Some e ->
  body_password (body signup) = Some p ->
  body_email (body login) = Some e ->
  body_password (body login) = Some p ->
  p <> "" -> castUsername n <> "" -> castEmail e <> "" ->
  (forall u, In u (users w) -> email u <> castEmail e) ->
  (forall u, In u (users w) -> username u <> castUsername n) ->
  let w1 := POST_signup signup w in
  let w2 := POST_login login (nextRequest t w1) in
  exists (id : ObjectId) (token1 token2 : string),
    responds w1 201 (accountJson id (castUsername n) (castEmail e) token1)
    /\ responds w2 200 (accountJson id (castUsername n) (castEmail e) token2).
Proof.
  intros HB Hr Hs Hsne Hbn Hbe Hbp Hle Hlp Hp Hn He Hue Hun w1 w2.
  exists (nextObjectId w),
    (jwt_sign (nextObjectId w) secret expiresIn_30d (now w)),
    (jwt_sign (nextObjectId w) secret expiresIn_30d t).
  assert (H1 : w1 = set_res (mkResponse 201
     [(201, accountJson (nextObjectId w) (castUsername n) (castEmail e)
              (jwt_sign (nextObjectId w) secret expiresIn_30d (now w)))])
     (afterCreate n e p w)).
  { unfold w1, POST_signup, asyncHandler.
    now rewrite (signupUser_ok signup w n e p secret). }
  split; [now rewrite H1|].
  unfold w2, POST_login, asyncHandler. rewrite H1.
  unfold loginUser. rewrite Hle, Hlp.
  unfold User_findOne, bind at 1, bind at 1, gets at 1, ret at 1. simpl users.
  rewrite find_user_appended with (u := createdUser n e p w).
  - unfold matchPassword, generateToken, nextRequest, afterCreate.
    run. rewrite HB. cbn. rewrite Hs. cbn.
    apply truthy_true in Hsne. rewrite Hsne. reflexivity.
  - intros v Hv. apply String.eqb_neq. now apply Hue.
  - apply String.eqb_refl.
Qed.

Lemma register_then_login_witness :
  let req := mkRequest None "" (Sample.credentials " carol " "Carol@X.com" "pw9") None in
  let w1 := POST_signup (P := Sample.platform) req Sample.world0 in
  let w2 := POST_login (P := Sample.platform) req (nextRequest 2000 w1) in
  exists (id : ObjectId) (token1 token2 : string),
    responds w1 201 (accountJson id "carol" "carol@x.com" token1)
    /\ responds w2 200 (accountJson id "carol" "carol@x.com" token2).
Proof.
  intros req.
  apply (register_then_login (P := Sample.platform) req req Sample.world0
           " carol " "Carol@X.com" "pw9" "s3cret" 2000 SampleFacts.bcrypt_ok);
    try reflexivity; try discriminate.
  - simpl. intros u [<-|[<-|[]]]; discriminate.
  - simpl. intros u [<-|[<-|[]]]; discriminate.
Defined.

(** C3, as stated, fails: all three fields are present and the email is
    not registered, but the username is taken (first request), taken once
    its no-break space is trimmed off (second request) or blank (third
    request); registration is answered 500, no account is stored, and the
    login that follows is answered 401. *)
Lemma register_then_login_counterexample :
  let taken := mkRequest None "" (Sample.credentials "bob" "bob2@x.com" "pw9") None in
  let padded := mkRequest None ""
                  (Sample.credentials (Sample.nbsp ++ "bob") "bob2@x.com" "pw9") None in
  let blank := mkRequest None "" (Sample.credentials "  " "dan@x.com" "pw9") None in
  let outcome := fun req =>
    let w1 := POST_signup (P := Sample.platform) req Sample.world0 in
    (statusCode (res w1), users w1,
     statusCode (res (POST_login (P := Sample.platform) req (nextRequest 2000 w1)))) in
  fst (User_findOne (P := Sample.platform) (body_email (body taken)) Sample.world0)
  = inr None
  /\ outcome taken = (500, users Sample.world0, 401)
  /\ outcome padded = (500, users Sample.world0, 401)
  /\ fst (User_findOne (P := Sample.platform) (body_email (body blank)) Sample.world0)
     = inr None
  /\ outcome blank = (500, users Sample.world0, 401).
Proof. repeat split. Qed.

(** C10.  A registration with all three fields present, whose email
    (lower-cased and trimmed) no stored account has but whose (trimmed)
    username is that of a stored account, passes the "User already exists"
    check of [signupUser], which looks at the email alone.  It is
    [User.create] that throws; the answer is a 500, not the 400 "User
    already exists", it carries the message of the error thrown, and no
    account is stored.  The error is the validation error of the schema
    when the name or the email is blank once cast, and otherwise the
    duplicate-key error of the unique index on [username], for that
    username. *)
Theorem signup_duplicate_username `{P : Platform} (req : Request) (w : World)
    (n e p : string) (v : User) :
  res w = freshResponse ->
  body_username (body req) = Some n ->
  body_email (body req) = Some e ->
  body_password (body req) = Some p ->
  n <> "" -> e <> "" -> p <> "" ->
  (forall u, In u (users w) -> email u <> castEmail e) ->
  In v (users w) -> username v = castUsername n ->
  let w' := POST_signup req w in
  fst (User_findOne (body_email (body req)) w) = inr None
  /\ (exists err,
        respondsError w' 500 (message err)
        /\ ((exists paths, paths <> [] /\ err = ValidationError "User" paths)
            \/ err = MongoServerError "username_1" (castUsername n)))
  /\ ~ respondsError w' 400 "User already exists"
  /\ users w' = users w
  /\ (castUsername n <> "" -> castEmail e <> "" ->
      respondsError w' 500
        (message (MongoServerError "username_1" (castUsername n)))).
Proof.
  intros Hr Hbn Hbe Hbp Hn He Hp Hue Hin Hv w'.
  assert (Hfind : User_findOne (Some e) w = (inr None, w)).
  { unfold User_findOne, bind, gets, ret.
    rewrite find_user_absent; [reflexivity|].
    intros u Hu. apply String.eqb_neq. now apply Hue. }
  destruct (User_create_rejected n e p w v Hp Hin Hv)
    as [err [w1 [Hc [Hus [_ [Hres [Hkind Hdup]]]]]]].
  assert (Hrun : signupUser req w = (inl err, w1)).
  { rewrite (signupUser_checks_pass req w n e p) by auto.
    unfold bind at 1. now rewrite Hc. }
  assert (Hans : respondsError w' 500 (message err)).
  { apply asyncHandler_throws_500 with (w1 := w1); [exact Hrun|].
    now rewrite Hres. }
  repeat apply conj.
  - now rewrite Hbe, Hfind.
  - exists err. split; [exact Hans|exact Hkind].
  - intros [trace H400]. destruct Hans as [trace' H500].
    unfold responds in H400, H500. rewrite H500 in H400. discriminate.
  - destruct (asyncHandler_db signupUser req w) as [H _].
    unfold w', POST_signup. now rewrite H, Hrun.
  - intros Hcn Hce. now rewrite <- (Hdup Hcn Hce).
Qed.

Lemma signup_duplicate_username_witness :
  let req := mkRequest None "" (Sample.credentials " bob" "bob2@x.com" "pw9") None in
  let w' := POST_signup (P := Sample.platform) req Sample.world0 in
  respondsError w' 500
    (message (P := Sample.platform) (MongoServerError "username_1" "bob"))
  /\ users w' = users Sample.world0.
Proof.
  intros req.
  destruct (signup_duplicate_username (P := Sample.platform) req Sample.world0
              " bob" "bob2@x.com" "pw9" Sample.bob eq_refl eq_refl eq_refl eq_refl)
    as [_ [_ [_ [H3 H4]]]]; try discriminate.
  - simpl. intros u [<-|[<-|[]]]; discriminate.
  - simpl. auto.
  - reflexivity.
  - split; [apply H4; discriminate|exact H3].
Defined.

(* ------------------------------------------------------------------ *)
(** ** Claims on the password verifier *)

(** C8.  The [pre('save')] hook hashes with [bcrypt] at cost 10 under a
    salt drawn for the occasion, and only when the password path is
    modified: on a document whose password is not modified it returns the
    document as it is, draws no salt and changes nothing; on one whose
    password is modified it replaces the password by
    [bcrypt.hash(password, salt)] with [salt] the next draw of
    [bcrypt.genSalt(10)], and that draw is consumed.  Saving a stored
    account whose password is not modified leaves every stored verifier as
    it was, whether the save goes through or is rejected.  An account that
    [User.create] stores has the hash of its password under the draw made
    during that call, so no two accounts share a draw. *)
Theorem password_hashed_only_when_modified `{P : Platform} :
  (forall (d : UserDocument) (w : World),
      isModified d "password" = false -> pre_save d w = (inr d, w))
  /\ (forall (d : UserDocument) (w : World),
        isModified d "password" = true ->
        pre_save d w =
        (inr (mkUserDocument
                (set_password
                   (bcrypt_hash (password (fields d))
                                (bcrypt_genSalt 10 (entropy w)))
                   (fields d))
                (isNew d) (modifiedPaths d)),
         set_entropy (S (entropy w)) w))
  /\ (forall (d : UserDocument) (w : World),
        isNew d = false -> isModified d "password" = false ->
        map password (users (snd (User_save d w))) = map password (users w)
        /\ entropy (snd (User_save d w)) = entropy w)
  /\ (forall (n e p : string) (w w' : World) (u : User),
        User_create n e p w = (inr u, w') ->
        password u = bcrypt_hash p (bcrypt_genSalt 10 (entropy w))
        /\ entropy w' = S (entropy w)
        /\ users w' = users w ++ [u]).
Proof.
  split; [exact pre_save_unmodified|].
  split; [exact pre_save_modified|].
  split.
  - intros d w Hnew Hmod.
    unfold User_save, validateUser, emptyPaths, checkUnique. run.
    destruct (String.eqb (username (fields d)) "");
      destruct (String.eqb (email (fields d)) "");
      destruct (String.eqb (password (fields d)) "");
      simpl; try (now split).
    rewrite (pre_save_unmodified d w Hmod), Hnew.
    destruct (modifiedPaths d) as [|x l] eqn:E; [now split|].
    destruct (existsb _ _); [now split|].
    destruct (existsb _ _); [now split|].
    simpl. split; [|reflexivity].
    apply replaceUser_password. exact Hmod.
  - intros n e p w w' u.
    unfold User_create, User_new, User_save, validateUser, emptyPaths, pre_save, genSalt,
      checkUnique, newObjectId.
    run.
    destruct (String.eqb (castUsername n) "");
      destruct (String.eqb (castEmail e) "");
      destruct (String.eqb p ""); simpl; try discriminate.
    destruct (existsb _ _); [discriminate|].
    destruct (existsb _ _); [discriminate|].
    intros H. injection H as <- <-. repeat split.
Qed.

Lemma password_hashed_only_when_modified_witness :
  let renamed := set_path_username "alicia" (hydrate Sample.alice) in
  let changed := set_path_password "n3wpass" (hydrate Sample.alice) in
  let w1 := snd (User_save (P := Sample.platform) renamed Sample.world0) in
  let w2 := snd (User_save (P := Sample.platform) changed Sample.world0) in
  (map username (users w1) = ["alicia"; "bob"]
   /\ map password (users w1) = map password (users Sample.world0)
   /\ entropy w1 = entropy Sample.world0)
  /\ (map password (users w2)
      = [Sample.hash "n3wpass" (Sample.genSalt 10 2); password Sample.bob]
      /\ entropy w2 = S (entropy Sample.world0)).
Proof.
  intros renamed changed w1 w2. split; [|split; reflexivity].
  split; [reflexivity|].
  destruct (password_hashed_only_when_modified (P := Sample.platform))
    as [_ [_ [H _]]].
  apply (H renamed Sample.world0); reflexivity.
Defined.

(* ------------------------------------------------------------------ *)
(** ** Every write to the response *)



(** Case analysis on the innermost test of the goal, until none is left. *)
Ltac innermost x :=
  lazymatch x with
  | context [match _ with _ => _ end] => fail
  | _ => destruct x
  end.

Ltac branches :=
  repeat (simpl;
          match goal with
          | |- context [if ?b then _ else _] => innermost b
          | |- context [match ?x with _ => _ end] => innermost x
          end);
  simpl.











(* ------------------------------------------------------------------ *)
(** ** Claim on error responses *)




(* ================================================================== *)
(** * Beyond the claims: the other paths of the controllers, what the
      routes keep invariant, and how they compose *)

(** The parts of the state that outlive a request. *)
Definition sameStore (w w' : World) : Prop :=
  users w' = users w /\ trips w' = trips w
  /\ nextObjectId w' = nextObjectId w /\ entropy w' = entropy w.

(** The answer [errorHandler] gives to [err] thrown at status [code]. *)
Definition errorAnswer `{P : Platform} (w : World) (code : nat) (err : Exn) : Response :=
  mkResponse code
    [(code, JObject [("error", VString (message err));
                     ("stack", stackField (NODE_ENV (env w)) err)])].

(* ------------------------------------------------------------------ *)
(** ** The three ways through [protect] *)

Lemma protect_cases `{P : Platform} (next : Request -> World -> World)
    (req : Request) (w : World) :
  (hasBearer req = false
   /\ protect next req w = unauthorized "Not authorized, no token" w)
  \/ (hasBearer req = true
      /\ (exists e, fst (verify (bearerToken req) w) = inl e)
      /\ protect next req w = unauthorized "Not authorized, token failed" w)
  \/ (exists id,
        hasBearer req = true
        /\ verify (bearerToken req) w = (inr id, w)
        /\ protect next req w =
           next (set_user (option_map select_minus_password
                             (find_user (fun u => N.eqb (user_id u) id) (users w)))
                          req) w).
Proof.
  destruct (hasBearer req) eqn:Hb.
  - right. pose proof (verify_state (bearerToken req) w) as Hs.
    destruct (verify (bearerToken req) w) as [[e|id] w1] eqn:E;
      simpl in Hs; subst w1.
    + left. split; [reflexivity|]. split; [now exists e|].
      apply protect_verify_fails with (e := e); [assumption|now rewrite E].
    + right. exists id. split; [reflexivity|]. split; [reflexivity|].
      now apply protect_verify_succeeds.
  - left. split; [reflexivity|]. now apply protect_no_bearer.
Qed.

Lemma unauthorized_sameStore (msg : string) (w : World) :
  sameStore w (unauthorized msg w).
Proof. repeat split. Qed.

(* ------------------------------------------------------------------ *)
(** ** Registration: the two 400s *)

(** X1.  A registration in which the username, the email or the password
    is missing or empty is answered 400 "Please fill in all fields";
    nothing is stored and neither an identifier nor a salt is drawn. *)
Theorem signup_missing_field `{P : Platform} (req : Request) (w : World) :
  res w = freshResponse ->
  JsString.truthy_opt (body_username (body req)) = false
  \/ JsString.truthy_opt (body_email (body req)) = false
  \/ JsString.truthy_opt (body_password (body req)) = false ->
  let w' := POST_signup req w in
  res w' = errorAnswer w 400 (Error "Please fill in all fields")
  /\ sameStore w w'.
Proof.
  intros Hr Hmiss w'. subst w'.
  assert (Hrun : signupUser req w =
                 (inl (Error "Please fill in all fields"),
                  set_res (mkResponse 400 []) w)).
  { unfold signupUser.
    assert (G : negb (JsString.truthy_opt (body_username (body req)))
                || negb (JsString.truthy_opt (body_email (body req)))
                || negb (JsString.truthy_opt (body_password (body req))) = true).
    { destruct Hmiss as [-> | [-> | ->]]; simpl;
        rewrite ?orb_true_r; reflexivity. }
    rewrite G. run. now rewrite Hr. }
  unfold POST_signup, asyncHandler. rewrite Hrun. split; [reflexivity|].
  repeat split.
Qed.

Lemma signup_missing_field_witness :
  let req := mkRequest None "" (mkBody (Some "dan") (Some "dan@x.com") None
                                      None None None) None in
  let w' := POST_signup (P := Sample.platform) req Sample.world0 in
  res w' = errorAnswer (P := Sample.platform) Sample.world0 400
             (Error "Please fill in all fields")
  /\ sameStore Sample.world0 w'.
Proof.
  intros req.
  apply (signup_missing_field (P := Sample.platform) req Sample.world0 eq_refl).
  right. right. reflexivity.
Defined.

Lemma signupUser_email_taken `{P : Platform} (req : Request) (w : World)
    (n e p : string) (v : User) :
  res w = freshResponse ->
  body_username (body req) = Some n ->
  body_email (body req) = Some e ->
  body_password (body req) = Some p ->
  n <> "" -> e <> "" -> p <> "" ->
  In v (users w) -> email v = castEmail e ->
  signupUser req w =
  (inl (Error "User already exists"), set_res (mkResponse 400 []) w).
Proof.
  intros Hr Hbn Hbe Hbp Hn He Hp Hin Hv.
  assert (Hfound : exists u,
             find_user (fun u => String.eqb (email u) (castEmail e)) (users w)
             = Some u).
  { destruct (find_user (fun u => String.eqb (email u) (castEmail e)) (users w))
      as [u|] eqn:E; [now exists u|].
    pose proof (find_none _ _ E v Hin) as Hno. simpl in Hno.
    rewrite Hv, String.eqb_refl in Hno. discriminate. }
  destruct Hfound as [u Hu].
  unfold signupUser. rewrite Hbn, Hbe, Hbp. simpl.
  rewrite (proj2 (truthy_true n) Hn), (proj2 (truthy_true e) He),
    (proj2 (truthy_true p) Hp). simpl.
  unfold bind at 1. unfold User_findOne, bind at 1, gets at 1, ret at 1.
  unfold find_user in Hu. unfold find_user. rewrite Hu. run. now rewrite Hr.
Qed.

(** X2.  A registration whose three fields are present and whose email,
    trimmed and lower-cased, is that of a stored account is answered 400
    "User already exists", whatever the username and the password; nothing
    is stored and neither an identifier nor a salt is drawn. *)
Theorem signup_duplicate_email `{P : Platform} (req : Request) (w : World)
    (n e p : string) (v : User) :
  res w = freshResponse ->
  body_username (body req) = Some n ->
  body_email (body req) = Some e ->
  body_password (body req) = Some p ->
  n <> "" -> e <> "" -> p <> "" ->
  In v (users w) -> email v = castEmail e ->
  let w' := POST_signup req w in
  res w' = errorAnswer w 400 (Error "User already exists")
  /\ sameStore w w'.
Proof.
  intros Hr Hbn Hbe Hbp Hn He Hp Hin Hv w'. subst w'.
  unfold POST_signup, asyncHandler.
  rewrite (signupUser_email_taken req w n e p v) by assumption.
  split; [reflexivity|]. repeat split.
Qed.

Lemma signup_duplicate_email_witness :
  let req := mkRequest None "" (Sample.credentials "robert" " BOB@x.com " "pw9") None in
  let w' := POST_signup (P := Sample.platform) req Sample.world0 in
  let upper := mkRequest None ""
                 (Sample.credentials "rick" (Sample.E_acute ++ "RIC@x.com") "pw9")
                 None in
  let w1' := POST_signup (P := Sample.platform) upper Sample.world1 in
  (res w' = errorAnswer (P := Sample.platform) Sample.world0 400
              (Error "User already exists")
   /\ sameStore Sample.world0 w')
  /\ (res w1' = errorAnswer (P := Sample.platform) Sample.world1 400
                  (Error "User already exists")
      /\ sameStore Sample.world1 w1').
Proof.
  intros req w' upper w1'. split.
  - apply (signup_duplicate_email (P := Sample.platform) req Sample.world0
             "robert" " BOB@x.com " "pw9" Sample.bob eq_refl eq_refl eq_refl eq_refl);
      try discriminate; try reflexivity.
    simpl. auto.
  - apply (signup_duplicate_email (P := Sample.platform) upper Sample.world1
             "rick" (Sample.E_acute ++ "RIC@x.com")%string "pw9" Sample.eric
             eq_refl eq_refl eq_refl eq_refl);
      try discriminate; try reflexivity.
    simpl. auto.
Defined.

(* ------------------------------------------------------------------ *)
(** ** Login *)

(** X3.  A login whose email (trimmed, lower-cased) no stored account has,
    or is missing, and a login whose password does not match the stored
    hash of the account found, get the same answer: 401 "Invalid email or
    password".  Nothing in the store changes. *)
Theorem login_rejected `{P : Platform} (req : Request) (w : World) :
  res w = freshResponse ->
  fst (User_findOne (body_email (body req)) w) = inr None
  \/ (exists u p,
        fst (User_findOne (body_email (body req)) w) = inr (Some u)
        /\ body_password (body req) = Some p
        /\ bcrypt_compare p (password u) = false) ->
  let w' := POST_login req w in
  res w' = errorAnswer w 401 (Error "Invalid email or password")
  /\ sameStore w w'.
Proof.
  intros Hr Hcase w'. subst w'.
  assert (Hstate : forall o, snd (User_findOne o w) = w).
  { intros [e|]; reflexivity. }
  assert (Hrun : loginUser req w =
                 (inl (Error "Invalid email or password"),
                  set_res (mkResponse 401 []) w)).
  { unfold loginUser. unfold bind at 1.
    specialize (Hstate (body_email (body req))).
    destruct (User_findOne (body_email (body req)) w) as [r w1].
    simpl in Hstate. subst w1.
    destruct Hcase as [Hnone | [u [p [Hsome [Hp Hcmp]]]]]; simpl in *; subst r.
    - run. now rewrite Hr.
    - rewrite Hp. unfold matchPassword. run. rewrite Hcmp. simpl.
      now rewrite Hr. }
  unfold POST_login, asyncHandler. rewrite Hrun. split; [reflexivity|].
  repeat split.
Qed.

Lemma login_rejected_witness :
  let unknown := mkRequest None "" (Sample.credentials "" "eve@x.com" "pw") None in
  let wrong := mkRequest None "" (Sample.credentials "" "alice@x.com" "pw123457") None in
  res (POST_login (P := Sample.platform) unknown Sample.world0)
  = res (POST_login (P := Sample.platform) wrong Sample.world0)
  /\ sameStore Sample.world0 (POST_login (P := Sample.platform) wrong Sample.world0).
Proof.
  intros unknown wrong.
  destruct (login_rejected (P := Sample.platform) unknown Sample.world0 eq_refl)
    as [H1 _]; [left; reflexivity|].
  destruct (login_rejected (P := Sample.platform) wrong Sample.world0 eq_refl)
    as [H2 H3].
  { right. exists Sample.alice, "pw123457". repeat split. }
  split; [now rewrite H1, H2 | exact H3].
Defined.

(** X4.  A login with the email of a stored account and a password that
    matches its hash is answered 200 with that account's identifier,
    username and email and a token signed for that identifier; under the
    contract of the token library the token verifies back to the
    identifier for 30 days.  Nothing in the store changes. *)
Theorem login_accepted `{P : Platform} (req : Request) (w : World)
    (u : User) (p secret : string) :
  res w = freshResponse ->
  JWT_SECRET (env w) = Some secret -> secret <> "" ->
  fst (User_findOne (body_email (body req)) w) = inr (Some u) ->
  body_password (body req) = Some p ->
  bcrypt_compare p (password u) = true ->
  let w' := POST_login req w in
  let token := jwt_sign (user_id u) secret expiresIn_30d (now w) in
  responds w' 200 (accountJson (user_id u) (username u) (email u) token)
  /\ sameStore w w'
  /\ (jwt_contract P ->
      forall t, (t < now w + 2592000)%Z ->
        jwt_verify token secret t = Some (user_id u)).
Proof.
  intros Hr Hs Hne Hfind Hp Hcmp w' token. subst w'.
  assert (Hstate : forall o, snd (User_findOne o w) = w).
  { intros [e|]; reflexivity. }
  assert (Hrun : loginUser req w =
                 (inr tt,
                  set_res (mkResponse 200
                     [(200, accountJson (user_id u) (username u) (email u) token)])
                    w)).
  { unfold loginUser. unfold bind at 1.
    specialize (Hstate (body_email (body req))).
    destruct (User_findOne (body_email (body req)) w) as [r w1].
    simpl in Hstate, Hfind. subst w1 r.
    rewrite Hp. unfold matchPassword, generateToken. run. rewrite Hcmp. simpl.
    rewrite Hs. simpl. apply truthy_true in Hne. rewrite Hne, Hr. reflexivity. }
  unfold POST_login, asyncHandler. rewrite Hrun.
  split; [reflexivity|]. split; [repeat split|].
  intros [HJ _] t Ht. apply HJ. exact Ht.
Qed.

Lemma login_accepted_witness :
  let req := mkRequest None "" (Sample.credentials "" " Bob@X.com" "hunter22") None in
  exists token,
    responds (POST_login (P := Sample.platform) req Sample.world0) 200
             (accountJson 2 "bob" "bob@x.com" token)
    /\ Sample.verify token "s3cret" 2592999 = Some 2%N.
Proof.
  intros req.
  destruct (login_accepted (P := Sample.platform) req Sample.world0
              Sample.bob "hunter22" "s3cret" eq_refl eq_refl)
    as [H1 [_ H3]]; try reflexivity; try discriminate.
  eexists. split; [exact H1|].
  apply (H3 SampleFacts.jwt_ok). reflexivity.
Defined.

(* ------------------------------------------------------------------ *)
(** ** What the handlers do to the store *)

Ltac unfold_models :=
  unfold signupUser, loginUser, getTrips, createTrip, deleteTrip,
    User_findOne, User_findById, User_create, User_new, User_save,
    validateUser, emptyPaths, pre_save, genSalt, checkUnique, newObjectId,
    generateToken, matchPassword, req_user_id, Trip_find, populate,
    Trip_new, Trip_save, Trip_findById, Trip_deleteOne.

Lemma loginUser_sameStore `{P : Platform} (req : Request) (w : World) :
  sameStore w (asyncHandler loginUser req w).
Proof.
  unfold sameStore. unfold_models. run. branches; repeat split.
Qed.

Lemma getTrips_sameStore `{P : Platform} (req : Request) (w : World) :
  sameStore w (asyncHandler getTrips req w).
Proof.
  unfold sameStore. unfold_models. run. branches; repeat split.
Qed.

Lemma GET_trips_sameStore `{P : Platform} (req : Request) (w : World) :
  sameStore w (GET_trips req w).
Proof.
  unfold GET_trips.
  destruct (protect_cases (asyncHandler getTrips) req w)
    as [[_ ->] | [[_ [_ ->]] | [id [_ [_ ->]]]]].
  - apply unauthorized_sameStore.
  - apply unauthorized_sameStore.
  - apply getTrips_sameStore.
Qed.

(** X5.  Login and the listing of trips only read: whatever the request
    and however it ends, [POST /api/auth/login] and [GET /api/trips] leave
    both collections and the identifier and salt counters as they were. *)
Theorem reads_leave_store `{P : Platform} (req : Request) (w : World) :
  sameStore w (POST_login req w) /\ sameStore w (GET_trips req w).
Proof.
  split; [apply loginUser_sameStore | apply GET_trips_sameStore].
Qed.

(** The request bears a token that verifies to the identifier of the
    stored account [owner]. *)
Definition authenticates `{P : Platform} (req : Request) (w : World)
    (owner : User) : Prop :=
  hasBearer req = true
  /\ verify (bearerToken req) w = (inr (user_id owner), w)
  /\ find_user (fun u => N.eqb (user_id u) (user_id owner)) (users w) = Some owner.

(** Everything a request can do to the store. *)
Inductive Effect `{P : Platform} (req : Request) (w w' : World) : Prop :=
| Unchanged :
    users w' = users w -> trips w' = trips w ->
    (nextObjectId w <= nextObjectId w')%N ->
    Effect req w w'
| Registered (u : User) :
    users w' = users w ++ [u] -> trips w' = trips w ->
    user_id u = nextObjectId w ->
    nextObjectId w' = N.succ (nextObjectId w) ->
    username u <> "" -> email u <> "" ->
    (forall v, In v (users w) -> username v <> username u /\ email v <> email u) ->
    Effect req w w'
| Created (t : Trip) (owner : User) :
    authenticates req w owner ->
    users w' = users w -> trips w' = trips w ++ [t] ->
    trip_id t = nextObjectId w ->
    nextObjectId w' = N.succ (nextObjectId w) ->
    createdBy t = user_id owner ->
    title t <> "" -> locations t <> [] ->
    (forall l, In l (locations t) -> name l <> "") ->
    Effect req w w'
| Removed (t : Trip) (owner : User) :
    authenticates req w owner ->
    users w' = users w ->
    castObjectId (params_id req) = Some (trip_id t) ->
    List.find (fun x => N.eqb (trip_id x) (trip_id t)) (trips w) = Some t ->
    trips w' = removeFirst (fun x => N.eqb (trip_id x) (trip_id t)) (trips w) ->
    nextObjectId w' = nextObjectId w ->
    createdBy t = user_id owner ->
    Effect req w w'.

(** Case analysis that keeps the equation of each test. *)
Ltac innermost_eqn x :=
  lazymatch x with
  | context [match _ with _ => _ end] => fail
  | _ => destruct x eqn:?
  end.

Ltac branches_eqn :=
  repeat (simpl;
          match goal with
          | |- context [if ?b then _ else _] => innermost_eqn b
          | |- context [match ?x with _ => _ end] => innermost_eqn x
          end);
  simpl.

Ltac unchanged := apply Unchanged; simpl; solve [reflexivity | lia].

Lemma existsb_false_all (f : User -> bool) (us : list User) :
  existsb f us = false -> forall u, In u us -> f u = false.
Proof.
  intros H u Hu. destruct (f u) eqn:E; [|reflexivity].
  rewrite (existsb_present f us u Hu E) in H. discriminate.
Qed.

Lemma signupUser_effect `{P : Platform} (req : Request) (w : World) :
  Effect req w (POST_signup req w).
Proof.
  unfold POST_signup. unfold_models. run.
  branches_eqn; try unchanged.
  all: match goal with
       | |- Effect _ _ ?w' =>
           apply Registered with (u := last (users w') (mkUser 0 "" "" "" 0 0))
       end; simpl; rewrite ?last_last; simpl; try reflexivity.
  all: try (apply String.eqb_neq; assumption).
  all: intros v Hv; split; apply String.eqb_neq;
    match goal with
    | H : existsb (fun v => String.eqb (username v) _) _ = false |- String.eqb (username _) _ = false =>
        exact (existsb_false_all _ _ H v Hv)
    | H : existsb (fun v => String.eqb (email v) _) _ = false |- String.eqb (email _) _ = false =>
        exact (existsb_false_all _ _ H v Hv)
    end.
Qed.

Lemma validateLocations_some (ls : list LocationInput) (vs : list Location) :
  validateLocations ls = Some vs ->
  length vs = length ls /\ forall v, In v vs -> name v <> "".
Proof.
  revert vs. induction ls as [|l ls IH]; simpl; intros vs H.
  - injection H as <-. split; [reflexivity|]. intros v [].
  - unfold validateLocation in H.
    destruct (in_name l) as [n|]; [|discriminate].
    destruct (in_latitude l) as [la|]; [|discriminate].
    destruct (in_longitude l) as [lo|]; [|discriminate].
    destruct (String.eqb_spec n "") as [|Hn]; [discriminate|].
    destruct (validateLocations ls) as [vs'|]; [|discriminate].
    injection H as <-. destruct (IH vs' eq_refl) as [Hlen Hnames].
    split; [simpl; now rewrite Hlen|].
    intros v [<-|Hv]; [exact Hn|now apply Hnames].
Qed.

Lemma createTrip_store `{P : Platform} (req : Request) (w : World) :
  let w' := asyncHandler createTrip req w in
  (users w' = users w /\ trips w' = trips w
   /\ (nextObjectId w <= nextObjectId w')%N)
  \/ (exists t me,
        user req = Some me
        /\ users w' = users w /\ trips w' = trips w ++ [t]
        /\ trip_id t = nextObjectId w
        /\ nextObjectId w' = N.succ (nextObjectId w)
        /\ createdBy t = view_id me
        /\ title t <> "" /\ locations t <> []
        /\ forall l, In l (locations t) -> name l <> "").
Proof.
  unfold_models. run.
  destruct (negb (JsString.truthy_opt (body_title (body req)))
            || noLocations (body_locations (body req))) eqn:Hguard.
  { left. simpl. repeat split. lia. }
  destruct (user req) as [me|]; [|left; simpl; repeat split; lia].
  simpl.
  destruct (String.eqb_spec
              (JsString.trim (JsString.value (body_title (body req)))) "")
    as [|Htitle]; [left; simpl; repeat split; lia|].
  destruct (validateLocations _) as [ls|] eqn:Hval;
    [|left; simpl; repeat split; lia].
  right. simpl. eexists. exists me. simpl.
  repeat split; try reflexivity; try assumption.
  - apply orb_false_iff in Hguard as [_ Hno].
    destruct (body_locations (body req)) as [stops|]; [|discriminate].
    destruct (validateLocations_some _ _ Hval) as [Hlen _].
    rewrite length_map in Hlen. simpl in Hno.
    destruct ls; [|discriminate]. destruct stops; discriminate.
  - apply (validateLocations_some _ _ Hval).
Qed.

Lemma deleteTrip_store `{P : Platform} (req : Request) (w : World) :
  let w' := asyncHandler deleteTrip req w in
  (users w' = users w /\ trips w' = trips w /\ nextObjectId w' = nextObjectId w)
  \/ (exists t me,
        user req = Some me
        /\ castObjectId (params_id req) = Some (trip_id t)
        /\ List.find (fun x => N.eqb (trip_id x) (trip_id t)) (trips w) = Some t
        /\ createdBy t = view_id me
        /\ users w' = users w
        /\ trips w' = removeFirst (fun x => N.eqb (trip_id x) (trip_id t)) (trips w)
        /\ nextObjectId w' = nextObjectId w).
Proof.
  unfold_models. run.
  destruct (castObjectId (params_id req)) as [i|] eqn:Hcast;
    [|left; repeat split].
  simpl.
  destruct (List.find _ (trips w)) as [t|] eqn:Hfind; [|left; repeat split].
  destruct (user req) as [me|]; [|left; repeat split].
  simpl. rewrite toString_eqb.
  destruct (N.eqb_spec (createdBy t) (view_id me)) as [Hown|_];
    [|left; repeat split].
  assert (Hid : trip_id t = i).
  { apply find_some in Hfind as [_ Hid]. now apply N.eqb_eq in Hid. }
  subst i. right. exists t, me. repeat split; trivial.
Qed.

(** Behind [protect], [req.user] is the view of the account the token
    names. *)
Lemma protected_user `{P : Platform} (req : Request) (w : World)
    (id : ObjectId) (me : UserView) :
  hasBearer req = true ->
  verify (bearerToken req) w = (inr id, w) ->
  option_map select_minus_password
    (find_user (fun u => N.eqb (user_id u) id) (users w)) = Some me ->
  exists owner, authenticates req w owner /\ view_id me = user_id owner.
Proof.
  intros Hb Hv Hme.
  destruct (find_user _ (users w)) as [owner|] eqn:Hf; [|discriminate].
  injection Hme as <-. exists owner.
  pose proof (find_some _ _ Hf) as [_ Hid]. apply N.eqb_eq in Hid.
  split; [|reflexivity]. unfold authenticates. rewrite Hid. auto.
Qed.

Lemma unauthorized_effect `{P : Platform} (req : Request) (msg : string) (w : World) :
  Effect req w (unauthorized msg w).
Proof. apply Unchanged; simpl; solve [reflexivity | lia]. Qed.

(** Every route's doing is one of the four effects. *)
Lemma route_effect `{P : Platform} (route : Request -> World -> World)
    (req : Request) (w : World) :
  In route routes -> Effect req w (route req w).
Proof.
  intros Hroute. simpl in Hroute.
  destruct Hroute as [<- | [<- | [<- | [<- | [<- | []]]]]].
  - apply signupUser_effect.
  - destruct (loginUser_sameStore req w) as [Hu [Ht [Hn _]]].
    apply Unchanged; [exact Hu|exact Ht|]. unfold POST_login. rewrite Hn. lia.
  - destruct (GET_trips_sameStore req w) as [Hu [Ht [Hn _]]].
    apply Unchanged; [exact Hu|exact Ht|]. rewrite Hn. lia.
  - unfold POST_trips.
    destruct (protect_cases (asyncHandler createTrip) req w)
      as [[_ ->] | [[_ [_ ->]] | [id [Hb [Hv ->]]]]];
      try apply unauthorized_effect.
    set (req' := set_user _ req).
    destruct (createTrip_store req' w)
      as [[Hu [Ht Hn]] | [t [me [Hme [Hu [Ht [Hid [Hn [Hown [H1 [H2 H3]]]]]]]]]]].
    + now apply Unchanged.
    + destruct (protected_user req w id me Hb Hv Hme) as [owner [Hauth Hview]].
      apply Created with (t := t) (owner := owner); trivial. now rewrite <- Hview.
  - unfold DELETE_trip.
    destruct (protect_cases (asyncHandler deleteTrip) req w)
      as [[_ ->] | [[_ [_ ->]] | [id [Hb [Hv ->]]]]];
      try apply unauthorized_effect.
    set (req' := set_user _ req).
    destruct (deleteTrip_store req' w)
      as [[Hu [Ht Hn]] | [t [me [Hme [Hcast [Hfind [Hown [Hu [Ht Hn]]]]]]]]].
    + apply Unchanged; trivial. rewrite Hn. lia.
    + destruct (protected_user req w id me Hb Hv Hme) as [owner [Hauth Hview]].
      apply Removed with (t := t) (owner := owner); trivial. now rewrite <- Hview.
Qed.

(* ------------------------------------------------------------------ *)
(** ** What every route keeps *)

(** Identifiers, usernames and emails are keys of their collections, and
    every identifier in use is below the next one to be given out. *)
Definition consistent (w : World) : Prop :=
  NoDup (map user_id (users w))
  /\ NoDup (map username (users w))
  /\ NoDup (map email (users w))
  /\ NoDup (map trip_id (trips w))
  /\ (forall u, In u (users w) -> (user_id u < nextObjectId w)%N)
  /\ (forall t, In t (trips w) -> (trip_id t < nextObjectId w)%N).

(** What the schemas require of stored documents. *)
Definition schemaValid (w : World) : Prop :=
  (forall u, In u (users w) -> username u <> "" /\ email u <> "")
  /\ (forall t, In t (trips w) ->
        title t <> "" /\ locations t <> []
        /\ forall l, In l (locations t) -> name l <> "").

Lemma NoDup_snoc {A} (l : list A) (x : A) :
  NoDup l -> ~ In x l -> NoDup (l ++ [x]).
Proof.
  induction l as [|y l IH]; simpl; intros Hnd Hx.
  - constructor; [easy|constructor].
  - inversion Hnd as [|? ? Hy Hl]; subst. constructor.
    + rewrite in_app_iff. simpl. intros [H|[H|[]]]; [now apply Hy|].
      apply Hx. now left.
    + apply IH; [assumption|]. intros H. apply Hx. now right.
Qed.

Lemma removeFirst_incl {A} (f : A -> bool) (l : list A) (x : A) :
  In x (removeFirst f l) -> In x l.
Proof.
  induction l as [|y l IH]; simpl; [easy|].
  destruct (f y); [now right|]. intros [->|H]; [now left|right; now apply IH].
Qed.

Lemma removeFirst_keeps {A} (f : A -> bool) (l : list A) (x : A) :
  In x l -> f x = false -> In x (removeFirst f l).
Proof.
  induction l as [|y l IH]; simpl; [easy|].
  intros [->|H] Hx.
  - rewrite Hx. now left.
  - destruct (f y); [assumption|]. right. now apply IH.
Qed.

Lemma removeFirst_NoDup {A B} (g : A -> B) (f : A -> bool) (l : list A) :
  NoDup (map g l) -> NoDup (map g (removeFirst f l)).
Proof.
  induction l as [|y l IH]; simpl; intros Hnd; [constructor|].
  inversion Hnd as [|? ? Hy Hl]; subst.
  destruct (f y); [assumption|]. simpl. constructor; [|now apply IH].
  intros Hin. apply Hy. apply in_map_iff in Hin as [x [Hx Hin]].
  apply in_map_iff. exists x. split; [assumption|].
  now apply removeFirst_incl with (f := f).
Qed.

Lemma fresh_key {A} (g : A -> N) (l : list A) (k : N) :
  (forall x, In x l -> (g x < k)%N) -> ~ In k (map g l).
Proof.
  intros H Hin. apply in_map_iff in Hin as [x [Hx Hin]].
  specialize (H x Hin). lia.
Qed.

(** X6.  Every route keeps the store consistent: after any request to any
    of the five routes, no two accounts share an identifier, a username or
    an email, no two trips share an identifier, and every identifier in
    use is below the next one to be given out. *)
Theorem routes_keep_consistency `{P : Platform}
    (route : Request -> World -> World) (req : Request) (w : World) :
  In route routes -> consistent w -> consistent (route req w).
Proof.
  intros Hroute (Hui & Hun & Hue & Hti & Hub & Htb).
  unfold consistent.
  destruct (route_effect route req w Hroute)
    as [Hu Ht Hn
       | u Hu Ht Hid Hn Hne1 Hne2 Hfresh
       | t owner _ Hu Ht Hid Hn _ _ _ _
       | t owner _ Hu Hcast Hfind Ht Hn _];
    rewrite Hu, Ht.
  - repeat split; trivial.
    + intros u Hin. specialize (Hub u Hin). lia.
    + intros t Hin. specialize (Htb t Hin). lia.
  - rewrite !map_app. simpl. repeat split; trivial.
    + apply NoDup_snoc; [assumption|]. rewrite Hid. now apply fresh_key.
    + apply NoDup_snoc; [assumption|].
      intros Hin. apply in_map_iff in Hin as [v [Hv Hin]].
      now apply (proj1 (Hfresh v Hin)).
    + apply NoDup_snoc; [assumption|].
      intros Hin. apply in_map_iff in Hin as [v [Hv Hin]].
      now apply (proj2 (Hfresh v Hin)).
    + intros v Hin. apply in_app_iff in Hin as [Hin|[<-|[]]].
      * specialize (Hub v Hin). lia.
      * lia.
    + intros t Hin. specialize (Htb t Hin). lia.
  - rewrite !map_app. simpl. repeat split; trivial.
    + apply NoDup_snoc; [assumption|]. rewrite Hid. now apply fresh_key.
    + intros v Hin. specialize (Hub v Hin). lia.
    + intros x Hin. apply in_app_iff in Hin as [Hin|[<-|[]]].
      * specialize (Htb x Hin). lia.
      * lia.
  - rewrite Hn. repeat split; trivial.
    + now apply removeFirst_NoDup.
    + intros x Hin. apply Htb. now apply removeFirst_incl in Hin.
Qed.

Lemma sample_consistent : consistent Sample.world0.
Proof.
  unfold consistent. simpl.
  repeat split;
    try (repeat (constructor; [simpl; intuition discriminate|]); constructor).
  - intros u [<-|[<-|[]]]; reflexivity.
  - intros t [<-|[<-|[<-|[]]]]; reflexivity.
Qed.

Lemma routes_keep_consistency_witness :
  let req := mkRequest None "" (Sample.credentials "carol" "carol@x.com" "pw9") None in
  consistent (POST_signup (P := Sample.platform) req Sample.world0).
Proof.
  intros req.
  apply (routes_keep_consistency (P := Sample.platform)).
  - simpl. auto.
  - exact sample_consistent.
Defined.

(** X7.  Every route keeps the stored documents within their schemas:
    after any request, every account still has a non-empty username and
    email, and every trip a non-empty title and at least one stop, each
    with a non-empty name. *)
Theorem routes_keep_schema `{P : Platform}
    (route : Request -> World -> World) (req : Request) (w : World) :
  In route routes -> schemaValid w -> schemaValid (route req w).
Proof.
  intros Hroute [Husers Htrips]. unfold schemaValid.
  destruct (route_effect route req w Hroute)
    as [Hu Ht Hn
       | u Hu Ht Hid Hn Hne1 Hne2 Hfresh
       | t owner _ Hu Ht Hid Hn _ H1 H2 H3
       | t owner _ Hu Hcast Hfind Ht Hn _];
    rewrite Hu, Ht; split; trivial.
  - intros v Hin. apply in_app_iff in Hin as [Hin|[<-|[]]]; auto.
  - intros x Hin. apply in_app_iff in Hin as [Hin|[<-|[]]]; auto.
  - intros x Hin. apply Htrips. now apply removeFirst_incl in Hin.
Qed.

Lemma routes_keep_schema_witness :
  let req := mkRequest (Some ("Bearer " ++ Sample.sign 1 "s3cret" 10 1000)%string) ""
               (Sample.tripBody " Coastal Run " [Sample.pierInput]) None in
  schemaValid (POST_trips (P := Sample.platform) req Sample.world0).
Proof.
  intros req.
  apply (routes_keep_schema (P := Sample.platform)).
  - simpl. auto.
  - split.
    + simpl. intros u [<-|[<-|[]]]; split; discriminate.
    + simpl. intros t [<-|[<-|[<-|[]]]]; repeat split; try discriminate;
        simpl; intros l Hl; repeat destruct Hl as [<-|Hl]; try discriminate;
        destruct Hl.
Defined.

(** X8.  No route deletes or changes an account: after any request the
    [User] collection is the old one, followed by at most one new
    account. *)
Theorem accounts_only_added `{P : Platform}
    (route : Request -> World -> World) (req : Request) (w : World) :
  In route routes ->
  exists added : list User,
    users (route req w) = users w ++ added /\ length added <= 1.
Proof.
  intros Hroute.
  destruct (route_effect route req w Hroute)
    as [Hu _ _ | u Hu _ _ _ _ _ _ | t owner _ Hu _ _ _ _ _ _ _ | t owner _ Hu _ _ _ _ _].
  - exists []. rewrite Hu, app_nil_r. auto.
  - exists [u]. auto.
  - exists []. rewrite Hu, app_nil_r. auto.
  - exists []. rewrite Hu, app_nil_r. auto.
Qed.

Lemma accounts_only_added_witness :
  let req := mkRequest (Some ("Bearer " ++ Sample.sign 1 "s3cret" 10 1000)%string) (toString 3)
               emptyBody None in
  exists added : list User,
    users (DELETE_trip (P := Sample.platform) req Sample.world0)
    = users Sample.world0 ++ added /\ length added <= 1.
Proof.
  intros req. apply (accounts_only_added (P := Sample.platform)).
  simpl. do 4 right. now left.
Defined.

(** X9.  A trip leaves the collection only at its owner's request: if a
    stored trip is gone after a request to any route, the request bore a
    token that verifies to the identifier of a stored account, that
    account is the trip's [createdBy], and the path of the request named
    the trip, by the 24 hexadecimal digits of its identifier. *)
Theorem trip_removed_only_by_owner `{P : Platform}
    (route : Request -> World -> World) (req : Request) (w : World) (t : Trip) :
  In route routes ->
  uniqueTripIds w ->
  In t (trips w) -> ~ In t (trips (route req w)) ->
  exists owner : User,
    authenticates req w owner
    /\ createdBy t = user_id owner
    /\ castObjectId (params_id req) = Some (trip_id t).
Proof.
  intros Hroute Hnd Hin Hgone.
  destruct (route_effect route req w Hroute)
    as [_ Ht _ | u _ Ht _ _ _ _ _ | x owner _ _ Ht _ _ _ _ _ _
       | x owner Hauth _ Hcast Hfind Ht _ Hown].
  - elim Hgone. now rewrite Ht.
  - elim Hgone. now rewrite Ht.
  - elim Hgone. rewrite Ht. apply in_app_iff. now left.
  - assert (Hid : trip_id t = trip_id x).
    { destruct (N.eqb_spec (trip_id t) (trip_id x)) as [E|D]; [exact E|].
      elim Hgone. rewrite Ht. apply removeFirst_keeps; [assumption|].
      now apply N.eqb_neq. }
    assert (Hx : x = t).
    { pose proof (find_unique_id (trips w) t Hnd Hin) as Hf.
      rewrite Hid, Hfind in Hf. now injection Hf. }
    subst x. exists owner. auto.
Qed.

Lemma trip_removed_only_by_owner_witness :
  let req := mkRequest (Some ("Bearer " ++ Sample.sign 1 "s3cret" 10 1000)%string) (toString 3)
               emptyBody None in
  exists owner : User,
    authenticates (P := Sample.platform) req Sample.world0 owner
    /\ createdBy Sample.coastal = user_id owner
    /\ castObjectId (params_id req) = Some (trip_id Sample.coastal).
Proof.
  intros req.
  apply (trip_removed_only_by_owner (P := Sample.platform)
           (DELETE_trip (P := Sample.platform)) req Sample.world0 Sample.coastal).
  - simpl. do 4 right. now left.
  - unfold uniqueTripIds. simpl.
    repeat (constructor; [simpl; intuition discriminate|]). constructor.
  - simpl. auto.
  - vm_compute. intros [H|[H|[]]]; discriminate.
Defined.

(** X10.  No route changes a stored trip, and a trip enters the
    collection only for the account that asks: every trip in the
    collection after a request was there before, or it bears the
    identifier that was next to be given out, the request bore a token
    that verifies to the identifier of a stored account, and that account
    is the new trip's [createdBy]. *)
Theorem trip_added_only_for_self `{P : Platform}
    (route : Request -> World -> World) (req : Request) (w : World) (t : Trip) :
  In route routes ->
  In t (trips (route req w)) ->
  In t (trips w)
  \/ (exists owner : User,
        authenticates req w owner /\ createdBy t = user_id owner
        /\ trip_id t = nextObjectId w).
Proof.
  intros Hroute Hin.
  destruct (route_effect route req w Hroute)
    as [_ Ht _ | u _ Ht _ _ _ _ _ | x owner Hauth _ Ht Hid _ Hown _ _ _
       | x owner _ _ _ _ Ht _ _].
  - left. now rewrite <- Ht.
  - left. now rewrite <- Ht.
  - rewrite Ht in Hin. apply in_app_iff in Hin as [Hin|[<-|[]]]; [now left|].
    right. exists owner. repeat split; trivial; apply Hauth.
  - left. rewrite Ht in Hin. now apply removeFirst_incl in Hin.
Qed.

Lemma trip_added_only_for_self_witness :
  let req := mkRequest (Some ("Bearer " ++ Sample.sign 2 "s3cret" 10 1000)%string) ""
               (Sample.tripBody "Dunes" [Sample.pierInput]) None in
  let dunes := mkTrip 6 "Dunes" None [Sample.pier] 2 1000 1000 in
  In dunes (trips (POST_trips (P := Sample.platform) req Sample.world0))
  /\ (In dunes (trips Sample.world0)
      \/ exists owner : User,
           authenticates (P := Sample.platform) req Sample.world0 owner
           /\ createdBy dunes = user_id owner
           /\ trip_id dunes = nextObjectId Sample.world0).
Proof.
  intros req dunes.
  assert (Hin : In dunes (trips (POST_trips (P := Sample.platform) req Sample.world0))).
  { vm_compute. do 3 right. now left. }
  split; [exact Hin|].
  apply (trip_added_only_for_self (P := Sample.platform)
           (POST_trips (P := Sample.platform)) req Sample.world0 dunes);
    [simpl; do 3 right; now left | exact Hin].
Defined.

(* ------------------------------------------------------------------ *)
(** ** One answer per request *)

(** On a fresh response a handler either throws, having written nothing
    and at most set a status, or returns having written exactly once. *)
Definition answersOrThrows (fn : Request -> M unit) : Prop :=
  forall (req : Request) (w : World),
    res w = freshResponse ->
    (exists e c,
        fst (fn req w) = inl e
        /\ res (snd (fn req w)) = mkResponse c []
        /\ In c [200; 201; 400; 401; 403; 404])
    \/ (exists c j,
          fst (fn req w) = inr tt
          /\ res (snd (fn req w)) = mkResponse c [(c, j)]
          /\ In c [200; 201]).

Ltac threw :=
  left; do 2 eexists;
  split; [reflexivity | split; [reflexivity | simpl; tauto]].

Ltac wrote :=
  right; do 2 eexists;
  split; [reflexivity | split; [reflexivity | simpl; tauto]].

Ltac answers_by_cases :=
  intros req w Hr; unfold_models; run;
  branches; rewrite ?Hr; simpl; first [threw | wrote].

Lemma signupUser_answers `{P : Platform} : answersOrThrows signupUser.
Proof. answers_by_cases. Qed.

Lemma loginUser_answers `{P : Platform} : answersOrThrows loginUser.
Proof. answers_by_cases. Qed.

Lemma getTrips_answers : answersOrThrows getTrips.
Proof. answers_by_cases. Qed.

Lemma createTrip_answers : answersOrThrows createTrip.
Proof. answers_by_cases. Qed.

Lemma deleteTrip_answers : answersOrThrows deleteTrip.
Proof. answers_by_cases. Qed.

Definition statusCodes : list nat := [200; 201; 400; 401; 403; 404; 500].

Lemma asyncHandler_answers `{P : Platform} (fn : Request -> M unit)
    (req : Request) (w : World) :
  answersOrThrows fn -> res w = freshResponse ->
  exists code j,
    responds (asyncHandler fn req w) code j /\ In code statusCodes.
Proof.
  intros Hfn Hr. unfold asyncHandler, responds.
  destruct (Hfn req w Hr) as [[e [c [He [Hres Hc]]]] | [c [j [Hok [Hres Hc]]]]];
    destruct (fn req w) as [[e'|[]] w1]; simpl in *; try discriminate.
  - rewrite Hres. simpl.
    destruct Hc as [<-|[<-|[<-|[<-|[<-|[<-|[]]]]]]]; simpl;
      do 2 eexists; (split; [reflexivity | simpl; tauto]).
  - rewrite Hres. exists c, j. split; [reflexivity|].
    destruct Hc as [<-|[<-|[]]]; simpl; tauto.
Qed.

(** X11.  Every request to any of the five routes is answered exactly
    once: starting from a fresh response, the response afterwards holds one
    write, sent with the status code the response ends with, and that code
    is one of 200, 201, 400, 401, 403, 404 and 500. *)
Theorem every_request_answered_once `{P : Platform}
    (route : Request -> World -> World) (req : Request) (w : World) :
  In route routes -> res w = freshResponse ->
  exists code j,
    responds (route req w) code j /\ In code statusCodes.
Proof.
  intros Hroute Hr.
  assert (Hun : forall msg,
             exists code j, responds (unauthorized msg w) code j
                            /\ In code statusCodes).
  { intros msg. exists 401, (JObject [("error", VString msg)]).
    split; [unfold responds, unauthorized; simpl; now rewrite Hr|].
    simpl. tauto. }
  assert (Hprot : forall fn, answersOrThrows fn ->
             exists code j, responds (protect (asyncHandler fn) req w) code j
                            /\ In code statusCodes).
  { intros fn Hfn.
    destruct (protect_cases (asyncHandler fn) req w)
      as [[_ ->] | [[_ [_ ->]] | [id [_ [_ ->]]]]]; try apply Hun.
    now apply asyncHandler_answers. }
  simpl in Hroute.
  destruct Hroute as [<- | [<- | [<- | [<- | [<- | []]]]]].
  - apply asyncHandler_answers; [apply signupUser_answers|assumption].
  - apply asyncHandler_answers; [apply loginUser_answers|assumption].
  - apply Hprot, getTrips_answers.
  - apply Hprot, createTrip_answers.
  - apply Hprot, deleteTrip_answers.
Qed.

Lemma every_request_answered_once_witness :
  exists code j,
    responds (DELETE_trip (P := Sample.platform) Sample.request0 Sample.world0) code j
    /\ In code statusCodes.
Proof.
  apply (every_request_answered_once (P := Sample.platform)).
  - simpl. do 4 right. now left.
  - reflexivity.
Defined.

(* ------------------------------------------------------------------ *)
(** ** How the trip operations compose *)

(** The array [getTrips] answers with for the account [owner]. *)
Definition listing (w : World) (owner : ObjectId) : list PopulatedTrip :=
  map (fun t =>
         mkPopulatedTrip t
           (option_map (fun u => mkOwnerRef (user_id u) (username u))
              (find_user (fun u => N.eqb (user_id u) (createdBy t)) (users w))))
      (filter (fun t => N.eqb (createdBy t) owner) (trips w)).

(** The trip [createTrip] stores for a title, stops and owner. *)
Definition newTrip (w : World) (title_ : string) (desc : option string)
    (ls : list Location) (owner : ObjectId) : Trip :=
  mkTrip (nextObjectId w) (JsString.trim title_) desc ls owner (now w) (now w).

Lemma getTrips_run `{P : Platform} (req : Request) (me : UserView) (w : World) :
  res w = freshResponse -> user req = Some me ->
  asyncHandler getTrips req w =
  set_res (mkResponse 200 [(200, JTrips (listing w (view_id me)))]) w.
Proof.
  intros Hr Hu. unfold_models. run. rewrite Hu, Hr. reflexivity.
Qed.

Lemma createTrip_run `{P : Platform} (req : Request) (me : UserView) (w : World)
    (title_ : string) (stops : list LocationInput) (ls : list Location) :
  res w = freshResponse -> user req = Some me ->
  body_title (body req) = Some title_ ->
  body_locations (body req) = Some stops ->
  stops <> [] -> JsString.trim title_ <> "" ->
  validateLocations (map castLocation stops) = Some ls ->
  let trip := newTrip w title_ (body_description (body req)) ls (view_id me) in
  asyncHandler createTrip req w =
  set_res (mkResponse 201 [(201, JTrip trip)])
    (set_trips (trips w ++ [trip])
       (set_nextObjectId (N.succ (nextObjectId w)) w)).
Proof.
  intros Hr Hu Ht Hl Hne Htrim Hval trip.
  assert (Htruthy : JsString.truthy title_ = true).
  { apply truthy_true. intros ->. now apply Htrim. }
  assert (Hno : Nat.eqb (length stops) 0 = false).
  { destruct stops; [now elim Hne|reflexivity]. }
  unfold asyncHandler. unfold_models. rewrite Ht, Hl, Hu. simpl.
  rewrite Htruthy, Hno. run.
  apply String.eqb_neq in Htrim. rewrite Htrim, Hval. simpl.
  now rewrite Hr.
Qed.

Lemma deleteTrip_run `{P : Platform} (req : Request) (me : UserView) (w : World)
    (i : ObjectId) :
  res w = freshResponse -> user req = Some me ->
  castObjectId (params_id req) = Some i ->
  asyncHandler deleteTrip req w =
  match List.find (fun t => N.eqb (trip_id t) i) (trips w) with
  | None => set_res (errorAnswer w 404 (Error "Trip not found")) w
  | Some t =>
      if N.eqb (createdBy t) (view_id me)
      then set_res (mkResponse 200
             [(200, JObject [("message", VString "Trip removed successfully")])])
             (set_trips (removeFirst (fun t => N.eqb (trip_id t) i)
                                     (trips w)) w)
      else set_res (errorAnswer w 403 (Error "Not authorized to delete this trip")) w
  end.
Proof.
  intros Hr Hu Hcast. unfold_models. run. rewrite Hcast, Hu. simpl.
  destruct (List.find _ (trips w)) as [t|]; simpl.
  - rewrite toString_eqb. destruct (N.eqb (createdBy t) (view_id me)); simpl;
      rewrite Hr; reflexivity.
  - rewrite Hr. reflexivity.
Qed.

Lemma filter_snoc {A} (f : A -> bool) (l : list A) (x : A) :
  filter f (l ++ [x]) = filter f l ++ (if f x then [x] else []).
Proof.
  rewrite filter_app. simpl. now destruct (f x).
Qed.

Lemma removeFirst_snoc_fresh (f : Trip -> bool) (l : list Trip) (x : Trip) :
  (forall t, In t l -> f t = false) -> f x = true ->
  removeFirst f (l ++ [x]) = l.
Proof.
  induction l as [|y l IH]; simpl; intros Hl Hx.
  - now rewrite Hx.
  - rewrite (Hl y) by auto. f_equal. apply IH; auto.
Qed.

Lemma find_snoc_fresh (f : Trip -> bool) (l : list Trip) (x : Trip) :
  (forall t, In t l -> f t = false) -> f x = true ->
  List.find f (l ++ [x]) = Some x.
Proof.
  induction l as [|y l IH]; simpl; intros Hl Hx.
  - now rewrite Hx.
  - rewrite (Hl y) by auto. apply IH; auto.
Qed.

(** X12.  A trip just created shows up in its owner's listing and in
    nobody else's: after a successful [createTrip] by one account, the
    next [getTrips] of any account answers 200 with what it would have
    listed before, followed by the new trip exactly when the two accounts
    are the same. *)
Theorem create_then_list `{P : Platform} (create view : Request)
    (me viewer : UserView) (w : World) (title_ : string)
    (stops : list LocationInput) (ls : list Location) (t' : Time) :
  res w = freshResponse ->
  user create = Some me ->
  body_title (body create) = Some title_ ->
  body_locations (body create) = Some stops ->
  stops <> [] -> JsString.trim title_ <> "" ->
  validateLocations (map castLocation stops) = Some ls ->
  user view = Some viewer ->
  let w1 := asyncHandler createTrip create w in
  let w2 := asyncHandler getTrips view (nextRequest t' w1) in
  let trip := newTrip w title_ (body_description (body create)) ls (view_id me) in
  exists ts : list PopulatedTrip,
    responds w2 200 (JTrips ts)
    /\ map populated_trip ts
       = filter (fun t => N.eqb (createdBy t) (view_id viewer)) (trips w)
         ++ (if N.eqb (view_id me) (view_id viewer) then [trip] else []).
Proof.
  intros Hr Hu Ht Hl Hne Htrim Hval Hv w1 w2 trip.
  assert (H1 : w1 = set_res (mkResponse 201 [(201, JTrip trip)])
                      (set_trips (trips w ++ [trip])
                         (set_nextObjectId (N.succ (nextObjectId w)) w))).
  { unfold w1. now apply createTrip_run with (stops := stops). }
  unfold w2. rewrite (getTrips_run view viewer (nextRequest t' w1) eq_refl Hv).
  exists (listing (nextRequest t' w1) (view_id viewer)).
  split; [reflexivity|].
  unfold listing. rewrite map_map. simpl. rewrite map_id.
  rewrite H1. simpl.
  apply (filter_snoc (fun t => N.eqb (createdBy t) (view_id viewer)) (trips w) trip).
Qed.

Lemma create_then_list_witness :
  let create := Sample.as_user Sample.alice 0
                  (Sample.tripBody "Dunes" [Sample.pierInput]) in
  let w1 := asyncHandler (P := Sample.platform) createTrip create Sample.world0 in
  let dunes := mkTrip 6 "Dunes" None [Sample.pier] 1 1000 1000 in
  (exists ts, responds (asyncHandler (P := Sample.platform) getTrips
                          (Sample.as_user Sample.alice 0 emptyBody)
                          (nextRequest 1001 w1)) 200 (JTrips ts)
              /\ map populated_trip ts = [Sample.coastal; Sample.harbour; dunes])
  /\ (exists ts, responds (asyncHandler (P := Sample.platform) getTrips
                             (Sample.as_user Sample.bob 0 emptyBody)
                             (nextRequest 1001 w1)) 200 (JTrips ts)
                 /\ map populated_trip ts = [Sample.desert]).
Proof.
  intros create w1 dunes.
  pose (view_of := select_minus_password).
  assert (Hstops : [Sample.pierInput] <> []) by discriminate.
  assert (Htitle : JsString.trim "Dunes" <> "") by discriminate.
  split.
  - destruct (create_then_list (P := Sample.platform) create
                (Sample.as_user Sample.alice 0 emptyBody)
                (view_of Sample.alice) (view_of Sample.alice) Sample.world0
                "Dunes" [Sample.pierInput] [Sample.pier] 1001
                eq_refl eq_refl eq_refl eq_refl Hstops Htitle eq_refl eq_refl)
      as [ts [H1 H2]].
    exists ts. split; [exact H1 | exact H2].
  - destruct (create_then_list (P := Sample.platform) create
                (Sample.as_user Sample.bob 0 emptyBody)
                (view_of Sample.alice) (view_of Sample.bob) Sample.world0
                "Dunes" [Sample.pierInput] [Sample.pier] 1001
                eq_refl eq_refl eq_refl eq_refl Hstops Htitle eq_refl eq_refl)
      as [ts [H1 H2]].
    exists ts. split; [exact H1 | exact H2].
Defined.

(** X13.  Deleting undoes creating: when no stored trip bears the
    identifier about to be given out, a successful [createTrip] followed
    by the owner's [deleteTrip] of the new trip (the path of the request
    is the 24 hexadecimal digits of its identifier) is answered 200 and
    leaves the [Trip] collection exactly as it was before the two
    requests. *)
Theorem create_then_delete `{P : Platform} (create del : Request)
    (me : UserView) (w : World) (title_ : string)
    (stops : list LocationInput) (ls : list Location) (t' : Time) :
  res w = freshResponse ->
  user create = Some me ->
  body_title (body create) = Some title_ ->
  body_locations (body create) = Some stops ->
  stops <> [] -> JsString.trim title_ <> "" ->
  validateLocations (map castLocation stops) = Some ls ->
  (forall t, In t (trips w) -> trip_id t <> nextObjectId w) ->
  user del = Some me -> castObjectId (params_id del) = Some (nextObjectId w) ->
  let w1 := asyncHandler createTrip create w in
  let w2 := asyncHandler deleteTrip del (nextRequest t' w1) in
  responds w1 201 (JTrip (newTrip w title_ (body_description (body create)) ls
                                  (view_id me)))
  /\ responds w2 200 (JObject [("message", VString "Trip removed successfully")])
  /\ trips w2 = trips w /\ users w2 = users w.
Proof.
  intros Hr Hu Ht Hl Hne Htrim Hval Hfresh Hd Hid w1 w2.
  set (trip := newTrip w title_ (body_description (body create)) ls (view_id me)).
  assert (H1 : w1 = set_res (mkResponse 201 [(201, JTrip trip)])
                      (set_trips (trips w ++ [trip])
                         (set_nextObjectId (N.succ (nextObjectId w)) w))).
  { unfold w1. now apply createTrip_run with (stops := stops). }
  assert (Hold : forall t, In t (trips w) ->
                   N.eqb (trip_id t) (nextObjectId w) = false).
  { intros t Hin. apply N.eqb_neq. now apply Hfresh. }
  assert (Hnew : N.eqb (trip_id trip) (nextObjectId w) = true).
  { apply N.eqb_eq. reflexivity. }
  split; [now rewrite H1|].
  unfold w2.
  rewrite (deleteTrip_run del me (nextRequest t' w1) (nextObjectId w) eq_refl Hd Hid).
  rewrite H1. simpl trips.
  rewrite (find_snoc_fresh _ _ _ Hold Hnew). simpl createdBy.
  rewrite N.eqb_refl. rewrite (removeFirst_snoc_fresh _ _ _ Hold Hnew).
  repeat split.
Qed.

Lemma create_then_delete_witness :
  let create := Sample.as_user Sample.alice 0
                  (Sample.tripBody "Dunes" [Sample.pierInput]) in
  let del := Sample.as_user Sample.alice 6 emptyBody in
  let w1 := asyncHandler (P := Sample.platform) createTrip create Sample.world0 in
  let w2 := asyncHandler (P := Sample.platform) deleteTrip del (nextRequest 1001 w1) in
  trips w1 <> trips Sample.world0 /\ trips w2 = trips Sample.world0.
Proof.
  intros create del w1 w2. split; [discriminate|].
  apply (create_then_delete (P := Sample.platform) create del
           (select_minus_password Sample.alice) Sample.world0
           "Dunes" [Sample.pierInput] [Sample.pier] 1001);
    try reflexivity; try discriminate.
  simpl. intros t [<-|[<-|[<-|[]]]]; discriminate.
Defined.

Lemma find_after_removeFirst (ts : list Trip) (i : ObjectId) :
  NoDup (map trip_id ts) ->
  List.find (fun x => N.eqb (trip_id x) i)
            (removeFirst (fun x => N.eqb (trip_id x) i) ts) = None.
Proof.
  intros Hnd. apply find_absent_id. intros t Hin.
  now apply (removeFirst_unique_id ts i Hnd t).
Qed.

(** X14.  A trip is deleted once: with identifiers unique in the
    collection, the owner's [deleteTrip] of a stored trip, named in the
    path by the 24 hexadecimal digits of its identifier, is answered 200,
    and the same request repeated is answered 404 "Trip not found" and
    changes nothing more. *)
Theorem delete_twice `{P : Platform} (req : Request) (me : UserView)
    (w : World) (t : Trip) (t' : Time) :
  res w = freshResponse ->
  user req = Some me ->
  uniqueTripIds w ->
  In t (trips w) -> castObjectId (params_id req) = Some (trip_id t) ->
  createdBy t = view_id me ->
  let w1 := asyncHandler deleteTrip req w in
  let w2 := asyncHandler deleteTrip req (nextRequest t' w1) in
  responds w1 200 (JObject [("message", VString "Trip removed successfully")])
  /\ res w2 = errorAnswer w 404 (Error "Trip not found")
  /\ trips w2 = trips w1.
Proof.
  intros Hr Hu Hnd Hin Hid Hown w1 w2.
  assert (Hf := find_unique_id (trips w) t Hnd Hin).
  assert (H1 : w1 = set_res (mkResponse 200
             [(200, JObject [("message", VString "Trip removed successfully")])])
             (set_trips (removeFirst (fun x => N.eqb (trip_id x) (trip_id t))
                                     (trips w)) w)).
  { unfold w1. rewrite (deleteTrip_run req me w (trip_id t) Hr Hu Hid), Hf.
    apply N.eqb_eq in Hown. now rewrite Hown. }
  split; [now rewrite H1|].
  unfold w2.
  rewrite (deleteTrip_run req me (nextRequest t' w1) (trip_id t) eq_refl Hu Hid).
  rewrite H1. simpl trips. rewrite (find_after_removeFirst _ _ Hnd).
  split; reflexivity.
Qed.

Lemma delete_twice_witness :
  let req := Sample.as_user Sample.alice 3 emptyBody in
  let w1 := asyncHandler (P := Sample.platform) deleteTrip req Sample.world0 in
  let w2 := asyncHandler (P := Sample.platform) deleteTrip req (nextRequest 1001 w1) in
  responds w1 200 (JObject [("message", VString "Trip removed successfully")])
  /\ res w2 = errorAnswer (P := Sample.platform) Sample.world0 404
               (Error "Trip not found")
  /\ trips w2 = trips w1.
Proof.
  intros req.
  apply (delete_twice (P := Sample.platform) req
           (select_minus_password Sample.alice) Sample.world0 Sample.coastal 1001);
    try reflexivity.
  - unfold uniqueTripIds. simpl.
    repeat (constructor; [simpl; intuition discriminate|]). constructor.
  - simpl. auto.
Defined.

(* ------------------------------------------------------------------ *)
(** ** How registrations compose *)

(** X15.  An email registers once, whatever its case: after a successful
    registration, a second one whose email is the same once trimmed and
    lower-cased is answered 400 "User already exists" whatever its
    username and password, and the [User] collection keeps the one
    account the first registration added. *)
Theorem register_twice `{P : Platform} (first second : Request) (w : World)
    (n e p n2 e2 p2 secret : string) (t : Time) :
  res w = freshResponse ->
  JWT_SECRET (env w) = Some secret -> secret <> "" ->
  body_username (body first) = Some n -> body_email (body first) = Some e ->
  body_password (body first) = Some p ->
  castUsername n <> "" -> castEmail e <> "" -> p <> "" ->
  (forall u, In u (users w) -> username u <> castUsername n) ->
  (forall u, In u (users w) -> email u <> castEmail e) ->
  body_username (body second) = Some n2 -> body_email (body second) = Some e2 ->
  body_password (body second) = Some p2 ->
  n2 <> "" -> e2 <> "" -> p2 <> "" ->
  castEmail e2 = castEmail e ->
  let w1 := POST_signup first w in
  let w2 := POST_signup second (nextRequest t w1) in
  statusCode (res w1) = 201
  /\ res w2 = errorAnswer w 400 (Error "User already exists")
  /\ users w2 = users w ++ [createdUser n e p w].
Proof.
  intros Hr Hs Hsne Hbn Hbe Hbp Hn He Hp Hun Hue Hbn2 Hbe2 Hbp2 Hn2 He2 Hp2 Hsame
         w1 w2.
  assert (H1 : w1 = set_res (mkResponse 201
     [(201, accountJson (nextObjectId w) (castUsername n) (castEmail e)
              (jwt_sign (nextObjectId w) secret expiresIn_30d (now w)))])
     (afterCreate n e p w)).
  { unfold w1, POST_signup, asyncHandler.
    now rewrite (signupUser_ok first w n e p secret). }
  split; [now rewrite H1|].
  unfold w2, POST_signup, asyncHandler.
  rewrite (signupUser_email_taken second (nextRequest t w1) n2 e2 p2
             (createdUser n e p w)); trivial.
  - rewrite H1. split; reflexivity.
  - rewrite H1. simpl. apply in_app_iff. right. now left.
  - now rewrite Hsame.
Qed.

Lemma register_twice_witness :
  let first := mkRequest None "" (Sample.credentials "carol" "carol@x.com" "pw9") None in
  let second := mkRequest None "" (Sample.credentials "caz" " CAROL@X.COM" "other") None in
  let w1 := POST_signup (P := Sample.platform) first Sample.world0 in
  let w2 := POST_signup (P := Sample.platform) second (nextRequest 2000 w1) in
  statusCode (res w1) = 201
  /\ res w2 = errorAnswer (P := Sample.platform) Sample.world0 400
               (Error "User already exists")
  /\ users w2 = users Sample.world0
                 ++ [createdUser (P := Sample.platform) "carol" "carol@x.com" "pw9"
                       Sample.world0].
Proof.
  intros first second.
  apply (register_twice (P := Sample.platform) first second Sample.world0
           "carol" "carol@x.com" "pw9" "caz" " CAROL@X.COM" "other" "s3cret" 2000);
    try reflexivity; try discriminate.
  - simpl. intros u [<-|[<-|[]]]; discriminate.
  - simpl. intros u [<-|[<-|[]]]; discriminate.
Defined.

(** X16.  When the signing secret is missing or empty, [jwt.sign] throws
    after the account has been stored and after [res.status(201)] has run
    (the receiver [res.status(201)] of [.json(...)] is evaluated before its
    argument): a registration that passes every check stores its account
    and is answered with status 201 and the error object, and a login with
    matching credentials, which sets no status, is answered 500. *)
Theorem token_signing_fails `{P : Platform} (req : Request) (w : World)
    (n e p : string) :
  res w = freshResponse ->
  JsString.truthy_opt (JWT_SECRET (env w)) = false ->
  body_username (body req) = Some n -> body_email (body req) = Some e ->
  body_password (body req) = Some p ->
  castUsername n <> "" -> castEmail e <> "" -> p <> "" ->
  (forall u, In u (users w) -> username u <> castUsername n) ->
  (forall u, In u (users w) -> email u <> castEmail e) ->
  bcrypt_contract P ->
  let w1 := POST_signup req w in
  let w2 := POST_login req (nextRequest (now w) w1) in
  res w1 = errorAnswer w 201 (Error "secretOrPrivateKey must have a value")
  /\ users w1 = users w ++ [createdUser n e p w]
  /\ res w2 = errorAnswer w 500 (Error "secretOrPrivateKey must have a value").
Proof.
  intros Hr Hs Hbn Hbe Hbp Hn He Hp Hun Hue HB w1 w2.
  destruct (cast_nonempty n e) as [Hn' He'].
  assert (H1 : w1 = set_res (errorAnswer w 201
                       (Error "secretOrPrivateKey must have a value"))
                      (afterCreate n e p w)).
  { unfold w1, POST_signup, asyncHandler.
    rewrite (signupUser_checks_pass req w n e p) by auto.
    unfold bind at 1. rewrite User_create_ok by assumption.
    unfold generateToken. run. rewrite Hs, Hr. reflexivity. }
  split; [now rewrite H1|]. split; [now rewrite H1|].
  unfold w2, POST_login, asyncHandler. rewrite H1.
  unfold loginUser. rewrite Hbe, Hbp.
  unfold User_findOne, bind at 1, bind at 1, gets at 1, ret at 1. simpl users.
  rewrite find_user_appended with (u := createdUser n e p w).
  - unfold matchPassword, generateToken, nextRequest, afterCreate.
    run. rewrite HB. cbn. rewrite Hs. reflexivity.
  - intros v Hv. apply String.eqb_neq. now apply Hue.
  - apply String.eqb_refl.
Qed.

Lemma token_signing_fails_witness :
  let unset := mkWorld (users Sample.world0) (trips Sample.world0) freshResponse
                       (mkEnv None (Some "production")) 1000 6 2 in
  let req := mkRequest None "" (Sample.credentials "carol" "carol@x.com" "pw9") None in
  let w1 := POST_signup (P := Sample.platform) req unset in
  res w1 = errorAnswer (P := Sample.platform) unset 201
             (Error "secretOrPrivateKey must have a value")
  /\ map username (users w1) = ["alice"; "bob"; "carol"].
Proof.
  intros unset req w1.
  destruct (token_signing_fails (P := Sample.platform) req unset
              "carol" "carol@x.com" "pw9" eq_refl eq_refl eq_refl eq_refl eq_refl)
    as [H1 [H2 _]]; try discriminate.
  - simpl. intros u [<-|[<-|[]]]; discriminate.
  - simpl. intros u [<-|[<-|[]]]; discriminate.
  - exact SampleFacts.bcrypt_ok.
  - split; [exact H1|]. unfold w1. rewrite H2. reflexivity.
Defined.

(* ------------------------------------------------------------------ *)
(** ** A session, end to end *)

Lemma protect_run `{P : Platform} (next : Request -> World -> World)
    (req : Request) (w : World) (tok secret : string) (id : ObjectId) :
  authorization req = Some ("Bearer " ++ tok)%string ->
  JsString.lacks " " tok = true ->
  JWT_SECRET (env w) = Some secret -> secret <> "" ->
  jwt_verify tok secret (now w) = Some id ->
  protect next req w =
  next (set_user (option_map select_minus_password
                    (find_user (fun u => N.eqb (user_id u) id) (users w))) req) w.
Proof.
  intros Ha Hl Hs Hne Hv.
  destruct (bearer_header tok req Hl Ha) as [Hb Htok].
  apply protect_verify_succeeds; [assumption|].
  rewrite Htok. now apply verify_ok with (secret := secret).
Qed.

(** X17.  Register, create a trip, delete it, list: in a consistent store
    where no trip refers to the identifier about to be given out, and with
    the contract of the token library, a successful registration yields a
    token with which, sent as [Bearer <token>] within 30 days, a trip is
    created (201) for the new account, then deleted (200) by a request
    whose path is the 24 hexadecimal digits of its identifier, after which
    the account's listing is the empty array (200) and the [Trip]
    collection is what it was before the session. *)
Theorem session_round_trip `{P : Platform} (signup create del view : Request)
    (w : World) (n e p secret title_ : string)
    (stops : list LocationInput) (ls : list Location) (t1 t2 t3 : Time) :
  jwt_contract P ->
  res w = freshResponse ->
  consistent w ->
  (forall t, In t (trips w) -> createdBy t <> nextObjectId w) ->
  JWT_SECRET (env w) = Some secret -> secret <> "" ->
  body_username (body signup) = Some n -> body_email (body signup) = Some e ->
  body_password (body signup) = Some p ->
  castUsername n <> "" -> castEmail e <> "" -> p <> "" ->
  (forall u, In u (users w) -> username u <> castUsername n) ->
  (forall u, In u (users w) -> email u <> castEmail e) ->
  (t1 < now w + 2592000)%Z -> (t2 < now w + 2592000)%Z ->
  (t3 < now w + 2592000)%Z ->
  let token := jwt_sign (nextObjectId w) secret expiresIn_30d (now w) in
  let bearer := Some ("Bearer " ++ token)%string in
  authorization create = bearer ->
  body_title (body create) = Some title_ ->
  body_locations (body create) = Some stops ->
  stops <> [] -> JsString.trim title_ <> "" ->
  validateLocations (map castLocation stops) = Some ls ->
  authorization del = bearer ->
  castObjectId (params_id del) = Some (N.succ (nextObjectId w)) ->
  authorization view = bearer ->
  let w1 := POST_signup signup w in
  let w2 := POST_trips create (nextRequest t1 w1) in
  let w3 := DELETE_trip del (nextRequest t2 w2) in
  let w4 := GET_trips view (nextRequest t3 w3) in
  responds w1 201 (accountJson (nextObjectId w) (castUsername n) (castEmail e) token)
  /\ (exists trip, responds w2 201 (JTrip trip)
                   /\ createdBy trip = nextObjectId w
                   /\ trip_id trip = N.succ (nextObjectId w))
  /\ responds w3 200 (JObject [("message", VString "Trip removed successfully")])
  /\ responds w4 200 (JTrips [])
  /\ trips w4 = trips w.
Proof.
  intros [HJ HW] Hr (Hui & _ & _ & Hti & Hub & Htb) Hrefs Hs Hsne
         Hbn Hbe Hbp Hn He Hp Hun Hue Ht1 Ht2 Ht3 token bearer
         Hac Hct Hcl Hne Htrim Hval Had Hdid Hav w1 w2 w3 w4.
  set (id := nextObjectId w) in *.
  set (u := createdUser n e p w).
  assert (Hlacks : JsString.lacks " " token = true) by apply HW.
  assert (Hver : forall t, (t < now w + 2592000)%Z ->
                   jwt_verify token secret t = Some id).
  { intros t Ht. apply HJ. exact Ht. }
  (* registration *)
  assert (H1 : w1 = set_res (mkResponse 201
                       [(201, accountJson id (castUsername n) (castEmail e) token)])
                      (afterCreate n e p w)).
  { unfold w1, POST_signup, asyncHandler.
    now rewrite (signupUser_ok signup w n e p secret). }
  assert (Hfind : forall us', us' = users w ++ [u] ->
            find_user (fun v => N.eqb (user_id v) id) us' = Some u).
  { intros us' ->. apply find_user_appended.
    - intros v Hv. apply N.eqb_neq. specialize (Hub v Hv). unfold id. lia.
    - apply N.eqb_refl. }
  split; [now rewrite H1|].
  (* creation *)
  set (me := select_minus_password u).
  set (w1' := nextRequest t1 w1).
  set (trip := newTrip w1' title_ (body_description (body create)) ls (view_id me)).
  assert (H2 : w2 = set_res (mkResponse 201 [(201, JTrip trip)])
                      (set_trips (trips w1' ++ [trip])
                         (set_nextObjectId (N.succ (nextObjectId w1')) w1'))).
  { unfold w2, POST_trips.
    rewrite (protect_run _ create w1' token secret id); trivial.
    - rewrite (Hfind (users w1')) by (unfold w1'; now rewrite H1).
      apply (createTrip_run (set_user (Some me) create) me w1' title_ stops ls);
        trivial.
    - unfold w1'. now rewrite H1.
    - unfold w1'. simpl. now apply Hver. }
  assert (Htrips1 : trips w1' = trips w) by (unfold w1'; now rewrite H1).
  assert (Hnext1 : nextObjectId w1' = N.succ id) by (unfold w1'; now rewrite H1).
  split.
  { exists trip. rewrite H2. repeat split. unfold trip, newTrip. simpl.
    exact Hnext1. }
  (* deletion *)
  set (w2' := nextRequest t2 w2).
  assert (Hold : forall t, In t (trips w) ->
                   N.eqb (trip_id t) (N.succ id) = false).
  { intros t Hin. apply N.eqb_neq. specialize (Htb t Hin).
    unfold id in *. lia. }
  assert (Hnew : N.eqb (trip_id trip) (N.succ id) = true).
  { apply N.eqb_eq. unfold trip, newTrip. simpl. exact Hnext1. }
  assert (H3 : w3 = set_res (mkResponse 200
                       [(200, JObject [("message", VString "Trip removed successfully")])])
                      (set_trips (trips w) w2')).
  { unfold w3, DELETE_trip.
    rewrite (protect_run _ del w2' token secret id); trivial.
    - rewrite (Hfind (users w2')) by (unfold w2'; rewrite H2; unfold w1'; now rewrite H1).
      rewrite (deleteTrip_run (set_user (Some me) del) me w2' (N.succ id)
                 eq_refl eq_refl Hdid).
      assert (Ht2' : trips w2' = trips w ++ [trip]).
      { unfold w2'. rewrite H2. simpl. now rewrite H1. }
      rewrite Ht2'.
      rewrite (find_snoc_fresh _ _ _ Hold Hnew). simpl createdBy.
      rewrite N.eqb_refl. now rewrite (removeFirst_snoc_fresh _ _ _ Hold Hnew).
    - unfold w2'. rewrite H2. unfold w1'. now rewrite H1.
    - unfold w2'. simpl. now apply Hver. }
  split; [now rewrite H3|].
  (* listing *)
  set (w3' := nextRequest t3 w3).
  assert (H4 : w4 = set_res (mkResponse 200 [(200, JTrips [])]) w3').
  { unfold w4, GET_trips.
    rewrite (protect_run _ view w3' token secret id); trivial.
    - rewrite (Hfind (users w3'))
        by (unfold w3'; rewrite H3; unfold w2'; rewrite H2; unfold w1'; now rewrite H1).
      rewrite (getTrips_run (set_user (Some me) view) me w3' eq_refl eq_refl).
      replace (listing w3' (view_id me)) with (@nil PopulatedTrip); [reflexivity|].
      unfold listing.
      replace (trips w3') with (trips w) by (unfold w3'; now rewrite H3).
      replace (filter _ (trips w)) with (@nil Trip); [reflexivity|].
      symmetry. clear -Hrefs. simpl. fold id.
      induction (trips w) as [|t ts IH]; simpl; [reflexivity|].
      destruct (N.eqb_spec (createdBy t) id) as [E|_].
      + elim (Hrefs t); simpl; auto.
      + apply IH. intros x Hx. apply Hrefs. now right.
    - unfold w3'. rewrite H3. unfold w2'. rewrite H2. unfold w1'. now rewrite H1.
    - unfold w3'. simpl. now apply Hver. }
  split; [now rewrite H4|].
  rewrite H4. unfold w3'. now rewrite H3.
Qed.

Lemma session_round_trip_witness :
  let token := Sample.sign 6 "s3cret" 2592000 1000 in
  let bearer := Some ("Bearer " ++ token)%string in
  let signup := mkRequest None "" (Sample.credentials "carol" "carol@x.com" "pw9") None in
  let create := mkRequest bearer "" (Sample.tripBody "Dunes" [Sample.pierInput]) None in
  let del := mkRequest bearer (toString 7) emptyBody None in
  let view := mkRequest bearer "" emptyBody None in
  let w1 := POST_signup (P := Sample.platform) signup Sample.world0 in
  let w2 := POST_trips (P := Sample.platform) create (nextRequest 1001 w1) in
  let w3 := DELETE_trip (P := Sample.platform) del (nextRequest 1002 w2) in
  let w4 := GET_trips (P := Sample.platform) view (nextRequest 1003 w3) in
  responds w4 200 (JTrips []) /\ trips w4 = trips Sample.world0
  /\ length (trips w2) = 4.
Proof.
  intros token bearer signup create del view.
  assert (Hstops : [Sample.pierInput] <> []) by discriminate.
  assert (Htitle : JsString.trim "Dunes" <> "") by discriminate.
  assert (Hsecret : "s3cret" <> "") by discriminate.
  assert (Hpw : "pw9" <> "") by discriminate.
  assert (Hn : castUsername "carol" <> "") by discriminate.
  assert (He : castEmail (P := Sample.platform) "carol@x.com" <> "")
    by discriminate.
  assert (Hrefs : forall t, In t (trips Sample.world0) ->
                    createdBy t <> nextObjectId Sample.world0).
  { simpl. intros t [<-|[<-|[<-|[]]]]; discriminate. }
  assert (Hun : forall u, In u (users Sample.world0) ->
                  username u <> castUsername "carol").
  { simpl. intros u [<-|[<-|[]]]; discriminate. }
  assert (Hue : forall u, In u (users Sample.world0) ->
                  email u <> castEmail (P := Sample.platform) "carol@x.com").
  { simpl. intros u [<-|[<-|[]]]; discriminate. }
  destruct (session_round_trip (P := Sample.platform) signup create del view
              Sample.world0 "carol" "carol@x.com" "pw9" "s3cret" "Dunes"
              [Sample.pierInput] [Sample.pier] 1001 1002 1003
              SampleFacts.jwt_ok eq_refl sample_consistent Hrefs eq_refl Hsecret
              eq_refl eq_refl eq_refl Hn He Hpw Hun Hue
              eq_refl eq_refl eq_refl
              eq_refl eq_refl eq_refl Hstops Htitle eq_refl
              eq_refl eq_refl eq_refl)
    as [_ [_ [_ [H4 H5]]]].
  split; [exact H4|]. split; [exact H5|]. reflexivity.
Defined.

(* ================================================================== *)
(** * The client: services/api, the pages and components that call it

    The browser side of the same exchange.  A call of the API service is
    the request the axios instance sends (the interceptor having added the
    header), handled by the route it addresses, and settled the way axios
    settles: resolved with the body on a 2xx status, rejected with it
    otherwise.  [localStorage] is its one key, ["token"].  A React handler
    is the state it reads and the state its [set...] calls leave. *)

Module Client.

(** [localStorage.getItem("token")]: [None] is [null]. *)
Definition LocalStorage := option string.

(** [data.key] of a response body that is an object literal:
    [undefined] ([None]) when it has no such key.  The bodies the
    handlers build from documents are read whole, never by key. *)
Definition field (key : string) (data : Json) : option Value :=
  match data with
  | JObject fs =>
      option_map snd (List.find (fun kv => String.eqb (fst kv) key) fs)
  | _ => None
  end.

(** [String(v)], as [localStorage.setItem] stores its value. *)
Definition stored (v : option Value) : string :=
  match v with
  | Some (VString s) => s
  | Some (VId i) => toString i
  | Some VNull => "null"
  | None => "undefined"
  end.

(** [v || fallback] for a message. *)
Definition orElse (v : option Value) (fallback : string) : string :=
  match v with
  | Some (VString s) => if JsString.truthy s then s else fallback
  | Some (VId i) => toString i
  | Some VNull => fallback
  | None => fallback
  end.

(** How a promise of axios settles; [Unanswered] is a request the server
    never wrote a response to. *)
Inductive Settled (A : Type) : Type :=
| Resolved (a : A)
| Rejected (status : nat) (data : Json)
| Unanswered.

(** How an awaited callback ends. *)
Inductive Outcome : Type := Done | Thrown | Pending.

Arguments Resolved {A} a.
Arguments Rejected {A} status data.
Arguments Unanswered {A}.

Section Api.

Context {P : Platform}.

(** The request interceptor of the axios instance. *)
Definition interceptor (storage : LocalStorage) (config : Request) : Request :=
  let token := storage in
  if JsString.truthy_opt token
  then mkRequest (Some ("Bearer " ++ JsString.value token)%string)
                 (params_id config) (body config) (user config)
  else config.

(** [API.get], [API.post], [API.delete]: the request reaches its route at
    time [t]; the default [validateStatus] of axios resolves on
    [200 <= status < 300]. *)
Definition send (route : Request -> World -> World) (config : Request)
    (storage : LocalStorage) (t : Time) (w : World) : Settled Json * World :=
  let w' := route (interceptor storage config) (nextRequest t w) in
  (match sent (res w') with
   | [] => Unanswered
   | (status, data) :: _ =>
       if Nat.leb 200 status && Nat.ltb status 300
       then Resolved data else Rejected status data
   end, w').

Definition fetchTrips (storage : LocalStorage) (t : Time) (w : World)
  : Settled Json * World :=
  send GET_trips (mkRequest None "" emptyBody None) storage t w.

(** A stop as the pages hold it.  A coordinate is what [parseFloat] gave;
    [None] is [NaN], which goes over the wire as [null]. *)
Record Stop : Type := mkStop {
  stop_name : string;
  stop_latitude : option Number;
  stop_longitude : option Number
}.

(** What a trip form submits. *)
Record TripData : Type := mkTripData {
  data_title : string;
  data_description : string;
  data_locations : list Stop
}.

(** The JSON body of a [TripData]. *)
Definition wire (s : Stop) : LocationInput :=
  mkLocationInput (Some (stop_name s)) (stop_latitude s) (stop_longitude s).

Definition tripBody (d : TripData) : Body :=
  mkBody None None None (Some (data_title d)) (Some (data_description d))
         (Some (map wire (data_locations d))).

Definition createTrip (tripData : TripData) (storage : LocalStorage)
    (t : Time) (w : World) : Settled Json * World :=
  send POST_trips (mkRequest None "" (tripBody tripData) None) storage t w.

(** [API.delete(`/trips/${tripId}`)]: the identifier goes into the path
    as the string the page holds it as. *)
Definition deleteTrip (tripId : ObjectId) (storage : LocalStorage)
    (t : Time) (w : World) : Settled Json * World :=
  send DELETE_trip (mkRequest None (toString tripId) emptyBody None) storage t w.

(** The user object the two auth calls return: [_id], [username] and
    [email] of the response body. *)
Record Account : Type := mkAccount {
  account_id : option Value;
  account_username : option Value;
  account_email : option Value
}.

(** The fields of the auth form; [loginUser] is given the last two. *)
Record FormData : Type := mkFormData {
  form_username : string;
  form_email : string;
  form_password : string
}.

(** [signupUser]: on success the token of the response goes to
    [localStorage] and the user information is returned. *)
Definition signupUser (userData : FormData) (storage : LocalStorage)
    (t : Time) (w : World) : Settled Account * LocalStorage * World :=
  let b := mkBody (Some (form_username userData)) (Some (form_email userData))
                  (Some (form_password userData)) None None None in
  match send POST_signup (mkRequest None "" b None) storage t w with
  | (Resolved data, w') =>
      (Resolved (mkAccount (field "_id" data) (field "username" data)
                           (field "email" data)),
       Some (stored (field "token" data)), w')
  | (Rejected status data, w') => (Rejected status data, storage, w')
  | (Unanswered, w') => (Unanswered, storage, w')
  end.

(** [loginUser], likewise, with the credentials [{ email, password }]. *)
Definition loginUser (email_ password_ : string) (storage : LocalStorage)
    (t : Time) (w : World) : Settled Account * LocalStorage * World :=
  let b := mkBody None (Some email_) (Some password_) None None None in
  match send POST_login (mkRequest None "" b None) storage t w with
  | (Resolved data, w') =>
      (Resolved (mkAccount (field "_id" data) (field "username" data)
                           (field "email" data)),
       Some (stored (field "token" data)), w')
  | (Rejected status data, w') => (Rejected status data, storage, w')
  | (Unanswered, w') => (Unanswered, storage, w')
  end.

(* ------------------------------------------------------------------ *)
(** ** App *)

(** The pages [navigate] is ever called with. *)
Inductive Page : Type := home | auth | profile.

Record App : Type := mkApp {
  app_user : option Account;
  app_page : Page
}.

(** [handleLogout] *)
Definition handleLogout (a : App) (storage : LocalStorage) : App * LocalStorage :=
  (mkApp None auth, None).

(** The effect run on initial load. *)
Definition onLoad (a : App) (storage : LocalStorage) : App :=
  if JsString.truthy_opt storage then mkApp (app_user a) home
  else mkApp (app_user a) auth.

Definition isAuth (p : Page) : bool :=
  match p with
  | auth => true
  | _ => false
  end.

(** [CurrentPage]; [PAGES[page]] is defined for each of the three pages,
    so the [|| PAGES.home] is not reached. *)
Definition CurrentPage (a : App) : Page :=
  if (match app_user a with Some _ => true | None => false end)
     || isAuth (app_page a)
  then app_page a
  else auth.

(* ------------------------------------------------------------------ *)
(** ** pages/Auth *)

Record AuthForm : Type := mkAuthForm {
  isLogin : bool;
  formData : FormData;
  auth_error : option string
}.

(** [handleSubmit] of the Auth page. *)
Definition Auth_handleSubmit (f : AuthForm) (a : App) (storage : LocalStorage)
    (t : Time) (w : World) : AuthForm * App * LocalStorage * World :=
  let cleared := mkAuthForm (isLogin f) (formData f) None in
  let call :=
    if isLogin f
    then loginUser (form_email (formData f)) (form_password (formData f))
    else signupUser (formData f) in
  match call storage t w with
  | (Resolved userData, storage', w') =>
      (cleared, mkApp (Some userData) home, storage', w')
  | (Rejected _ data, storage', w') =>
      (mkAuthForm (isLogin f) (formData f)
                  (Some (orElse (field "error" data) "Authentication failed.")),
       a, storage', w')
  | (Unanswered, storage', w') => (cleared, a, storage', w')
  end.

(* ------------------------------------------------------------------ *)
(** ** pages/Home *)

Record Home : Type := mkHome {
  home_trips : list PopulatedTrip;
  showForm : bool;
  isLoading : bool;
  apiError : option string
}.

(** The array a resolved [fetchTrips] carries. *)
Definition tripsOf (data : Json) : list PopulatedTrip :=
  match data with
  | JTrips ts => ts
  | _ => []
  end.

(** [loadTrips] *)
Definition loadTrips (h : Home) (storage : LocalStorage) (t : Time) (w : World)
  : Home * World :=
  match fetchTrips storage t w with
  | (Resolved data, w') => (mkHome (tripsOf data) (showForm h) false None, w')
  | (Rejected _ data, w') =>
      (mkHome (home_trips h) (showForm h) false
         (Some (orElse (field "error" data)
                  "Failed to load trips. You might need to log in again.")),
       w')
  | (Unanswered, w') => (mkHome (home_trips h) (showForm h) true None, w')
  end.

(** [handleAddTrip]: the creation at time [t], then the reload at time
    [t'].  It catches what [createTrip] rejects with, so once the request
    is answered the promise it returns resolves. *)
Definition handleAddTrip (t t' : Time) (storage : LocalStorage)
    (tripData : TripData) (st : Home * World) : Outcome * (Home * World) :=
  let (h, w) := st in
  match createTrip tripData storage t w with
  | (Resolved _, w') =>
      (Done, loadTrips (mkHome (home_trips h) false (isLoading h) None)
                       storage t' w')
  | (Rejected _ data, w') =>
      (Done, (mkHome (home_trips h) (showForm h) (isLoading h)
                (Some (orElse (field "error" data) "Failed to create trip.")),
              w'))
  | (Unanswered, w') =>
      (Pending, (mkHome (home_trips h) (showForm h) (isLoading h) None, w'))
  end.

(** [handleDeleteTrip], with the answer given to [window.confirm]. *)
Definition handleDeleteTrip (confirmed : bool) (t t' : Time)
    (storage : LocalStorage) (tripId : ObjectId) (st : Home * World)
  : Home * World :=
  let (h, w) := st in
  if negb confirmed then st
  else
    match deleteTrip tripId storage t w with
    | (Resolved _, w') =>
        loadTrips (mkHome (home_trips h) (showForm h) (isLoading h) None)
                  storage t' w'
    | (Rejected _ data, w') =>
        (mkHome (home_trips h) (showForm h) (isLoading h)
           (Some (orElse (field "error" data)
                    "Failed to delete trip. Check ownership.")),
         w')
    | (Unanswered, w') =>
        (mkHome (home_trips h) (showForm h) (isLoading h) None, w')
    end.

End Api.

(* ------------------------------------------------------------------ *)
(** ** components/TripForm *)

Record TripForm : Type := mkTripForm {
  form_title : string;
  form_description : string;
  form_locations : list Stop;
  currentLocationName : string;
  isSubmitting : bool;
  isGeocoding : bool;
  form_error : option string
}.

(** What the geocoding request came back with: the first match, its
    [lat] and [lon] as [parseFloat] reads them; an empty array; or a
    failure of the request. *)
Inductive Geocoded : Type :=
| Found (lat lon : option Number)
| NotFound
| Failed.

Definition quote : string := String (ascii_of_nat 34) EmptyString.

(** [handleGeocodeAndAddLocation] *)
Definition handleGeocodeAndAddLocation (outcome : Geocoded) (f : TripForm)
  : TripForm :=
  let nameToSearch := JsString.trim (currentLocationName f) in
  if negb (JsString.truthy nameToSearch) then
    mkTripForm (form_title f) (form_description f) (form_locations f)
               (currentLocationName f) (isSubmitting f) (isGeocoding f)
               (Some "Location name cannot be empty.")
  else
    match outcome with
    | Found lat lon =>
        mkTripForm (form_title f) (form_description f)
                   (form_locations f ++ [mkStop nameToSearch lat lon])
                   "" (isSubmitting f) false None
    | NotFound =>
        mkTripForm (form_title f) (form_description f) (form_locations f)
                   (currentLocationName f) (isSubmitting f) false
                   (Some ("Could not find coordinates for: " ++ quote
                          ++ nameToSearch ++ quote
                          ++ ". Try a more specific name.")%string)
    | Failed =>
        mkTripForm (form_title f) (form_description f) (form_locations f)
                   (currentLocationName f) (isSubmitting f) false
                   (Some "Geocoding service failed. Check internet connection or server status.")
    end.

(** [array.filter((_, index) => keep(index))], counting from [from]. *)
Fixpoint filterIndex {A} (keep : nat -> bool) (from : nat) (l : list A) : list A :=
  match l with
  | [] => []
  | x :: r =>
      if keep from then x :: filterIndex keep (S from) r
      else filterIndex keep (S from) r
  end.

(** [handleRemoveLocation] *)
Definition handleRemoveLocation (indexToRemove : nat) (f : TripForm) : TripForm :=
  mkTripForm (form_title f) (form_description f)
             (filterIndex (fun index => negb (Nat.eqb index indexToRemove)) 0
                          (form_locations f))
             (currentLocationName f) (isSubmitting f) (isGeocoding f) None.

(** [handleSubmit] of the form, over whatever state [onSubmit] works
    on. *)
Definition handleSubmit {St : Type} (onSubmit : TripData -> St -> Outcome * St)
    (f : TripForm) (st : St) : TripForm * St :=
  if negb (JsString.truthy (JsString.trim (form_title f)))
     || Nat.eqb (length (form_locations f)) 0
  then
    (mkTripForm (form_title f) (form_description f) (form_locations f)
                (currentLocationName f) (isSubmitting f) (isGeocoding f)
                (Some "Please provide a title and at least one location stop."),
     st)
  else
    let newTrip := mkTripData (JsString.trim (form_title f))
                              (JsString.trim (form_description f))
                              (form_locations f) in
    match onSubmit newTrip st with
    | (Done, st') =>
        (mkTripForm "" "" [] (currentLocationName f) false (isGeocoding f) None,
         st')
    | (Thrown, st') =>
        (mkTripForm (form_title f) (form_description f) (form_locations f)
                    (currentLocationName f) false (isGeocoding f) None,
         st')
    | (Pending, st') =>
        (mkTripForm (form_title f) (form_description f) (form_locations f)
                    (currentLocationName f) true (isGeocoding f) None,
         st')
    end.

(* ------------------------------------------------------------------ *)
(** ** components/TripMap *)

Definition defaultCenter : Number * Number :=
  ((407128 # 10000)%Q, (-740060 # 10000)%Q).

(** Truthiness of a number: zero is falsy. *)
Definition truthyNumber (x : Number) : bool := negb (Qeq_bool x 0).

(** A marker: its position, the title of its trip, and the stop's name
    or, when that is empty, the stop's rank for [Location <rank>]. *)
Record Marker : Type := mkMarker {
  marker_position : Number * Number;
  marker_trip : string;
  marker_stop : string + nat
}.

Record MapView : Type := mkMapView {
  map_center : Number * Number;
  map_zoom : nat;
  map_markers : list Marker
}.

(** [array.map((x, index) => f(x, index))], counting from [from]. *)
Fixpoint mapIndex {A B} (f : A -> nat -> B) (from : nat) (l : list A) : list B :=
  match l with
  | [] => []
  | x :: r => f x from :: mapIndex f (S from) r
  end.

Definition position (loc : Location) : Number * Number :=
  (latitude loc, longitude loc).

(** [TripMap], on the trips of a listing. *)
Definition TripMap (trips : list Trip) : MapView :=
  if Nat.eqb (length trips) 0
     || forallb (fun trip => Nat.eqb (length (locations trip)) 0) trips
  then mkMapView defaultCenter 2 []
  else
    let allLocations :=
      filter (fun loc => truthyNumber (latitude loc) && truthyNumber (longitude loc))
             (flat_map locations trips) in
    let mapCenter :=
      match allLocations with
      | loc :: _ => position loc
      | [] => defaultCenter
      end in
    mkMapView mapCenter 5
      (flat_map (fun trip =>
                   mapIndex (fun loc index =>
                               mkMarker (position loc) (title trip)
                                 (if JsString.truthy (name loc)
                                  then inl (name loc) else inr (index + 1)))
                            0 (locations trip))
                trips).

End Client.

(* ================================================================== *)
(** * Properties of the client *)

(* ------------------------------------------------------------------ *)
(** ** Trimming *)

(** The string begins with a white-space character. *)
Definition headSpace (s : string) : bool :=
  match s with
  | EmptyString => false
  | String a r =>
      JsString.isSpace1 a
      || match r with
         | EmptyString => false
         | String b r2 =>
             JsString.isSpace2 a b
             || match r2 with
                | EmptyString => false
                | String c _ => JsString.isSpace3 a b c
                end
         end
  end.

Lemma trimStart_fixed (s : string) :
  headSpace s = false -> JsString.trimStart s = s.
Proof.
  destruct s as [|a [|b [|c r]]]; simpl; try reflexivity.
  - intros H. rewrite orb_false_r in H. now rewrite H.
  - intros H. apply orb_false_iff in H as [H1 H2].
    rewrite orb_false_r in H2. now rewrite H1, H2.
  - intros H. apply orb_false_iff in H as [H1 H2].
    apply orb_false_iff in H2 as [H2 H3]. now rewrite H1, H2, H3.
Qed.

Lemma trimStart_head_upto (n : nat) :
  forall s, String.length s <= n -> headSpace (JsString.trimStart s) = false.
Proof.
  induction n as [|n IH]; intros s Hs.
  - destruct s; [reflexivity|simpl in Hs; lia].
  - destruct s as [|a [|b [|c r]]]; simpl in *; try reflexivity.
    + destruct (JsString.isSpace1 a) eqn:E1; [reflexivity|]. simpl. now rewrite E1.
    + destruct (JsString.isSpace1 a) eqn:E1.
      { apply (IH (String b "")). simpl. lia. }
      destruct (JsString.isSpace2 a b) eqn:E2; [reflexivity|].
      simpl. now rewrite E1, E2.
    + destruct (JsString.isSpace1 a) eqn:E1.
      { apply (IH (String b (String c r))). simpl. lia. }
      destruct (JsString.isSpace2 a b) eqn:E2.
      { apply (IH (String c r)). simpl. lia. }
      destruct (JsString.isSpace3 a b c) eqn:E3.
      { apply IH. lia. }
      simpl. now rewrite E1, E2, E3.
Qed.

Lemma trimStart_head (s : string) : headSpace (JsString.trimStart s) = false.
Proof. now apply (trimStart_head_upto (String.length s)). Qed.

Lemma headSpace_app (p u : string) :
  headSpace (p ++ u) = false -> headSpace p = false.
Proof.
  destruct p as [|a [|b [|c r]]]; simpl; try reflexivity.
  - destruct u as [|b [|c r]]; simpl; intros H;
      apply orb_false_iff in H as [H _]; now rewrite H.
  - destruct u as [|c r]; simpl; intros H.
    + exact H.
    + apply orb_false_iff in H as [H1 H2].
      apply orb_false_iff in H2 as [H2 _]. now rewrite H1, H2.
  - trivial.
Qed.

(** A blank prefix is stripped whatever follows it. *)
Lemma trimStart_blank_app_upto (n : nat) :
  forall p u, String.length p <= n -> JsString.trimStart p = "" ->
  JsString.trimStart (p ++ u) = JsString.trimStart u.
Proof.
  induction n as [|n IH]; intros p u Hp Hb.
  - destruct p; [reflexivity|simpl in Hp; lia].
  - destruct p as [|a [|b [|c r]]]; simpl in *; try reflexivity.
    + destruct (JsString.isSpace1 a) eqn:E1; [reflexivity|discriminate].
    + destruct (JsString.isSpace1 a) eqn:E1.
      { apply (IH (String b "") u); [simpl; lia|exact Hb]. }
      destruct (JsString.isSpace2 a b) eqn:E2; [|discriminate].
      destruct u; reflexivity.
    + destruct (JsString.isSpace1 a) eqn:E1.
      { apply (IH (String b (String c r)) u); [simpl; lia|exact Hb]. }
      destruct (JsString.isSpace2 a b) eqn:E2.
      { apply (IH (String c r) u); [simpl; lia|exact Hb]. }
      destruct (JsString.isSpace3 a b c) eqn:E3; [|discriminate].
      apply IH; [lia|exact Hb].
Qed.

Lemma isBlank_app (p u : string) :
  JsString.isBlank p = true -> JsString.isBlank u = true ->
  JsString.isBlank (p ++ u) = true.
Proof.
  unfold JsString.isBlank. intros Hp Hu. apply String.eqb_eq in Hp.
  now rewrite (trimStart_blank_app_upto (String.length p) p u (le_n _) Hp).
Qed.

(** [trimEnd] cuts off a blank suffix. *)
Lemma trimEnd_suffix (s : string) :
  exists u, s = (JsString.trimEnd s ++ u)%string /\ JsString.isBlank u = true.
Proof.
  induction s as [|c r [u [Hr Hu]]].
  - exists "". split; reflexivity.
  - simpl JsString.trimEnd.
    destruct (JsString.isBlank (String c r)) eqn:E.
    + exists (String c r). split; [reflexivity|exact E].
    + exists u. split; [|exact Hu]. simpl. now rewrite <- Hr.
Qed.

Lemma trimEnd_blank (s : string) :
  JsString.isBlank (JsString.trimEnd s) = true -> JsString.isBlank s = true.
Proof.
  intros H. destruct (trimEnd_suffix s) as [u [Hs Hu]].
  rewrite Hs. now apply isBlank_app.
Qed.

Lemma trimEnd_idempotent (s : string) :
  JsString.trimEnd (JsString.trimEnd s) = JsString.trimEnd s.
Proof.
  induction s as [|c r IH]; [reflexivity|].
  pose proof (trimEnd_blank (String c r)) as Hb.
  simpl JsString.trimEnd in *.
  destruct (JsString.isBlank (String c r)) eqn:E; [reflexivity|].
  simpl JsString.trimEnd.
  destruct (JsString.isBlank (String c (JsString.trimEnd r))) eqn:E'.
  - specialize (Hb eq_refl). discriminate.
  - now rewrite IH.
Qed.

Lemma trimEnd_head (s : string) :
  headSpace s = false -> headSpace (JsString.trimEnd s) = false.
Proof.
  intros H. destruct (trimEnd_suffix s) as [u [Hs _]].
  rewrite Hs in H. now apply headSpace_app in H.
Qed.

Lemma trim_idempotent (s : string) :
  JsString.trim (JsString.trim s) = JsString.trim s.
Proof.
  unfold JsString.trim.
  rewrite (trimStart_fixed (JsString.trimEnd (JsString.trimStart s))).
  - apply trimEnd_idempotent.
  - apply trimEnd_head, trimStart_head.
Qed.

(* ------------------------------------------------------------------ *)
(** ** Requests with and without a token *)

Lemma send_without_token `{P : Platform} (next : Request -> World -> World)
    (config : Request) (storage : Client.LocalStorage) (t : Time) (w : World) :
  JsString.truthy_opt storage = false ->
  authorization config = None ->
  Client.send (protect next) config storage t w =
  (Client.Rejected 401 (JObject [("error", VString "Not authorized, no token")]),
   unauthorized "Not authorized, no token" (nextRequest t w)).
Proof.
  intros Hs Ha. unfold Client.send, Client.interceptor. rewrite Hs.
  rewrite protect_no_bearer; [reflexivity|].
  unfold hasBearer. now rewrite Ha.
Qed.

Lemma interceptor_with_token (tok : string) (config : Request) :
  tok <> "" ->
  Client.interceptor (Some tok) config =
  mkRequest (Some ("Bearer " ++ tok)%string) (params_id config) (body config)
            (user config).
Proof.
  intros H. unfold Client.interceptor. simpl.
  apply truthy_true in H. now rewrite H.
Qed.

(** With a token that verifies, a protected request reaches its handler
    carrying the account the token names. *)
Lemma send_with_token `{P : Platform} (fn : Request -> M unit)
    (config : Request) (tok secret : string) (owner : User)
    (t : Time) (w : World) :
  tok <> "" -> JsString.lacks " " tok = true ->
  JWT_SECRET (env w) = Some secret -> secret <> "" ->
  jwt_verify tok secret t = Some (user_id owner) ->
  find_user (fun u => N.eqb (user_id u) (user_id owner)) (users w) = Some owner ->
  protect (asyncHandler fn) (Client.interceptor (Some tok) config) (nextRequest t w)
  = asyncHandler fn
      (mkRequest (Some ("Bearer " ++ tok)%string) (params_id config) (body config)
                 (Some (select_minus_password owner)))
      (nextRequest t w).
Proof.
  intros Hne Hl Hs Hsne Hv Hf.
  rewrite (interceptor_with_token tok config Hne).
  rewrite (protect_run (asyncHandler fn) _ (nextRequest t w) tok secret
             (user_id owner)); trivial.
  simpl users. now rewrite Hf.
Qed.

(** X18.  Without a token in [localStorage] (none, or the empty string),
    the interceptor adds no header, and each of the three trip calls of the
    API service is rejected with 401 "Not authorized, no token"; the
    server's store is not touched. *)
Theorem no_token_no_access `{P : Platform} (storage : Client.LocalStorage)
    (tripData : Client.TripData) (tripId : ObjectId) (t : Time) (w : World) :
  JsString.truthy_opt storage = false ->
  let denied :=
    Client.Rejected 401 (JObject [("error", VString "Not authorized, no token")]) in
  (fst (Client.fetchTrips storage t w) = denied
   /\ sameStore w (snd (Client.fetchTrips storage t w)))
  /\ (fst (Client.createTrip tripData storage t w) = denied
      /\ sameStore w (snd (Client.createTrip tripData storage t w)))
  /\ (fst (Client.deleteTrip tripId storage t w) = denied
      /\ sameStore w (snd (Client.deleteTrip tripId storage t w))).
Proof.
  intros Hs denied.
  unfold Client.fetchTrips, Client.createTrip, Client.deleteTrip,
    GET_trips, POST_trips, DELETE_trip.
  rewrite !send_without_token by (assumption || reflexivity).
  repeat split.
Qed.

Lemma no_token_no_access_witness :
  fst (Client.deleteTrip (P := Sample.platform) 3 None 1001 Sample.world0)
  = Client.Rejected 401 (JObject [("error", VString "Not authorized, no token")])
  /\ sameStore Sample.world0
       (snd (Client.deleteTrip (P := Sample.platform) 3 None 1001 Sample.world0)).
Proof.
  apply (no_token_no_access (P := Sample.platform) None
           (Client.mkTripData "" "" []) 3 1001 Sample.world0 eq_refl).
Defined.

(* ------------------------------------------------------------------ *)
(** ** Signing in from the Auth page *)

Lemma POST_login_accepts `{P : Platform} (req : Request) (w : World)
    (u : User) (p secret : string) :
  res w = freshResponse ->
  JWT_SECRET (env w) = Some secret -> secret <> "" ->
  fst (User_findOne (body_email (body req)) w) = inr (Some u) ->
  body_password (body req) = Some p ->
  bcrypt_compare p (password u) = true ->
  POST_login req w =
  set_res (mkResponse 200
             [(200, accountJson (user_id u) (username u) (email u)
                      (jwt_sign (user_id u) secret expiresIn_30d (now w)))]) w.
Proof.
  intros Hr Hs Hne Hfind Hp Hcmp.
  assert (Hstate : forall o, snd (User_findOne o w) = w).
  { intros [e|]; reflexivity. }
  unfold POST_login, asyncHandler, loginUser. unfold bind at 1.
  specialize (Hstate (body_email (body req))).
  destruct (User_findOne (body_email (body req)) w) as [r w1].
  simpl in Hstate, Hfind. subst w1 r.
  rewrite Hp. unfold matchPassword, generateToken. run. rewrite Hcmp. simpl.
  rewrite Hs. simpl. apply truthy_true in Hne. rewrite Hne, Hr. reflexivity.
Qed.

Lemma POST_login_rejects `{P : Platform} (req : Request) (w : World) :
  res w = freshResponse ->
  fst (User_findOne (body_email (body req)) w) = inr None
  \/ (exists u p,
        fst (User_findOne (body_email (body req)) w) = inr (Some u)
        /\ body_password (body req) = Some p
        /\ bcrypt_compare p (password u) = false) ->
  POST_login req w =
  set_res (errorAnswer w 401 (Error "Invalid email or password")) w.
Proof.
  intros Hr Hcase.
  assert (Hstate : forall o, snd (User_findOne o w) = w).
  { intros [e|]; reflexivity. }
  unfold POST_login, asyncHandler, loginUser. unfold bind at 1.
  specialize (Hstate (body_email (body req))).
  destruct (User_findOne (body_email (body req)) w) as [r w1].
  simpl in Hstate. subst w1.
  destruct Hcase as [Hnone | [u [p [Hsome [Hp Hcmp]]]]]; simpl in *; subst r.
  - run. now rewrite Hr.
  - rewrite Hp. unfold matchPassword. run. rewrite Hcmp. simpl.
    now rewrite Hr.
Qed.

(** X19.  Signing in opens a session: when the Auth page submits, in
    login mode, the email and password of a stored account, the token of
    the answer is put in [localStorage], the app holds that account and
    shows the Home page; and [loadTrips], at any time within 30 days, then
    resolves with exactly that account's trips.  The token library is taken
    by its contract, and the token it issues is not the empty string. *)
Theorem sign_in_then_load `{P : Platform} (f : Client.AuthForm) (a : Client.App)
    (storage : Client.LocalStorage) (h : Client.Home) (t t' : Time) (w : World)
    (u : User) (secret : string) :
  jwt_contract P ->
  Client.isLogin f = true ->
  JWT_SECRET (env w) = Some secret -> secret <> "" ->
  fst (User_findOne (Some (Client.form_email (Client.formData f))) w)
  = inr (Some u) ->
  bcrypt_compare (Client.form_password (Client.formData f)) (password u) = true ->
  let token := jwt_sign (user_id u) secret expiresIn_30d t in
  token <> "" ->
  (t' < t + 2592000)%Z ->
  let '(f1, a1, storage1, w1) := Client.Auth_handleSubmit f a storage t w in
  let '(h2, w2) := Client.loadTrips h storage1 t' w1 in
  storage1 = Some token
  /\ a1 = Client.mkApp
            (Some (Client.mkAccount (Some (VId (user_id u)))
                                    (Some (VString (username u)))
                                    (Some (VString (email u)))))
            Client.home
  /\ Client.CurrentPage a1 = Client.home
  /\ Client.auth_error f1 = None
  /\ Client.home_trips h2 = listing w (user_id u)
  /\ Client.apiError h2 = None /\ Client.isLoading h2 = false
  /\ sameStore w w2.
Proof.
  intros [HJ HW] Hlogin Hs Hsne Hfind Hcmp token Htok Ht'.
  unfold Client.Auth_handleSubmit. rewrite Hlogin.
  unfold Client.loginUser, Client.send.
  rewrite (POST_login_accepts _ (nextRequest t w) u
             (Client.form_password (Client.formData f)) secret);
    trivial.
  2: { unfold Client.interceptor. now destruct (JsString.truthy_opt storage). }
  2: { unfold Client.interceptor. now destruct (JsString.truthy_opt storage). }
  simpl.
  assert (Hin : In u (users w)).
  { simpl in Hfind. injection Hfind as Hfind.
    now apply find_some in Hfind as [Hin _]. }
  destruct (find_user (fun v => N.eqb (user_id v) (user_id u)) (users w))
    as [owner|] eqn:Hown.
  2: { pose proof (find_none _ _ Hown u Hin) as Hno. simpl in Hno.
       rewrite N.eqb_refl in Hno. discriminate. }
  assert (Hid : user_id owner = user_id u).
  { apply find_some in Hown as [_ Hid]. now apply N.eqb_eq in Hid. }
  unfold Client.loadTrips, Client.fetchTrips, Client.send, GET_trips.
  fold token.
  rewrite (send_with_token getTrips _ token secret owner t'); trivial.
  - erewrite getTrips_run; [|reflexivity|reflexivity].
    simpl. rewrite Hid. repeat split.
  - apply HW.
  - rewrite Hid. apply HJ. exact Ht'.
  - simpl. now rewrite Hid.
Qed.

Lemma sign_in_then_load_witness :
  let f := Client.mkAuthForm true (Client.mkFormData "" " Alice@x.com" "pw123456") None in
  let a := Client.mkApp None Client.auth in
  let h := Client.mkHome [] false true None in
  let '(f1, a1, storage1, w1) :=
    Client.Auth_handleSubmit (P := Sample.platform) f a None 1001 Sample.world0 in
  let '(h2, w2) := Client.loadTrips (P := Sample.platform) h storage1 1002 w1 in
  storage1 = Some (Sample.sign 1 "s3cret" 2592000 1001)
  /\ Client.CurrentPage a1 = Client.home
  /\ map populated_trip (Client.home_trips h2) = [Sample.coastal; Sample.harbour].
Proof.
  intros f a h.
  assert (Hsecret : "s3cret" <> "") by discriminate.
  assert (Htoken : jwt_sign (Platform := Sample.platform) (user_id Sample.alice)
                     "s3cret" expiresIn_30d 1001 <> "") by discriminate.
  assert (Htime : (1002 < 1001 + 2592000)%Z) by reflexivity.
  pose proof (sign_in_then_load (P := Sample.platform) f a None h 1001 1002
                Sample.world0 Sample.alice "s3cret" SampleFacts.jwt_ok
                eq_refl eq_refl Hsecret eq_refl eq_refl Htoken Htime) as H.
  destruct (Client.Auth_handleSubmit f a None 1001 Sample.world0)
    as [[[f1 a1] storage1] w1].
  destruct (Client.loadTrips h storage1 1002 w1) as [h2 w2].
  destruct H as [H1 [_ [H3 [_ [H5 _]]]]].
  split; [exact H1|]. split; [exact H3|]. now rewrite H5.
Defined.

(** X20.  A refused login changes nothing on the client but the message:
    when the Auth page submits, in login mode, an email no stored account
    has, or a password that does not match, the page shows the server's
    "Invalid email or password", while [localStorage], the signed-in user
    and the page shown stay as they were, and so does the server's
    store. *)
Theorem refused_login_keeps_session `{P : Platform} (f : Client.AuthForm)
    (a : Client.App) (storage : Client.LocalStorage) (t : Time) (w : World) :
  Client.isLogin f = true ->
  fst (User_findOne (Some (Client.form_email (Client.formData f))) w) = inr None
  \/ (exists u,
        fst (User_findOne (Some (Client.form_email (Client.formData f))) w)
        = inr (Some u)
        /\ bcrypt_compare (Client.form_password (Client.formData f)) (password u)
           = false) ->
  let '(f1, a1, storage1, w1) := Client.Auth_handleSubmit f a storage t w in
  Client.auth_error f1 = Some "Invalid email or password"
  /\ Client.formData f1 = Client.formData f
  /\ a1 = a /\ storage1 = storage /\ sameStore w w1.
Proof.
  intros Hlogin Hcase.
  unfold Client.Auth_handleSubmit. rewrite Hlogin.
  unfold Client.loginUser, Client.send.
  rewrite (POST_login_rejects _ (nextRequest t w)); [|reflexivity|].
  - simpl. repeat split.
  - unfold Client.interceptor.
    destruct (JsString.truthy_opt storage); simpl.
    + destruct Hcase as [H | [u [H1 H2]]]; [now left|].
      right. exists u, (Client.form_password (Client.formData f)). auto.
    + destruct Hcase as [H | [u [H1 H2]]]; [now left|].
      right. exists u, (Client.form_password (Client.formData f)). auto.
Qed.

Lemma refused_login_keeps_session_witness :
  let f := Client.mkAuthForm true (Client.mkFormData "" "alice@x.com" "wrong") None in
  let a := Client.mkApp None Client.auth in
  let '(f1, a1, storage1, w1) :=
    Client.Auth_handleSubmit (P := Sample.platform) f a None 1001 Sample.world0 in
  Client.auth_error f1 = Some "Invalid email or password"
  /\ a1 = a /\ storage1 = None.
Proof.
  intros f a.
  assert (Hcase : exists u,
             fst (User_findOne (P := Sample.platform)
                    (Some (Client.form_email (Client.formData f)))
                    Sample.world0) = inr (Some u)
             /\ bcrypt_compare (Platform := Sample.platform)
                  (Client.form_password (Client.formData f)) (password u) = false).
  { exists Sample.alice. split; reflexivity. }
  pose proof (refused_login_keeps_session (P := Sample.platform) f a None 1001
                Sample.world0 eq_refl (or_intror Hcase)) as H.
  destruct (Client.Auth_handleSubmit f a None 1001 Sample.world0)
    as [[[f1 a1] storage1] w1].
  destruct H as [H1 [_ [H3 [H4 _]]]]. auto.
Defined.

(** X21.  Signed out means locked out: whatever page is asked for, an app
    without a user shows the Auth page; so it does after a load that finds
    a token in [localStorage], since the load navigates but sets no user.
    [handleLogout] leaves no user, no token and the Auth page, and with
    the emptied [localStorage] a following [loadTrips] is refused: the Home
    page is told "Not authorized, no token" and keeps the trips it had. *)
Theorem signed_out_locked_out `{P : Platform} (a : Client.App)
    (storage : Client.LocalStorage) (h : Client.Home) (t : Time) (w : World) :
  (Client.app_user a = None -> Client.CurrentPage a = Client.auth)
  /\ (Client.app_user a = None ->
      Client.CurrentPage (Client.onLoad a storage) = Client.auth)
  /\ (let '(a', storage') := Client.handleLogout a storage in
      Client.CurrentPage a' = Client.auth
      /\ storage' = None
      /\ let '(h', w') := Client.loadTrips h storage' t w in
         Client.apiError h' = Some "Not authorized, no token"
         /\ Client.home_trips h' = Client.home_trips h
         /\ sameStore w w').
Proof.
  split; [|split].
  - intros Hu. unfold Client.CurrentPage. rewrite Hu.
    now destruct (Client.app_page a).
  - intros Hu. unfold Client.CurrentPage, Client.onLoad.
    destruct (JsString.truthy_opt storage); simpl; now rewrite Hu.
  - unfold Client.handleLogout. cbv beta iota.
    split; [reflexivity|]. split; [reflexivity|].
    unfold Client.loadTrips, Client.fetchTrips, GET_trips.
    rewrite send_without_token by reflexivity. simpl. repeat split.
Qed.

(* ------------------------------------------------------------------ *)
(** ** The trip form *)

(** A stop as [handleGeocodeAndAddLocation] makes them when the geocoder
    gave numbers: a name that is trimmed and not empty, two coordinates. *)
Definition readyStop (s : Client.Stop) : Prop :=
  JsString.trim (Client.stop_name s) = Client.stop_name s
  /\ Client.stop_name s <> ""
  /\ Client.stop_latitude s <> None /\ Client.stop_longitude s <> None.

(** The stored location says what the stop of the form said. *)
Definition storedAs (s : Client.Stop) (l : Location) : Prop :=
  name l = Client.stop_name s
  /\ Client.stop_latitude s = Some (latitude l)
  /\ Client.stop_longitude s = Some (longitude l).

Lemma ready_stops_validate (stops : list Client.Stop) :
  Forall readyStop stops ->
  exists ls,
    validateLocations (map castLocation (map Client.wire stops)) = Some ls
    /\ Forall2 storedAs stops ls.
Proof.
  induction 1 as [|s stops [Htrim [Hne [Hla Hlo]]] _ [ls [Hval Hall]]].
  - exists []. split; [reflexivity|constructor].
  - destruct (Client.stop_latitude s) as [la|] eqn:Ela; [|now elim Hla].
    destruct (Client.stop_longitude s) as [lo|] eqn:Elo; [|now elim Hlo].
    exists (mkLocation (Client.stop_name s) la lo :: ls). split.
    + simpl. unfold validateLocation. simpl. rewrite Ela, Elo, Htrim.
      apply String.eqb_neq in Hne. rewrite Hne, Hval. reflexivity.
    + constructor; [|exact Hall]. unfold storedAs. simpl. auto.
Qed.

(** X22.  What the trip form submits, the server stores: with a token in
    [localStorage] that verifies to a stored account, a form whose title is
    not blank and whose stops (at least one) each have a trimmed,
    non-empty name and two numeric coordinates is submitted through
    [handleAddTrip]; the server appends one trip owned by that account,
    with the trimmed title and description and the stops in the form's
    order; the form is cleared, the Home page hides it and shows the
    reloaded listing, which ends with the new trip. *)
Theorem submitted_trip_is_stored `{P : Platform} (f : Client.TripForm)
    (h : Client.Home) (tok secret : string) (owner : User) (t t' : Time)
    (w : World) :
  tok <> "" -> JsString.lacks " " tok = true ->
  JWT_SECRET (env w) = Some secret -> secret <> "" ->
  jwt_verify tok secret t = Some (user_id owner) ->
  jwt_verify tok secret t' = Some (user_id owner) ->
  find_user (fun u => N.eqb (user_id u) (user_id owner)) (users w) = Some owner ->
  JsString.trim (Client.form_title f) <> "" ->
  Client.form_locations f <> [] ->
  Forall readyStop (Client.form_locations f) ->
  let '(f', (h', w')) :=
    Client.handleSubmit (Client.handleAddTrip t t' (Some tok)) f (h, w) in
  exists trip : Trip,
    trips w' = trips w ++ [trip] /\ users w' = users w
    /\ title trip = JsString.trim (Client.form_title f)
    /\ description trip = Some (JsString.trim (Client.form_description f))
    /\ createdBy trip = user_id owner
    /\ Forall2 storedAs (Client.form_locations f) (locations trip)
    /\ Client.form_title f' = "" /\ Client.form_locations f' = []
    /\ Client.isSubmitting f' = false /\ Client.form_error f' = None
    /\ Client.showForm h' = false /\ Client.apiError h' = None
    /\ map populated_trip (Client.home_trips h')
       = filter (fun x => N.eqb (createdBy x) (user_id owner)) (trips w) ++ [trip].
Proof.
  intros Htok Hl Hs Hsne Hv Hv' Hown Htitle Hne Hready.
  destruct (ready_stops_validate _ Hready) as [ls [Hval Hstored]].
  set (stops := Client.form_locations f) in *.
  set (data := Client.mkTripData (JsString.trim (Client.form_title f))
                 (JsString.trim (Client.form_description f)) stops).
  set (me := select_minus_password owner).
  set (w0 := nextRequest t w).
  set (trip := newTrip w0 (Client.data_title data)
                 (Some (Client.data_description data)) ls (view_id me)).
  set (w1 := set_res (mkResponse 201 [(201, JTrip trip)])
               (set_trips (trips w0 ++ [trip])
                  (set_nextObjectId (N.succ (nextObjectId w0)) w0))).
  assert (Hlen : Nat.eqb (length stops) 0 = false).
  { destruct stops; [now elim Hne|reflexivity]. }
  assert (Hcreate : Client.createTrip data (Some tok) t w
                    = (Client.Resolved (JTrip trip), w1)).
  { unfold Client.createTrip, Client.send, POST_trips.
    rewrite (send_with_token createTrip _ tok secret owner t w); trivial.
    rewrite (createTrip_run _ me w0 (Client.data_title data)
               (map Client.wire stops) ls); trivial.
    - intros E. apply map_eq_nil in E. now apply Hne.
    - simpl. rewrite trim_idempotent. exact Htitle. }
  assert (Hload : forall h0,
            Client.loadTrips h0 (Some tok) t' w1
            = (Client.mkHome (listing w1 (user_id owner)) (Client.showForm h0)
                             false None,
               set_res (mkResponse 200 [(200, JTrips (listing w1 (user_id owner)))])
                       (nextRequest t' w1))).
  { intros h0. unfold Client.loadTrips, Client.fetchTrips, Client.send, GET_trips.
    rewrite (send_with_token getTrips _ tok secret owner t' w1); trivial. }
  unfold Client.handleSubmit.
  apply truthy_true in Htitle. rewrite Htitle. fold stops. rewrite Hlen.
  simpl negb. cbv beta iota.
  fold data. unfold Client.handleAddTrip. rewrite Hcreate, Hload.
  exists trip. repeat split.
  - simpl. apply trim_idempotent.
  - exact Hstored.
  - simpl. unfold listing. rewrite map_map. simpl. rewrite map_id.
    rewrite (filter_snoc (fun x => N.eqb (createdBy x) (user_id owner))
               (trips w) trip).
    simpl. now rewrite N.eqb_refl.
Qed.

Lemma submitted_trip_is_stored_witness :
  let tok := Sample.sign 1 "s3cret" 2592000 1000 in
  let f := Client.mkTripForm (Sample.nbsp ++ "Dunes ") " sand " [Client.mkStop "Pier" (Some (34 # 1)%Q)
                                                   (Some (-237 # 2)%Q)]
             "" false false None in
  let h := Client.mkHome [] true false None in
  let '(f', (h', w')) :=
    Client.handleSubmit
      (Client.handleAddTrip (P := Sample.platform) 1001 1002 (Some tok))
      f (h, Sample.world0) in
  map title (trips w') = ["Coastal Run"; "Desert Loop"; "Harbour"; "Dunes"]
  /\ Client.form_title f' = ""
  /\ map (fun pt => title (populated_trip pt)) (Client.home_trips h')
     = ["Coastal Run"; "Harbour"; "Dunes"].
Proof.
  intros tok f h.
  assert (Hready : Forall readyStop (Client.form_locations f)).
  { repeat constructor; discriminate. }
  assert (Htok : tok <> "") by discriminate.
  assert (Hsecret : "s3cret" <> "") by discriminate.
  assert (Htitle : JsString.trim (Client.form_title f) <> "") by discriminate.
  assert (Hstops : Client.form_locations f <> []) by discriminate.
  pose proof (submitted_trip_is_stored (P := Sample.platform) f h tok "s3cret"
                Sample.alice 1001 1002 Sample.world0 Htok eq_refl eq_refl Hsecret
                eq_refl eq_refl eq_refl Htitle Hstops Hready) as H.
  destruct (Client.handleSubmit _ f (h, Sample.world0)) as [f' [h' w']].
  destruct H as [trip [H1 [_ [H3 [_ [_ [_ [H7 [_ [_ [_ [_ [_ H13]]]]]]]]]]]]].
  split; [|split; [exact H7|]].
  - rewrite H1, map_app. simpl. now rewrite H3.
  - rewrite <- map_map, H13, map_app. simpl. now rewrite H3.
Defined.

(* ------------------------------------------------------------------ *)
(** ** Stops of the trip form *)

Lemma truthy_nonempty (s : string) : JsString.truthy s = true -> s <> "".
Proof.
  intros H C. subst s. discriminate H.
Qed.

Lemma filterIndex_all {A} (keep : nat -> bool) (l : list A) :
  forall from, (forall k, from <= k -> keep k = true) ->
  Client.filterIndex keep from l = l.
Proof.
  induction l as [|x r IH]; intros from H; simpl; [reflexivity|].
  rewrite (H from) by lia. f_equal. apply IH. intros k Hk. apply H. lia.
Qed.

Lemma filterIndex_remove {A} (l : list A) :
  forall i from,
  Client.filterIndex (fun index => negb (Nat.eqb index (from + i))) from l
  = firstn i l ++ skipn (S i) l.
Proof.
  induction l as [|x r IH]; intros i from; simpl.
  - now destruct i.
  - destruct i as [|j].
    + rewrite Nat.add_0_r, Nat.eqb_refl. simpl.
      apply filterIndex_all. intros k Hk.
      apply negb_true_iff, Nat.eqb_neq. lia.
    + replace (Nat.eqb from (from + S j)) with false
        by (symmetry; apply Nat.eqb_neq; lia).
      simpl. f_equal.
      replace (from + S j) with (S from + j) by lia. apply IH.
Qed.

Lemma Forall_firstn {A} (Q : A -> Prop) (l : list A) :
  Forall Q l -> forall i, Forall Q (firstn i l).
Proof.
  induction 1 as [|x r Hx _ IH]; intros [|i]; simpl; constructor; auto.
Qed.

Lemma Forall_skipn {A} (Q : A -> Prop) (l : list A) :
  Forall Q l -> forall j, Forall Q (skipn j l).
Proof.
  induction 1 as [|x r Hx Hr IH]; intros [|j]; simpl; auto.
Qed.

Lemma Forall_firstn_skipn {A} (Q : A -> Prop) (l : list A) (i j : nat) :
  Forall Q l -> Forall Q (firstn i l ++ skipn j l).
Proof.
  intros H. apply Forall_app. split.
  - now apply Forall_firstn.
  - now apply Forall_skipn.
Qed.

(** X23.  Adding a stop through the geocoder keeps the form's stops fit
    to submit: when every stop has a trimmed, non-empty name and two
    numeric coordinates and the geocoder, if it finds the place, gives two
    numbers, the same holds afterwards.  The stops already there stay in
    place, at most one is added, after them, and one is added exactly when
    no error is shown. *)
Theorem geocoded_stop_is_ready (outcome : Client.Geocoded) (f : Client.TripForm) :
  (forall lat lon, outcome = Client.Found lat lon -> lat <> None /\ lon <> None) ->
  Forall readyStop (Client.form_locations f) ->
  let f' := Client.handleGeocodeAndAddLocation outcome f in
  Forall readyStop (Client.form_locations f')
  /\ (exists added, Client.form_locations f' = Client.form_locations f ++ added
                    /\ length added <= 1)
  /\ (Client.form_error f' = None
      <-> length (Client.form_locations f') = S (length (Client.form_locations f))).
Proof.
  intros Hnum Hready f'. subst f'. unfold Client.handleGeocodeAndAddLocation.
  destruct (JsString.truthy (JsString.trim (Client.currentLocationName f))) eqn:E;
    simpl.
  - destruct outcome as [lat lon| |]; simpl.
    + destruct (Hnum lat lon eq_refl) as [Hla Hlo]. split; [|split].
      * apply Forall_app. split; [exact Hready|]. constructor; [|constructor].
        unfold readyStop. simpl.
        split; [apply trim_idempotent|]. split; [now apply truthy_nonempty|].
        now split.
      * eexists [_]. split; [reflexivity|simpl; lia].
      * rewrite length_app. simpl. split; [lia|reflexivity].
    + split; [exact Hready|]. split.
      * exists []. rewrite app_nil_r. split; [reflexivity|simpl; lia].
      * split; [discriminate|lia].
    + split; [exact Hready|]. split.
      * exists []. rewrite app_nil_r. split; [reflexivity|simpl; lia].
      * split; [discriminate|lia].
  - split; [exact Hready|]. split.
    + exists []. rewrite app_nil_r. split; [reflexivity|simpl; lia].
    + split; [discriminate|lia].
Qed.

Lemma geocoded_stop_is_ready_witness :
  let f := Client.mkTripForm "Dunes" "" [] "  Pier " false true None in
  Client.form_locations
    (Client.handleGeocodeAndAddLocation
       (Client.Found (Some (34 # 1)%Q) (Some (-237 # 2)%Q)) f)
  = [Client.mkStop "Pier" (Some (34 # 1)%Q) (Some (-237 # 2)%Q)]
  /\ Forall readyStop
       (Client.form_locations
          (Client.handleGeocodeAndAddLocation
             (Client.Found (Some (34 # 1)%Q) (Some (-237 # 2)%Q)) f)).
Proof.
  intros f. split; [reflexivity|].
  apply (geocoded_stop_is_ready
           (Client.Found (Some (34 # 1)%Q) (Some (-237 # 2)%Q)) f).
  - intros lat lon E. inversion E. split; discriminate.
  - constructor.
Defined.

(** X24.  Removing stop number [i] of the form removes that stop and no
    other: what is left is the stops before it followed by the stops after
    it, in their order; an index past the end removes nothing; stops that
    were fit to submit stay so, and the error is cleared. *)
Theorem remove_location_at_index (i : nat) (f : Client.TripForm) :
  Forall readyStop (Client.form_locations f) ->
  let f' := Client.handleRemoveLocation i f in
  Client.form_locations f'
  = firstn i (Client.form_locations f) ++ skipn (S i) (Client.form_locations f)
  /\ (length (Client.form_locations f) <= i ->
      Client.form_locations f' = Client.form_locations f)
  /\ (i < length (Client.form_locations f) ->
      S (length (Client.form_locations f')) = length (Client.form_locations f))
  /\ Forall readyStop (Client.form_locations f')
  /\ Client.form_error f' = None
  /\ Client.form_title f' = Client.form_title f.
Proof.
  intros Hready f'.
  assert (E : Client.form_locations f'
              = firstn i (Client.form_locations f)
                ++ skipn (S i) (Client.form_locations f)).
  { subst f'. unfold Client.handleRemoveLocation. simpl.
    exact (filterIndex_remove (Client.form_locations f) i 0). }
  split; [exact E|]. split; [|split; [|split; [|split; reflexivity]]].
  - intros Hi. rewrite E, firstn_all2, skipn_all2 by lia. apply app_nil_r.
  - intros Hi. rewrite E, length_app, length_firstn, length_skipn. lia.
  - rewrite E. now apply Forall_firstn_skipn.
Qed.

Lemma remove_location_at_index_witness :
  let a := Client.mkStop "Pier" (Some (34 # 1)%Q) (Some (-237 # 2)%Q) in
  let b := Client.mkStop "Dunes" (Some (35 # 1)%Q) (Some (-120 # 1)%Q) in
  let c := Client.mkStop "Harbour" (Some (36 # 1)%Q) (Some (-121 # 1)%Q) in
  Client.form_locations
    (Client.handleRemoveLocation 1
       (Client.mkTripForm "Coast" "" [a; b; c] "" false false (Some "x")))
  = [a; c].
Proof.
  intros a b c.
  assert (H : Forall readyStop [a; b; c]) by (repeat constructor; discriminate).
  exact (proj1 (remove_location_at_index 1
                  (Client.mkTripForm "Coast" "" [a; b; c] "" false false (Some "x"))
                  H)).
Defined.

(* ------------------------------------------------------------------ *)
(** ** A creation the server refuses *)

(** X25.  A trip the server refuses still empties the form.  With a title
    that is not blank and at least one stop, when [createTrip] is rejected
    (whatever the status), [handleAddTrip] catches the rejection and shows
    the server's message on the Home page, so the promise the form awaits
    resolves and the form clears its title, description and stops; the
    Home page keeps the form open and its listing as it was, and no
    reload is sent. *)
Theorem rejected_trip_clears_form `{P : Platform} (f : Client.TripForm)
    (h : Client.Home) (storage : Client.LocalStorage) (t t' : Time) (w : World)
    (status : nat) (data : Json) :
  JsString.trim (Client.form_title f) <> "" ->
  Client.form_locations f <> [] ->
  let tripData :=
    Client.mkTripData (JsString.trim (Client.form_title f))
                      (JsString.trim (Client.form_description f))
                      (Client.form_locations f) in
  fst (Client.createTrip tripData storage t w) = Client.Rejected status data ->
  let '(f', (h', w')) :=
    Client.handleSubmit (Client.handleAddTrip t t' storage) f (h, w) in
  Client.form_title f' = "" /\ Client.form_description f' = ""
  /\ Client.form_locations f' = []
  /\ Client.isSubmitting f' = false /\ Client.form_error f' = None
  /\ Client.apiError h'
     = Some (Client.orElse (Client.field "error" data) "Failed to create trip.")
  /\ Client.showForm h' = Client.showForm h
  /\ Client.home_trips h' = Client.home_trips h
  /\ w' = snd (Client.createTrip tripData storage t w).
Proof.
  intros Htitle Hne tripData Hrej.
  unfold Client.handleSubmit.
  apply truthy_true in Htitle. rewrite Htitle.
  replace (Nat.eqb (length (Client.form_locations f)) 0) with false
    by (destruct (Client.form_locations f); [now elim Hne|reflexivity]).
  simpl negb. cbv beta iota. fold tripData. unfold Client.handleAddTrip.
  destruct (Client.createTrip tripData storage t w) as [[d|s d|] w1];
    simpl in Hrej; try discriminate.
  injection Hrej as -> ->. simpl. repeat split.
Qed.

Lemma rejected_trip_clears_form_witness :
  let f := Client.mkTripForm " Dunes " " sand "
             [Client.mkStop "Pier" (Some (34 # 1)%Q) (Some (-237 # 2)%Q)]
             "" false false None in
  let h := Client.mkHome [] true false None in
  let '(f', (h', w')) :=
    Client.handleSubmit
      (Client.handleAddTrip (P := Sample.platform) 1001 1002 None)
      f (h, Sample.world0) in
  Client.form_locations f' = []
  /\ Client.apiError h' = Some "Not authorized, no token"
  /\ trips w' = trips Sample.world0.
Proof.
  intros f h.
  assert (Htitle : JsString.trim (Client.form_title f) <> "") by discriminate.
  assert (Hstops : Client.form_locations f <> []) by discriminate.
  pose proof (rejected_trip_clears_form (P := Sample.platform) f h None
                1001 1002 Sample.world0 401
                (JObject [("error", VString "Not authorized, no token")])
                Htitle Hstops eq_refl) as H.
  destruct (Client.handleSubmit _ f (h, Sample.world0)) as [f' [h' w']].
  destruct H as [_ [_ [H3 [_ [_ [H6 [_ [_ H9]]]]]]]].
  split; [exact H3|]. split; [exact H6|]. rewrite H9. reflexivity.
Defined.

(* ------------------------------------------------------------------ *)
(** ** The map of the trips *)

Lemma no_locations_flat (ts : list Trip) :
  forallb (fun trip => Nat.eqb (length (locations trip)) 0) ts = true
  <-> flat_map locations ts = [].
Proof.
  induction ts as [|x r IH]; simpl; [tauto|].
  rewrite andb_true_iff, IH. split.
  - intros [Hx Hr]. apply Nat.eqb_eq, length_zero_iff_nil in Hx.
    now rewrite Hx, Hr.
  - intros H. apply app_eq_nil in H. destruct H as [Hx Hr].
    split; [|exact Hr]. now rewrite Hx.
Qed.

Lemma mapIndex_positions (trip : Trip) (l : list Location) :
  forall from,
  map Client.marker_position
      (Client.mapIndex
         (fun loc index =>
            Client.mkMarker (Client.position loc) (title trip)
              (if JsString.truthy (name loc)
               then inl (name loc) else inr (index + 1)))
         from l)
  = map Client.position l.
Proof.
  induction l as [|x r IH]; intros from; simpl; [reflexivity|].
  now rewrite IH.
Qed.

Lemma filter_head_find {A B} (keep : A -> bool) (g : A -> B) (d : B) (l : list A) :
  match filter keep l with
  | x :: _ => g x
  | [] => d
  end
  = match List.find keep l with
    | Some x => g x
    | None => d
    end.
Proof.
  induction l as [|x r IH]; simpl; [reflexivity|].
  now destruct (keep x).
Qed.

(** X26.  The map marks every stop: [TripMap] puts one marker for each
    stop of each trip, in the order of the trips and of their stops, at
    the stop's coordinates.  It is zoomed out (2) exactly when there is no
    stop at all, and 5 otherwise; it is centred on the first stop whose
    latitude and longitude are both non-zero, and on the default centre
    when there is none. *)
Theorem map_marks_every_stop (ts : list Trip) :
  let m := Client.TripMap ts in
  let stops := flat_map locations ts in
  map Client.marker_position (Client.map_markers m) = map Client.position stops
  /\ Client.map_zoom m = (if Nat.eqb (length stops) 0 then 2 else 5)
  /\ Client.map_center m
     = match List.find (fun loc => Client.truthyNumber (latitude loc)
                                   && Client.truthyNumber (longitude loc)) stops with
       | Some loc => Client.position loc
       | None => Client.defaultCenter
       end.
Proof.
  intros m stops. subst m. unfold Client.TripMap.
  destruct (forallb (fun trip => Nat.eqb (length (locations trip)) 0) ts) eqn:E.
  - rewrite orb_true_r. apply no_locations_flat in E.
    subst stops. rewrite E. simpl. repeat split.
  - assert (Hts : Nat.eqb (length ts) 0 = false) by (now destruct ts).
    rewrite Hts. simpl orb. cbv beta iota. simpl.
    assert (Hstops : stops <> []).
    { intros C. apply no_locations_flat in C. congruence. }
    split; [|split].
    + subst stops. clear. induction ts as [|x r IH]; simpl; [reflexivity|].
      now rewrite !map_app, IH, mapIndex_positions.
    + destruct stops; [now elim Hstops|reflexivity].
    + apply filter_head_find.
Qed.

(* ------------------------------------------------------------------ *)
(** ** Deleting from the Home page *)

(** X27.  Deleting one's own trip from the Home page.  When the question
    of [window.confirm] is declined nothing is sent and nothing changes.
    When it is confirmed, with a token in [localStorage] that verifies to
    the stored account owning the trip and trip ids that are unique (and
    of twelve bytes, as an [ObjectId] is, so that the path of the request
    has its 24 digits), the server drops that trip and no other, no
    account changes, and the page shows no error and the reloaded listing:
    the owner's remaining trips, the deleted one not among them. *)
Theorem page_delete_removes_trip `{P : Platform} (h : Client.Home)
    (tok secret : string) (owner : User) (trip : Trip) (t t' : Time)
    (w : World) :
  tok <> "" -> JsString.lacks " " tok = true ->
  JWT_SECRET (env w) = Some secret -> secret <> "" ->
  jwt_verify tok secret t = Some (user_id owner) ->
  jwt_verify tok secret t' = Some (user_id owner) ->
  find_user (fun u => N.eqb (user_id u) (user_id owner)) (users w) = Some owner ->
  uniqueTripIds w -> In trip (trips w) -> (trip_id trip < 2 ^ 96)%N ->
  createdBy trip = user_id owner ->
  Client.handleDeleteTrip false t t' (Some tok) (trip_id trip) (h, w) = (h, w)
  /\ let '(h', w') :=
       Client.handleDeleteTrip true t t' (Some tok) (trip_id trip) (h, w) in
     (forall x, In x (trips w') <-> In x (trips w) /\ trip_id x <> trip_id trip)
     /\ users w' = users w
     /\ Client.apiError h' = None /\ Client.isLoading h' = false
     /\ map populated_trip (Client.home_trips h')
        = filter (fun x => N.eqb (createdBy x) (user_id owner)) (trips w')
     /\ ~ In trip (map populated_trip (Client.home_trips h')).
Proof.
  intros Htok Hl Hs Hsne Hv Hv' Hown Huniq Hin Hbound Hmine.
  split; [reflexivity|].
  set (me := select_minus_password owner).
  set (w0 := nextRequest t w).
  set (w1 := set_res (mkResponse 200
                [(200, JObject [("message", VString "Trip removed successfully")])])
               (set_trips (removeFirst (fun x => N.eqb (trip_id x) (trip_id trip))
                                       (trips w0)) w0)).
  assert (Hdel : Client.deleteTrip (trip_id trip) (Some tok) t w
                 = (Client.Resolved
                      (JObject [("message", VString "Trip removed successfully")]),
                    w1)).
  { unfold Client.deleteTrip, Client.send, DELETE_trip.
    rewrite (send_with_token deleteTrip _ tok secret owner t w); trivial.
    rewrite (deleteTrip_run _ me w0 (trip_id trip));
      [|reflexivity|reflexivity|exact (castObjectId_toString _ Hbound)].
    simpl trips.
    rewrite (find_unique_id (trips w) trip Huniq Hin).
    rewrite Hmine. simpl view_id. rewrite N.eqb_refl. reflexivity. }
  assert (Hload : forall h0,
            Client.loadTrips h0 (Some tok) t' w1
            = (Client.mkHome (listing w1 (user_id owner)) (Client.showForm h0)
                             false None,
               set_res (mkResponse 200 [(200, JTrips (listing w1 (user_id owner)))])
                       (nextRequest t' w1))).
  { intros h0. unfold Client.loadTrips, Client.fetchTrips, Client.send, GET_trips.
    rewrite (send_with_token getTrips _ tok secret owner t' w1); trivial. }
  unfold Client.handleDeleteTrip. simpl negb. cbv iota.
  rewrite Hdel, Hload.
  assert (Hleft : forall x,
            In x (removeFirst (fun x => N.eqb (trip_id x) (trip_id trip)) (trips w))
            <-> In x (trips w) /\ trip_id x <> trip_id trip)
    by (apply removeFirst_unique_id; exact Huniq).
  assert (Hshown : map populated_trip (listing w1 (user_id owner))
                   = filter (fun x => N.eqb (createdBy x) (user_id owner))
                       (removeFirst (fun x => N.eqb (trip_id x) (trip_id trip))
                                    (trips w))).
  { unfold listing. rewrite map_map. simpl. now rewrite map_id. }
  split; [exact Hleft|]. split; [reflexivity|]. split; [reflexivity|].
  split; [reflexivity|]. split; [exact Hshown|].
  simpl Client.home_trips. rewrite Hshown. intros C.
  apply filter_In in C. destruct C as [C _]. apply Hleft in C.
  now destruct C as [_ C].
Qed.

Lemma page_delete_removes_trip_witness :
  let tok := Sample.sign 1 "s3cret" 2592000 1000 in
  let h := Client.mkHome [] false false (Some "stale") in
  let '(h', w') :=
    Client.handleDeleteTrip (P := Sample.platform) true 1001 1002 (Some tok)
      (trip_id Sample.coastal) (h, Sample.world0) in
  users w' = users Sample.world0
  /\ Client.apiError h' = None
  /\ ~ In Sample.coastal (map populated_trip (Client.home_trips h')).
Proof.
  intros tok h.
  assert (Htok : tok <> "") by discriminate.
  assert (Hsecret : "s3cret" <> "") by discriminate.
  assert (Huniq : uniqueTripIds Sample.world0).
  { unfold uniqueTripIds. simpl. repeat constructor; simpl; intuition discriminate. }
  assert (Hin : In Sample.coastal (trips Sample.world0)) by (simpl; auto).
  destruct (page_delete_removes_trip (P := Sample.platform) h tok "s3cret"
              Sample.alice Sample.coastal 1001 1002 Sample.world0
              Htok eq_refl eq_refl Hsecret eq_refl eq_refl eq_refl
              Huniq Hin eq_refl eq_refl) as [_ H].
  revert H.
  destruct (Client.handleDeleteTrip (P := Sample.platform) true 1001 1002
              (Some tok) (trip_id Sample.coastal) (h, Sample.world0)) as [h' w'].
  intros H.
  destruct H as [_ [H2 [H3 [_ [_ H6]]]]].
  split; [exact H2|]. split; [exact H3|exact H6].
Defined.
